(** * kraken/lib/train.py: dataset construction and codec reconciliation

    A shallow embedding of [_star_fun], [RecognitionModel._build_dataset],
    [RecognitionModel.__init__] (the hyper-parameters, the dispatch on the
    format of the ground truth, the building of the datasets),
    [RecognitionModel.setup], [RecognitionModel.validation_epoch_end],
    [KrakenTrainer.__init__] and [KrakenTrainer.on_validation_end].

    Python objects that are shared and mutated (codecs, datasets) live in a
    store and are passed around by reference; exceptions are values of
    [exn]; a computation is a function from the store to a result and the
    store it leaves behind, so whatever was mutated before an exception is
    raised stays mutated. *)

From Stdlib Require Import Qcanon.
From stdpp Require Import gmap strings list fin_maps sorting pretty.

Open Scope string_scope.
Open Scope list_scope.

#[local] Set Warnings "-clear-no-such-hyp".
#[local] Set Warnings "-register-all".

(** ** Exceptions, log records *)

(** The payload of an f-string keeps the interpolated values. *)
Inductive message :=
| Text (s : string)
| AlphabetsMismatch (alpha_diff : gset string)
| InvalidResize (resize : string)
| Skipping (strerror filename : string)
| ResizingCodec (n : nat)
| ResizingLastLayer (outputs : nat)
| CreatingModel (spec : string) (outputs : nat)
| OnlyInTraining (alpha_diff : gset string)
| OnlyInValidation (alpha_diff : gset string)
| DeletingClasses (deleted retained : Z)
| AddingSample (im : option (list string))
| SplittingOff (val_len total : nat)
| NoValidTrainingData.

Inductive exn :=
| KrakenEncodeException (cluster : string)
| KrakenInputException (m : message)
| ValueError (m : message)
| NameError (name : string)
| UnboundLocalError (name : string)
| AttributeError (attr : string)
| FileNotFoundError (strerror filename : string)
| StaleReference.
(* [StaleReference] is not an exception of Python: it stands for a
   reference that points outside the store, which no run produces. *)

Inductive level := DEBUG | INFO | WARNING.

#[global] Instance message_eq_dec : EqDecision message.
Proof. solve_decision. Defined.
#[global] Instance exn_eq_dec : EqDecision exn.
Proof. solve_decision. Defined.
#[global] Instance level_eq_dec : EqDecision level.
Proof. solve_decision. Defined.

(** ** kraken.lib.codec.PytorchCodec *)

(** Modelled from the spec: kraken/lib/codec.py is not part of the sources.
    A codec maps grapheme clusters to label sequences ([c2l]) and carries
    the [strict] flag. *)
Record PytorchCodec := mkCodec {
  c2l : gmap string (list nat);
  strict : bool
}.

#[global] Instance PytorchCodec_eq_dec : EqDecision PytorchCodec.
Proof. solve_decision. Defined.

(** [sorted(charset)] *)
Definition sorted (charset : gset string) : list string :=
  merge_sort String.le (elements charset).

(** All labels in use, cluster by cluster. *)
Definition labels (m : gmap string (list nat)) : list nat :=
  mjoin (snd <$> map_to_list m).

(** Modelled from the spec: [max_label] is the highest label assigned. *)
Definition max_label (c : PytorchCodec) : nat := max_list (labels (c2l c)).

(** Modelled from the spec: [len(codec)], the number of clusters. *)
Definition codec_len (c : PytorchCodec) : nat := size (c2l c).

(** Modelled from the spec: a ground-truth line is kept as the sequence of
    its grapheme clusters, the unit [c2l] is keyed by. [encode] emits the
    label sequences of the clusters in order; a cluster without entry
    raises under [strict] and is left out otherwise. *)
Fixpoint codec_encode (c : PytorchCodec) (line : list string) : exn + list nat :=
  match line with
  | [] => inr []
  | g :: rest =>
      match c2l c !! g with
      | Some ls =>
          match codec_encode c rest with
          | inr out => inr (ls ++ out)
          | inl e => inl e
          end
      | None =>
          if strict c then inl (KrakenEncodeException g)
          else codec_encode c rest
      end
  end.

(** Entries for [clusters], numbered from [start] in the order given. *)
Definition enumerate_from (start : nat) (clusters : list string)
  : list (string * list nat) :=
  imap (λ i g, (g, [start + i])) clusters.

(** Modelled from the spec: [PytorchCodec(alphabet)], a fresh codec over an
    alphabet, labels given in sorted order from 0, not strict. *)
Definition codec_of_alphabet (alphabet : gset string) : PytorchCodec :=
  {| c2l := list_to_map (enumerate_from 0 (sorted alphabet)); strict := false |}.

(** Modelled from the spec: [add_labels] returns a new codec, the receiver's
    entries plus one fresh label per new cluster, from [max_label + 1] on,
    in sorted order. *)
Definition add_labels (c : PytorchCodec) (new : gset string) : PytorchCodec :=
  {| c2l := list_to_map (enumerate_from (max_label c + 1) (sorted new)) ∪ c2l c;
     strict := strict c |}.

(** Number of deleted labels below [l]: how far [l] moves down. *)
Definition shift_of (deleted : list nat) (l : nat) : nat :=
  length (filter (λ d, d < l) deleted).

Definition renumber (deleted ls : list nat) : list nat :=
  (λ l, l - shift_of deleted l) <$> ls.

(** Modelled from the spec: [merge], with the label assignment the spec
    recommends and its scenario C fixes. Clusters of the receiver that
    [other] knows keep their labels, renumbered to close the holes the
    deleted labels leave; clusters only [other] knows are appended; the
    labels of the receiver's clusters that [other] lacks are returned for
    deletion. *)
Definition merge (c other : PytorchCodec) : PytorchCodec * list nat :=
  let kept := filter (λ kv, kv.1 ∈ dom (c2l other)) (c2l c) in
  let removed := filter (λ kv, kv.1 ∉ dom (c2l other)) (c2l c) in
  let rm_labels := merge_sort le (remove_dups (labels removed)) in
  let renumbered := renumber rm_labels <$> kept in
  let start := match labels renumbered with
               | [] => 0
               | ls => max_list ls + 1
               end in
  let added := sorted (dom (c2l other) ∖ dom (c2l c)) in
  ({| c2l := renumbered ∪ list_to_map (enumerate_from start added);
      strict := strict c |},
   rm_labels).

(** ** kraken.lib.dataset *)

(** A ground-truth item as handed to the constructor, named by its path. *)
Definition item := string.

(** Modelled from the spec: the dataset classes of kraken/lib/dataset.py are
    not part of the sources. A dataset holds the transcriptions of the
    samples added so far, a reference to the codec it was last encoded
    with, and the encoded targets. *)
Record Dataset := mkDataset {
  gt : list (list string);
  ds_codec : option nat;
  training_set : list (list nat);
  im_mode : string;
  seg_type : option string
}.

#[global] Instance Dataset_eq_dec : EqDecision Dataset.
Proof. solve_decision. Defined.

(** [dataset.alphabet]: the clusters seen in the ground truth. *)
Definition alphabet (d : Dataset) : gset string := list_to_set (mjoin (gt d)).

(** [torch.utils.data.Subset]: a view on a dataset of the store. *)
Record Subset := mkSubset {
  dataset : nat;
  indices : list nat
}.

#[global] Instance Subset_eq_dec : EqDecision Subset.
Proof. solve_decision. Defined.

(** ** kraken.lib.vgsl.TorchVGSLModel *)

(** A row of the output projection: learned weights, named by the label
    they were trained for, or freshly initialised ones. *)
Inductive row := Trained (label : nat) | Fresh.

#[global] Instance row_eq_dec : EqDecision row.
Proof. solve_decision. Defined.

(** Modelled from the spec: kraken/lib/vgsl.py is not part of the sources. *)
Record TorchVGSLModel := mkNN {
  nn_codec : option nat;
  nn_spec : string;
  output : list row;
  one_channel_mode : option string;
  nn_seg_type : option string;
  model_type : option string;
  hyper_params : gmap string string;
  user_metadata : gmap string (option string)
}.

#[global] Instance TorchVGSLModel_eq_dec : EqDecision TorchVGSLModel.
Proof. solve_decision. Defined.

Definition set_nn_codec (r : nat) (n : TorchVGSLModel) : TorchVGSLModel :=
  mkNN (Some r) (nn_spec n) (output n) (one_channel_mode n) (nn_seg_type n)
       (model_type n) (hyper_params n) (user_metadata n).

Definition set_output (rows : list row) (n : TorchVGSLModel) : TorchVGSLModel :=
  mkNN (nn_codec n) (nn_spec n) rows (one_channel_mode n) (nn_seg_type n)
       (model_type n) (hyper_params n) (user_metadata n).

Definition set_nn_spec (s : string) (n : TorchVGSLModel) : TorchVGSLModel :=
  mkNN (nn_codec n) s (output n) (one_channel_mode n) (nn_seg_type n)
       (model_type n) (hyper_params n) (user_metadata n).

Definition set_hyper_params (h : gmap string string) (n : TorchVGSLModel) : TorchVGSLModel :=
  mkNN (nn_codec n) (nn_spec n) (output n) (one_channel_mode n) (nn_seg_type n)
       (model_type n) h (user_metadata n).

Definition set_model_type (t : string) (n : TorchVGSLModel) : TorchVGSLModel :=
  mkNN (nn_codec n) (nn_spec n) (output n) (one_channel_mode n) (nn_seg_type n)
       (Some t) (hyper_params n) (user_metadata n).

Definition set_user_metadata (u : gmap string (option string)) (n : TorchVGSLModel) : TorchVGSLModel :=
  mkNN (nn_codec n) (nn_spec n) (output n) (one_channel_mode n) (nn_seg_type n)
       (model_type n) (hyper_params n) u.

(** The rows that survive the deletion of the rows at [del], in order. *)
Definition delete_rows (del : list nat) (rows : list row) : list row :=
  snd <$> filter (λ ir, ir.1 ∉ del) (imap (λ i r, (i, r)) rows).

(** Modelled from the spec: [resize_output(new_width, delete_indices)] drops
    the rows at [delete_indices], keeps the others in order, and fills up
    to [new_width] rows with fresh ones. *)
Definition resize_rows (new_width : nat) (del : list nat) (rows : list row) : list row :=
  let kept := delete_rows del rows in
  take new_width (kept ++ replicate (new_width - length kept) Fresh).

(** The number a string of decimal digits spells, read from the left. *)
Fixpoint digits_value (acc : nat) (s : string) : nat :=
  match s with
  | EmptyString => acc
  | String a rest =>
      match Ascii.is_nat a with
      | Some d => digits_value (10 * acc + d) rest
      | None => digits_value acc rest
      end
  end.

(** [spec[1:-1]] *)
Definition strip_brackets (s : string) : string :=
  String.substring 1 (String.length s - 2) s.

(** ['[{} O1c{}]'.format(spec[1:-1], n)] *)
Definition with_output_layer (s : string) (n : nat) : string :=
  "[" +:+ strip_brackets s +:+ " O1c" +:+ pretty n +:+ "]".

(** Modelled from the spec: the output width a VGSL spec asks for, the
    number of classes of its last block. *)
Definition spec_output_width (s : string) : nat :=
  match last (String.words (strip_brackets s)) with
  | Some block => digits_value 0 (String.substring 3 (String.length block - 3) block)
  | None => 0
  end.

(** Modelled from the spec: [TorchVGSLModel(spec)] followed by
    [init_weights()], a new network with freshly initialised rows. *)
Definition new_network (s : string) : TorchVGSLModel :=
  mkNN None s (replicate (spec_output_width s) Fresh) None None None ∅ ∅.

Fixpoint unwords (blocks : list string) : string :=
  match blocks with
  | [] => ""
  | [b] => b
  | b :: rest => b +:+ " " +:+ unwords rest
  end.

(** Modelled from the spec: [append(idx, spec)] keeps the first [idx]
    blocks of the network and splices the blocks of [spec] after them; the
    output layer is that of the new stage. *)
Definition append_stage (idx : Z) (s : string) (n : TorchVGSLModel) : TorchVGSLModel :=
  let old := take (Z.to_nat idx) (String.words (strip_brackets (nn_spec n))) in
  let new := String.words (strip_brackets s) in
  set_output (replicate (spec_output_width s) Fresh)
    (set_nn_spec ("[" +:+ unwords (old ++ new) +:+ "]") n).

(** ** The training module and the store *)

(** The attributes of a [RecognitionModel] the modelled code reads or
    writes. An attribute that has not been assigned yet is [None]. *)
Record RecognitionModel := mkSelf {
  append : option Z;
  model : option string;
  resize : string;
  format_type : option string;
  num_workers : option Z;
  hparams : gmap string string;
  nn : option TorchVGSLModel;
  spec : option string;
  codec : option nat;
  train_set : option Subset;
  val_set : option Subset;
  rec_nn : bool;
  net : bool
}.

#[global] Instance RecognitionModel_eq_dec : EqDecision RecognitionModel.
Proof. solve_decision. Defined.

Definition set_nn (n : TorchVGSLModel) (s : RecognitionModel) : RecognitionModel :=
  mkSelf (append s) (model s) (resize s) (format_type s) (num_workers s) (hparams s)
         (Some n) (spec s) (codec s) (train_set s) (val_set s) (rec_nn s) (net s).

Definition set_spec (v : string) (s : RecognitionModel) : RecognitionModel :=
  mkSelf (append s) (model s) (resize s) (format_type s) (num_workers s) (hparams s)
         (nn s) (Some v) (codec s) (train_set s) (val_set s) (rec_nn s) (net s).

Definition set_codec (v : option nat) (s : RecognitionModel) : RecognitionModel :=
  mkSelf (append s) (model s) (resize s) (format_type s) (num_workers s) (hparams s)
         (nn s) (spec s) v (train_set s) (val_set s) (rec_nn s) (net s).

Definition set_train_set (v : Subset) (s : RecognitionModel) : RecognitionModel :=
  mkSelf (append s) (model s) (resize s) (format_type s) (num_workers s) (hparams s)
         (nn s) (spec s) (codec s) (Some v) (val_set s) (rec_nn s) (net s).

Definition set_val_set (v : Subset) (s : RecognitionModel) : RecognitionModel :=
  mkSelf (append s) (model s) (resize s) (format_type s) (num_workers s) (hparams s)
         (nn s) (spec s) (codec s) (train_set s) (Some v) (rec_nn s) (net s).

Definition set_rec_nn (s : RecognitionModel) : RecognitionModel :=
  mkSelf (append s) (model s) (resize s) (format_type s) (num_workers s) (hparams s)
         (nn s) (spec s) (codec s) (train_set s) (val_set s) true true.

(** Calls to the collaborators, in the order they are made. *)
Inductive call :=
| DatasetNew
| PoolOpen (processes : Z)
| DatasetParse (it : item)
| DatasetAdd (ds : nat) (it : item)
| DatasetAddParsed (ds : nat) (sample : list string)
| DatasetEncode (ds : nat) (codec : option nat)
| CodecAddLabels (codec : nat) (new : gset string)
| CodecMerge (codec other : nat)
| NNAppend (idx : Z) (spec : string)
| NNNew (spec : string)
| NNAddCodec (codec : nat)
| NNResizeOutput (width : nat) (del : list nat).

#[global] Instance call_eq_dec : EqDecision call.
Proof. solve_decision. Defined.

Record World := mkWorld {
  codecs : list PytorchCodec;
  datasets : list Dataset;
  self : RecognitionModel;
  calls : list call;
  logged : list (level * message)
}.

#[global] Instance World_eq_dec : EqDecision World.
Proof. solve_decision. Defined.

(** A computation: a result or an exception, and the store left behind. *)
Definition M (A : Type) : Type := World → (exn + A) * World.

Definition ret {A} (a : A) : M A := λ w, (inr a, w).

Definition raise {A} (e : exn) : M A := λ w, (inl e, w).

Definition bind {A B} (m : M A) (k : A → M B) : M B :=
  λ w, match m w with
       | (inr a, w') => k a w'
       | (inl e, w') => (inl e, w')
       end.

Declare Scope py_scope.
Delimit Scope py_scope with py.
Bind Scope py_scope with M.

Notation "x ← m ; k" := (bind m (λ x, k))
  (at level 20, m at level 100, k at level 200,
   format "'[v' x  ←  m ; '/' k ']'") : py_scope.
Notation "' x ← m ; k" := (bind m (λ x, k))
  (at level 20, x pattern, m at level 100, k at level 200,
   format "'[v' ' x  ←  m ; '/' k ']'") : py_scope.
Notation "m ;; k" := (bind m (λ _, k))
  (at level 100, k at level 200, right associativity,
   format "'[v' m ;; '/' k ']'") : py_scope.

Open Scope py_scope.

(** [try: body except: handler]; the handler says which exceptions it
    takes. *)
Definition try_except {A} (body : M A) (handler : exn → option (M A)) : M A :=
  λ w, match body w with
       | (inr a, w') => (inr a, w')
       | (inl e, w') =>
           match handler e with
           | Some h => h w'
           | None => (inl e, w')
           end
       end.

Definition get_self : M RecognitionModel := λ w, (inr (self w), w).

Definition update_self (f : RecognitionModel → RecognitionModel) : M unit :=
  λ w, (inr tt, mkWorld (codecs w) (datasets w) (f (self w)) (calls w) (logged w)).

Definition called (c : call) : M unit :=
  λ w, (inr tt, mkWorld (codecs w) (datasets w) (self w) (calls w ++ [c]) (logged w)).

Definition logger (l : level) (m : message) : M unit :=
  λ w, (inr tt, mkWorld (codecs w) (datasets w) (self w) (calls w) (logged w ++ [(l, m)])).

(** Reading an attribute of an object; [None] has none. *)
Definition attr {A} (name : string) (o : option A) : M A :=
  match o with
  | Some a => ret a
  | None => raise (AttributeError name)
  end.

(** Reading a local variable of the running function. *)
Definition load_fast {A} (name : string) (v : option A) : M A :=
  match v with
  | Some a => ret a
  | None => raise (UnboundLocalError name)
  end.

(** The names train.py binds at module level. *)
Definition module_globals : list string :=
  ["os"; "re"; "abc"; "sys"; "torch"; "pathlib"; "logging"; "np"; "F"; "pl";
   "cycle"; "partial"; "_tqdm"; "Pool"; "cast"; "Callable"; "Dict";
   "Optional"; "Sequence"; "Union"; "Any"; "List"; "EarlyStopping";
   "Callback"; "Tqdm"; "models"; "vgsl"; "segmentation"; "default_specs";
   "preparse_xml_data"; "make_printable"; "PytorchCodec";
   "ArrowIPCRecognitionDataset"; "BaselineSet"; "GroundTruthDataset";
   "PolygonGTDataset"; "ImageInputTransforms"; "InfiniteDataLoader";
   "compute_error"; "collate_sequences"; "validate_hyper_parameters";
   "KrakenInputException"; "KrakenEncodeException"; "DataLoader";
   "random_split"; "Subset"; "logger"; "_star_fun"; "KrakenTrainer";
   "KrakenProgressBar"; "RecognitionModel"; "SegmentationModel"].

(** Reading a name that is not a local of the running function:
    [binding] is what the module binds it to, [None] when the name is not
    among [module_globals]. *)
Definition load_global {A} (name : string) (binding : option A) : M A :=
  match binding with
  | Some a => ret a
  | None => raise (NameError name)
  end.

Definition get_codec (r : nat) : M PytorchCodec :=
  λ w, match codecs w !! r with
       | Some c => (inr c, w)
       | None => (inl StaleReference, w)
       end.

Definition put_codec (r : nat) (c : PytorchCodec) : M unit :=
  λ w, (inr tt, mkWorld (<[r := c]> (codecs w)) (datasets w) (self w) (calls w) (logged w)).

(** A new codec object; its reference is returned. *)
Definition new_codec (c : PytorchCodec) : M nat :=
  λ w, (inr (length (codecs w)),
        mkWorld (codecs w ++ [c]) (datasets w) (self w) (calls w) (logged w)).

Definition get_dataset (r : nat) : M Dataset :=
  λ w, match datasets w !! r with
       | Some d => (inr d, w)
       | None => (inl StaleReference, w)
       end.

Definition put_dataset (r : nat) (d : Dataset) : M unit :=
  λ w, (inr tt, mkWorld (codecs w) (<[r := d]> (datasets w)) (self w) (calls w) (logged w)).

Definition new_dataset (d : Dataset) : M nat :=
  λ w, (inr (length (datasets w)),
        mkWorld (codecs w) (datasets w ++ [d]) (self w) (calls w) (logged w)).

(** ** Collaborators as computations *)

(** The encoded targets of all lines, or the first exception. *)
Fixpoint encode_lines (c : PytorchCodec) (lines : list (list string))
  : exn + list (list nat) :=
  match lines with
  | [] => inr []
  | line :: rest =>
      match codec_encode c line with
      | inl e => inl e
      | inr t =>
          match encode_lines c rest with
          | inl e => inl e
          | inr ts => inr (t :: ts)
          end
      end
  end.

(** Modelled from the spec: [dataset.encode(codec)]. With a codec the
    ground truth is encoded against it; without one a codec is first built
    from the dataset's own alphabet. When encoding fails the exception
    goes to the caller. What a failed [encode] leaves in the dataset the
    spec does not say: that the dataset then is as it was is an
    assumption of this model. *)
Definition dataset_encode (ds : nat) (codec : option nat) : M unit :=
  called (DatasetEncode ds codec);;
  d ← get_dataset ds;
  r ← match codec with
      | Some r => ret r
      | None => new_codec (codec_of_alphabet (alphabet d))
      end;
  c ← get_codec r;
  match encode_lines c (gt d) with
  | inl e => raise e
  | inr targets =>
      put_dataset ds (mkDataset (gt d) (Some r) targets (im_mode d) (seg_type d))
  end.

(** [self.nn.add_codec(codec)] *)
Definition nn_add_codec (r : nat) : M unit :=
  s ← get_self;
  n ← attr "add_codec" (nn s);
  called (NNAddCodec r);;
  update_self (set_nn (set_nn_codec r n)).

(** [self.nn.resize_output(width, del_indices)] *)
Definition nn_resize_output (width : nat) (del : list nat) : M unit :=
  s ← get_self;
  n ← attr "resize_output" (nn s);
  called (NNResizeOutput width del);;
  update_self (set_nn (set_output (resize_rows width del (output n)) n)).

(** [self.nn.append(idx, spec)] *)
Definition nn_append (idx : Z) (sp : string) : M unit :=
  s ← get_self;
  n ← attr "append" (nn s);
  called (NNAppend idx sp);;
  update_self (set_nn (append_stage idx sp n)).

(** [codec.add_labels(new)]: the result is a new object. *)
Definition codec_add_labels (r : nat) (new : gset string) : M nat :=
  c ← get_codec r;
  called (CodecAddLabels r new);;
  new_codec (add_labels c new).

(** [codec.merge(other)]: the merged codec is a new object. *)
Definition codec_merge (r other : nat) : M (nat * list nat) :=
  c ← get_codec r;
  o ← get_codec other;
  called (CodecMerge r other);;
  m ← new_codec (merge c o).1;
  ret (m, (merge c o).2).

(** ** Truth values *)

(** [if n:] for an optional integer. *)
Definition truthy_int (n : option Z) : bool :=
  match n with
  | Some z => negb (z =? 0)%Z
  | None => false
  end.

(** [if s:] for an optional string or path. *)
Definition truthy_str (s : option string) : bool :=
  match s with
  | Some v => negb (String.eqb v "")
  | None => false
  end.

(** [if codec:] for an optional codec object, which has a length. *)
Definition truthy_codec (o : option nat) : M bool :=
  match o with
  | Some r => c ← get_codec r; ret (negb (Nat.eqb (codec_len c) 0))
  | None => ret false
  end.

(** [stage in [None, 'fit']] *)
Definition stage_in_None_fit (stage : option string) : bool :=
  match stage with
  | None => true
  | Some s => String.eqb s "fit"
  end.

(** ** _star_fun (lines 55-62) and RecognitionModel._build_dataset (lines 350-371) *)

(** Modelled from the spec: what a dataset class provides. [dc_empty] is
    the dataset its constructor returns, [dc_parse] what parsing a
    ground-truth item yields: the transcription of the sample, or the
    exception raised (a missing file, a malformed input, anything else). *)
Record DatasetClass := mkDatasetClass {
  dc_empty : Dataset;
  dc_parse : item → exn + list string
}.

Definition _star_fun {A} (fun_ : item → exn + A) (kwargs : item) : M (option A) :=
  match fun_ kwargs with
  | inr v => ret (Some v)
  | inl (FileNotFoundError strerror filename) =>
      logger WARNING (Skipping strerror filename);;
      ret None
  | inl (KrakenInputException m) =>
      logger WARNING m;;
      ret None
  | inl e => raise e
  end.

(** Modelled from the spec: [dataset.add] called with a parsed sample stores
    it. *)
Definition dataset_add_parsed (ds : nat) (sample : list string) : M unit :=
  called (DatasetAddParsed ds sample);;
  d ← get_dataset ds;
  put_dataset ds (mkDataset (gt d ++ [sample]) (ds_codec d) (training_set d)
                            (im_mode d) (seg_type d)).

(** Modelled from the spec: [dataset.add] called with an item that has
    not been parsed parses it first, and raises what parsing raises. *)
Definition dataset_add (D : DatasetClass) (ds : nat) (im : item) : M unit :=
  called (DatasetAdd ds im);;
  match dc_parse D im with
  | inl e => raise e
  | inr sample =>
      d ← get_dataset ds;
      put_dataset ds (mkDataset (gt d ++ [sample]) (ds_codec d) (training_set d)
                                (im_mode d) (seg_type d))
  end.

(** [for x in xs: body(x)] *)
Fixpoint for_each {A} (xs : list A) (body : A → M unit) : M unit :=
  match xs with
  | [] => ret tt
  | x :: rest => body x;; for_each rest body
  end.

(** [self.num_workers and self.num_workers > 1] *)
Definition several_workers (n : option Z) : bool :=
  truthy_int n && match n with Some z => (1 <? z)%Z | None => false end.

(** The body of the loop over the results of the pool: a worker has run
    [_star_fun] on the item, the result is added when there is one. *)
Definition pool_body (DatasetClass : DatasetClass) (dataset : nat) (kwargs : item) : M unit :=
  called (DatasetParse kwargs);;
  im ← _star_fun (dc_parse DatasetClass) kwargs;
  logger DEBUG (AddingSample im);;
  match im with
  | Some sample => dataset_add_parsed dataset sample
  | None => ret tt
  end.

(** The body of the loop without a pool. *)
Definition sequential_body (DatasetClass : DatasetClass) (dataset : nat) (im : item) : M unit :=
  try_except (dataset_add DatasetClass dataset im)
    (λ e, match e with
          | KrakenInputException m => Some (logger WARNING m)
          | _ => None
          end).

(** [imap_unordered] hands the results over in the order the workers
    finish, which [completion] stands for. *)
Definition _build_dataset (DatasetClass : DatasetClass)
    (completion : list item → list item) (training_data : list item) : M nat :=
  s ← get_self;
  called DatasetNew;;
  dataset ← new_dataset (dc_empty DatasetClass);
  (if several_workers (num_workers s)
      && negb (bool_decide (format_type s = Some "binary"))
   then
     called (PoolOpen (default 0%Z (num_workers s)));;
     for_each (completion training_data) (pool_body DatasetClass dataset)
   else
     for_each training_data (sequential_body DatasetClass dataset));;
  ret dataset.

(** ** RecognitionModel.__init__, from the building of the datasets on (lines 302-348) *)

(** The arguments of the constructor this part reads, and what the
    environment contributes: the order in which pool workers finish, the
    value of [int(n * partition)], and the permutation [random_split]
    draws. *)
Record InitArgs := mkInitArgs {
  arg_DatasetClass : DatasetClass;
  arg_training_data : list item;
  arg_evaluation_data : option (list item);
  arg_codec : option (gmap string (list nat));
  env_completion : list item → list item;
  env_partition : nat → nat;
  env_permutation : list nat
}.

(** [if evaluation_data:] *)
Definition truthy_list {A} (l : option (list A)) : bool :=
  match l with
  | Some (_ :: _) => true
  | _ => false
  end.

(** [if codec:] for the optional dictionary given to the constructor. *)
Definition truthy_dict (d : option (gmap string (list nat))) : bool :=
  match d with
  | Some m => negb (Nat.eqb (size m) 0)
  | None => false
  end.

(** Lines 302 to 348 of the constructor. The attributes assigned before
    ([nn], [append], [model], [num_workers], [resize], [format_type]) are
    those of [self] in the store the computation starts from. Of the log
    lines only the warnings and the split notice are recorded: the
    records of level INFO of lines 319-321, 330, 335, 338, 344 and 348
    (the sizes of the sets, the table of graphemes, the codec) are left
    out of [logged], so [logged] says which warnings the constructor
    gives, not what it logs in all. *)
Definition init_datasets (a : InitArgs) : M unit :=
  train_set_ ← _build_dataset (arg_DatasetClass a) (env_completion a) (arg_training_data a);
  td ← get_dataset train_set_;
  (if truthy_list (arg_evaluation_data a) then
     update_self (set_train_set (mkSubset train_set_ (seq 0 (length (gt td)))));;
     val_set_ ← _build_dataset (arg_DatasetClass a) (env_completion a)
                  (default [] (arg_evaluation_data a));
     vd ← get_dataset val_set_;
     update_self (set_val_set (mkSubset val_set_ (seq 0 (length (gt vd)))))
   else
     let train_len := env_partition a (length (gt td)) in
     let val_len := length (gt td) - train_len in
     logger INFO (SplittingOff val_len (length (gt td)));;
     update_self (set_train_set (mkSubset train_set_ (take train_len (env_permutation a))));;
     update_self (set_val_set (mkSubset train_set_ (drop train_len (env_permutation a)))));;
  s ← get_self;
  ts ← attr "train_set" (train_set s);
  vs ← attr "val_set" (val_set s);
  if Nat.eqb (length (indices ts)) 0 || Nat.eqb (length (indices vs)) 0 then
    raise (ValueError NoValidTrainingData)
  else
    tds ← get_dataset (dataset ts);
    vds ← get_dataset (dataset vs);
    let alpha_diff_only_train := alphabet tds ∖ alphabet vds in
    let alpha_diff_only_val := alphabet vds ∖ alphabet tds in
    (if negb (Nat.eqb (size alpha_diff_only_train) 0)
     then logger WARNING (OnlyInTraining alpha_diff_only_train) else ret tt);;
    (if negb (Nat.eqb (size alpha_diff_only_val) 0)
     then logger WARNING (OnlyInValidation alpha_diff_only_val) else ret tt);;
    (if truthy_dict (arg_codec a) then
       r ← new_codec (mkCodec (default ∅ (arg_codec a)) false);
       update_self (set_codec (Some r));;
       (* [codec.c2l.items()] on the dictionary that was passed in *)
       raise (AttributeError "c2l")
     else
       update_self (set_codec None)).

(** ** RecognitionModel.setup (lines 427-493) *)

(** The truth value of an optional codec object in a given store. *)
Definition codec_truth (w : World) (o : option nat) : bool :=
  match o with
  | Some r =>
      match codecs w !! r with
      | Some c => negb (Nat.eqb (codec_len c) 0)
      | None => false
      end
  | None => false
  end.

(** The codec the loading branch reconciles against (line 440):
    [self.codec if (self.codec and self.resize == 'both') else self.nn.codec]. *)
Definition effective_codec (w : World) : option nat :=
  if codec_truth w (codec (self w)) && String.eqb (resize (self w)) "both"
  then codec (self w)
  else nn (self w) ≫= nn_codec.

(** [codec.strict = True] *)
Definition make_strict (c : PytorchCodec) : PytorchCodec := mkCodec (c2l c) true.

(** The [elif self.resize == 'add'] block (lines 450-456). *)
Definition resize_add (ts : Subset) (codec : nat) (alpha_diff : gset string) : M unit :=
  logger INFO (ResizingCodec (size alpha_diff));;
  codec ← codec_add_labels codec alpha_diff;
  nn_add_codec codec;;
  c ← get_codec codec;
  logger INFO (ResizingLastLayer (max_label c + 1));;
  nn_resize_output (max_label c + 1) [];;
  (* [nn] is neither a local of [setup] nor a name of the module *)
  n ← load_global "nn" (@None TorchVGSLModel);
  dataset_encode (dataset ts) (nn_codec n).

(** The [elif self.resize == 'both'] block (lines 457-465). *)
Definition resize_both (ts : Subset) (codec : nat) : M unit :=
  logger INFO (Text "Resizing network or given codec to the training alphabet");;
  dataset_encode (dataset ts) None;;
  d ← get_dataset (dataset ts);
  other ← attr "codec" (ds_codec d);
  '(ncodec, del_labels) ← codec_merge codec other;
  nn_add_codec ncodec;;
  c ← get_codec codec;
  logger INFO (DeletingClasses (Z.of_nat (length del_labels))
                 (Z.of_nat (codec_len c) - Z.of_nat (length del_labels)));;
  dataset_encode (dataset ts) (Some ncodec);;
  nc ← get_codec ncodec;
  nn_resize_output (max_label nc + 1) del_labels.

(** The [except KrakenEncodeException] block of the loading branch
    (lines 446-467); [codec] is the local variable of that name. *)
Definition reconcile (ts : Subset) (codec : nat) : M unit :=
  s ← get_self;
  d ← get_dataset (dataset ts);
  c ← get_codec codec;
  let alpha_diff := alphabet d ∖ dom (c2l c) in
  if String.eqb (resize s) "fail" then
    raise (KrakenInputException (AlphabetsMismatch alpha_diff))
  else if String.eqb (resize s) "add" then
    resize_add ts codec alpha_diff
  else if String.eqb (resize s) "both" then
    resize_both ts codec
  else
    raise (ValueError (InvalidResize (resize s))).

(** [except KrakenEncodeException:] takes that exception only. *)
Definition on_encode_error (ts : Subset) (codec : nat) (e : exn) : option (M unit) :=
  match e with
  | KrakenEncodeException _ => Some (reconcile ts codec)
  | _ => None
  end.

(** The steps shared by all branches, from the encoding of the
    validation set on (lines 477-493). The construction of the recognizer
    [models.TorchSeqRecognizer(self.nn, ...)] of line 492 is kept as the
    flag [rec_nn] of the module and has no entry in [calls], which lists
    the calls on datasets, codecs and networks only. *)
Definition finish : M unit :=
  s ← get_self;
  vs ← attr "dataset" (val_set s);
  n ← attr "codec" (nn s);
  dataset_encode (dataset vs) (nn_codec n);;
  s ← get_self;
  n ← attr "one_channel_mode" (nn s);
  ts ← attr "dataset" (train_set s);
  td ← get_dataset (dataset ts);
  (if truthy_str (one_channel_mode n)
      && negb (bool_decide (Some (im_mode td) = one_channel_mode n))
   then
     g ← load_global "nn" (@None TorchVGSLModel);
     logger WARNING (Text "Neural network has been trained on images of another mode")
   else ret tt);;
  (if negb (bool_decide (format_type s = Some "path"))
      && bool_decide (nn_seg_type n = Some "bbox")
   then
     logger WARNING (Text "Neural network has been trained on bounding box image information but training set is polygonal.")
   else ret tt);;
  let n := set_model_type "recognition" (set_hyper_params (hparams s) n) in
  let n := match user_metadata n !! "seg_type" with
           | Some _ => n
           | None => set_user_metadata (<["seg_type" := seg_type td]> (user_metadata n)) n
           end in
  update_self (set_nn n);;
  update_self set_rec_nn.

(** The [if self.append:] block (lines 430-437). *)
Definition append_branch (s : RecognitionModel) : M unit :=
  ts ← attr "dataset" (train_set s);
  dataset_encode (dataset ts) (codec s);;
  (* [spec] is a local variable of [setup], read here before any
     assignment to it *)
  old ← load_fast "spec" (@None string);
  d ← get_dataset (dataset ts);
  r ← attr "max_label" (ds_codec d);
  c ← get_codec r;
  let spec_ := with_output_layer old (max_label c + 1) in
  _ ← attr "spec" (spec s);
  _ ← attr "spec" (nn s);
  logger INFO (Text "Appending to existing model");;
  nn_append (default 0%Z (append s)) spec_;;
  nn_add_codec r;;
  logger INFO (Text "Assembled model spec").

(** The [elif self.model:] block (lines 438-467). *)
Definition load_branch (s : RecognitionModel) : M unit :=
  given ← truthy_codec (codec s);
  codec ← (if given && String.eqb (resize s) "both" then ret (codec s)
           else n ← attr "codec" (nn s); ret (nn_codec n));
  r ← attr "strict" codec;
  c ← get_codec r;
  put_codec r (make_strict c);;
  ts ← attr "dataset" (train_set s);
  try_except (dataset_encode (dataset ts) (Some r)) (on_encode_error ts r).

(** The [else:] block (lines 468-475): a new model. *)
Definition fresh_branch (s : RecognitionModel) : M unit :=
  ts ← attr "dataset" (train_set s);
  dataset_encode (dataset ts) (codec s);;
  sp ← attr "spec" (spec s);
  d ← get_dataset (dataset ts);
  r ← attr "max_label" (ds_codec d);
  c ← get_codec r;
  logger INFO (CreatingModel sp (max_label c + 1));;
  let sp' := with_output_layer sp (max_label c + 1) in
  update_self (set_spec sp');;
  called (NNNew sp');;
  update_self (set_nn (new_network sp'));;
  nn_add_codec r.

(** The three entry branches of [setup] (lines 430-475). *)
Definition prepare : M unit :=
  s ← get_self;
  if truthy_int (append s) then append_branch s
  else if truthy_str (model s) then load_branch s
  else fresh_branch s.

Definition setup (stage : option string) : M unit :=
  if stage_in_None_fit stage then prepare;; finish else ret tt.

(** Constructing the module, then [setup(stage)] as the trainer calls it. *)
Definition run (a : InitArgs) (stage : option string) : M unit :=
  init_datasets a;; setup stage.

(** ** Store updates the statements refer to *)

(** The samples of the items that parse, in the order of the items. *)
Definition parsed (D : DatasetClass) (data : list item) : list (list string) :=
  omap (λ it, match dc_parse D it with
              | inr sample => Some sample
              | inl _ => None
              end) data.

Definition add_samples (d : Dataset) (samples : list (list string)) : Dataset :=
  mkDataset (gt d ++ samples) (ds_codec d) (training_set d) (im_mode d) (seg_type d).

Definition with_codecs (cs : list PytorchCodec) (w : World) : World :=
  mkWorld cs (datasets w) (self w) (calls w) (logged w).

Definition with_datasets (ds : list Dataset) (w : World) : World :=
  mkWorld (codecs w) ds (self w) (calls w) (logged w).

Definition with_calls (cs : list call) (w : World) : World :=
  mkWorld (codecs w) (datasets w) (self w) cs (logged w).

Definition with_logged (l : list (level * message)) (w : World) : World :=
  mkWorld (codecs w) (datasets w) (self w) (calls w) l.

(** The loading state of [setup]: a model was loaded, no append point is
    set, and the codec to reconcile against and the training dataset are
    in the store. *)
Record load_state (stage : option string) (w : World) (n : TorchVGSLModel)
    (r : nat) (c : PytorchCodec) (ts : Subset) (d : Dataset) : Prop := {
  ls_stage : stage_in_None_fit stage = true;
  ls_append : truthy_int (append (self w)) = false;
  ls_model : truthy_str (model (self w)) = true;
  ls_nn : nn (self w) = Some n;
  ls_given : from_option (λ g, is_Some (codecs w !! g)) True (codec (self w));
  ls_effective : effective_codec w = Some r;
  ls_codec : codecs w !! r = Some c;
  ls_train : train_set (self w) = Some ts;
  ls_dataset : datasets w !! dataset ts = Some d
}.

(** The store once the loading branch has made the codec strict and has
    called [encode] on the training set a first time. *)
Definition after_first_encode (w : World) (r : nat) (c : PytorchCodec) (ts : Subset) : World :=
  with_calls (calls w ++ [DatasetEncode (dataset ts) (Some r)])
    (with_codecs (<[r := make_strict c]> (codecs w)) w).

(** The store the [add] branch leaves when it stops at the unbound name. *)
Definition after_add (w : World) (r : nat) (c : PytorchCodec) (n : TorchVGSLModel)
    (new : gset string) : World :=
  let extended := add_labels c new in
  mkWorld (codecs w ++ [extended]) (datasets w)
    (set_nn (set_output (resize_rows (max_label extended + 1) [] (output n))
               (set_nn_codec (length (codecs w)) n)) (self w))
    (calls w ++ [CodecAddLabels r new; NNAddCodec (length (codecs w));
                 NNResizeOutput (max_label extended + 1) []])
    (logged w ++ [(INFO, ResizingCodec (size new));
                  (INFO, ResizingLastLayer (max_label extended + 1))]).

(** The store the [both] branch leaves. *)
Definition after_both (w : World) (r : nat) (c : PytorchCodec) (n : TorchVGSLModel)
    (ts : Subset) (d : Dataset) (targets : list (list nat)) : World :=
  let other := codec_of_alphabet (alphabet d) in
  let ncodec := (merge c other).1 in
  let del_labels := (merge c other).2 in
  let L := length (codecs w) in
  mkWorld (codecs w ++ [other; ncodec])
    (<[dataset ts := mkDataset (gt d) (Some (L + 1)) targets (im_mode d) (seg_type d)]>
       (datasets w))
    (set_nn (set_output (resize_rows (max_label ncodec + 1) del_labels (output n))
               (set_nn_codec (L + 1) n)) (self w))
    (calls w ++ [DatasetEncode (dataset ts) None; CodecMerge r L; NNAddCodec (L + 1);
                 DatasetEncode (dataset ts) (Some (L + 1));
                 NNResizeOutput (max_label ncodec + 1) del_labels])
    (logged w ++ [(INFO, Text "Resizing network or given codec to the training alphabet");
                  (INFO, DeletingClasses (Z.of_nat (length del_labels))
                           (Z.of_nat (codec_len c) - Z.of_nat (length del_labels)))]).

(** Whatever exception the computation ends with satisfies [P]. *)
Definition raises_only {A} (P : exn → Prop) (m : M A) : Prop :=
  ∀ w e, (m w).1 = inl e → P e.

(** Everything but the complaint about the resize policy. *)
Definition not_invalid_resize (e : exn) : Prop :=
  match e with
  | ValueError (InvalidResize _) => False
  | _ => True
  end.

(** The computation only adds to the record of calls. *)
Definition grows {A} (m : M A) : Prop :=
  ∀ w, calls w `prefix_of` calls (m w).2.

(** The store in which the loops of [_build_dataset] start. *)
Definition with_new_dataset (D : DatasetClass) (w : World) : World :=
  with_datasets (datasets w ++ [dc_empty D]) (with_calls (calls w ++ [DatasetNew]) w).

(** The test of [_build_dataset] for the pool. *)
Definition uses_pool (w : World) : bool :=
  several_workers (num_workers (self w))
  && negb (bool_decide (format_type (self w) = Some "binary")).

(** What [dataset.parse] yields on an item is a sample, or one of the two
    exceptions [_star_fun] takes. *)
Definition recoverable {A} (r : exn + A) : Prop :=
  match r with
  | inr _ => True
  | inl (FileNotFoundError _ _) => True
  | inl (KrakenInputException _) => True
  | inl _ => False
  end.

(** The same without the missing file: what the loop without a pool
    gets over. *)
Definition parses_or_malformed {A} (r : exn + A) : Prop :=
  match r with
  | inr _ => True
  | inl (KrakenInputException _) => True
  | inl _ => False
  end.

(** The warnings the loop without a pool logs for a list of items. *)
Definition malformed_warnings (D : DatasetClass) (data : list item) : list (level * message) :=
  omap (λ x, match dc_parse D x with
             | inl (KrakenInputException m) => Some (WARNING, m)
             | _ => None
             end) data.

(** ** Scenarios *)

Definition codec_ab : PytorchCodec := mkCodec {["a" := [0]; "b" := [1]]} false.

Definition codec_abx : PytorchCodec :=
  mkCodec {["a" := [0]; "b" := [1]; "x" := [2]]} false.

(** A dataset holding [lines], not encoded yet. *)
Definition dataset_of (lines : list (list string)) : Dataset :=
  mkDataset lines None [] "L" None.

(** A network as loaded from a file: one learned row per label of [c],
    whose object is the first of the store. *)
Definition loaded_network (c : PytorchCodec) : TorchVGSLModel :=
  mkNN (Some 0) (with_output_layer "[1,48,0,1 Cr3,3,32 Mp2,2]" (max_label c + 1))
       (Trained <$> seq 0 (max_label c + 1)) None None (Some "recognition") ∅ ∅.

(** The module after its construction from [model.mlmodel] and explicit
    training and validation data. *)
Definition loaded_model (c : PytorchCodec) (policy : string) (append : option Z)
    (train val : list (list string)) : World :=
  mkWorld [c] [dataset_of train; dataset_of val]
    (mkSelf append (Some "model.mlmodel") policy (Some "path") (Some 1%Z) ∅
            (Some (loaded_network c)) None None
            (Some (mkSubset 0 (seq 0 (length train))))
            (Some (mkSubset 1 (seq 0 (length val))))
            false false)
    [] [].

(** Scenario A of the specification, and the same under the policies of
    scenarios B and C. *)
Definition scenario_A : World :=
  loaded_model codec_ab "fail" None [["a"; "b"]; ["c"; "a"]] [["a"; "b"]].

Definition scenario_B : World :=
  loaded_model codec_ab "add" None [["a"; "b"]; ["c"; "a"]] [["a"; "b"]].

Definition scenario_C : World :=
  loaded_model codec_abx "both" None [["a"; "b"]; ["c"; "a"]] [["a"; "b"]].

(** Line images on disk: two that parse, one with an empty transcription,
    any other is missing. *)
Definition line_images : DatasetClass :=
  mkDatasetClass (dataset_of [])
    (λ it, if String.eqb it "ab.png" then inr ["a"; "b"]
           else if String.eqb it "ca.png" then inr ["c"; "a"]
           else if String.eqb it "empty.png"
                then inl (KrakenInputException (Text "Text line is empty"))
           else inl (FileNotFoundError "No such file or directory" it)).

(** The module when the constructor is about to build the datasets. *)
Definition under_construction (c : PytorchCodec) (policy : string)
    (format : option string) (workers : option Z) : World :=
  mkWorld [c] []
    (mkSelf None (Some "model.mlmodel") policy format workers ∅
            (Some (loaded_network c)) None None None None false false)
    [] [].

Definition line_image_args (train val : list item) : InitArgs :=
  mkInitArgs line_images train (Some val) None reverse (λ n, n * 9 `div` 10) [].

(** A training set the codec [a], [b] covers. *)
Definition compatible (policy : string) : World :=
  loaded_model codec_ab policy None [["a"; "b"]] [["a"; "b"]].

(** A validation set with a grapheme of its own. *)
Definition validation_only_grapheme : World :=
  loaded_model codec_ab "fail" None [["a"; "b"]] [["a"; "c"]].

(** An append point after the first layer. *)
Definition appending : World :=
  loaded_model codec_ab "fail" (Some 1%Z) [["a"; "b"]; ["c"; "a"]] [["a"; "b"]].

(** A codec given explicitly next to the one of the network. *)
Definition given_codec (policy : string) : World :=
  mkWorld [codec_ab; codec_abx] [dataset_of [["a"; "b"]]; dataset_of [["a"; "b"]]]
    (mkSelf None (Some "model.mlmodel") policy (Some "path") (Some 1%Z) ∅
            (Some (loaded_network codec_ab)) None (Some 1)
            (Some (mkSubset 0 [0])) (Some (mkSubset 1 [0])) false false)
    [] [].

(** ** Records of the loops of [_build_dataset] *)

(** The calls the loop over the results of the pool makes for a list of
    items, and the records it logs. *)
Definition pool_calls (D : DatasetClass) (ds : nat) (items : list item) : list call :=
  items ≫= λ x, match dc_parse D x with
                | inr sample => [DatasetParse x; DatasetAddParsed ds sample]
                | inl _ => [DatasetParse x]
                end.

Definition pool_records (D : DatasetClass) (items : list item) : list (level * message) :=
  items ≫= λ x, match dc_parse D x with
                | inr sample => [(DEBUG, AddingSample (Some sample))]
                | inl (FileNotFoundError strerror filename) =>
                    [(WARNING, Skipping strerror filename); (DEBUG, AddingSample None)]
                | inl (KrakenInputException m) =>
                    [(WARNING, m); (DEBUG, AddingSample None)]
                | inl _ => []
                end.

(** What the loop [_build_dataset] runs in a given store gets over. *)
Definition dropped_or_added (w : World) (D : DatasetClass) (x : item) : Prop :=
  if uses_pool w then recoverable (dc_parse D x) else parses_or_malformed (dc_parse D x).

(** ** What the constructor logs about the alphabets *)

(** The warnings the constructor logs for the alphabets of the training
    and the validation dataset (lines 322-329). *)
Definition mismatch_warnings (td vd : Dataset) : list (level * message) :=
  (if negb (Nat.eqb (size (alphabet td ∖ alphabet vd)) 0)
   then [(WARNING, OnlyInTraining (alphabet td ∖ alphabet vd))] else [])
  ++ (if negb (Nat.eqb (size (alphabet vd ∖ alphabet td)) 0)
      then [(WARNING, OnlyInValidation (alphabet vd ∖ alphabet td))] else []).

(** The messages of the records of level [WARNING], in the order they
    were logged. *)
Definition warnings (l : list (level * message)) : list message :=
  omap (λ r, match r.1 with WARNING => Some r.2 | _ => None end) l.

(** The same arguments without the codec dictionary. *)
Definition without_codec (a : InitArgs) : InitArgs :=
  mkInitArgs (arg_DatasetClass a) (arg_training_data a) (arg_evaluation_data a) None
    (env_completion a) (env_partition a) (env_permutation a).

(** ** The last steps of [setup] (lines 479-490) *)

(** The network as lines 486-490 leave it. *)
Definition finished_network (s : RecognitionModel) (n : TorchVGSLModel) (td : Dataset)
  : TorchVGSLModel :=
  let n := set_model_type "recognition" (set_hyper_params (hparams s) n) in
  match user_metadata n !! "seg_type" with
  | Some _ => n
  | None => set_user_metadata (<["seg_type" := seg_type td]> (user_metadata n)) n
  end.

(** The calls that build a codec or a network, or change one. *)
Definition builds_or_changes (k : call) : bool :=
  match k with
  | CodecAddLabels _ _ | CodecMerge _ _ | NNAppend _ _ | NNNew _ | NNAddCodec _
  | NNResizeOutput _ _ => true
  | _ => false
  end.

(** The test of line 479. *)
Definition other_channel_mode (n : TorchVGSLModel) (td : Dataset) : bool :=
  truthy_str (one_channel_mode n)
  && negb (bool_decide (Some (im_mode td) = one_channel_mode n)).

(** What line 483-484 logs. *)
Definition bbox_warning (s : RecognitionModel) (n : TorchVGSLModel) : list (level * message) :=
  if negb (bool_decide (format_type s = Some "path"))
     && bool_decide (nn_seg_type n = Some "bbox")
  then [(WARNING, Text "Neural network has been trained on bounding box image information but training set is polygonal.")]
  else [].

(** ** Exceptions of the builtins *)

(** What the operations on lists, dictionaries and [None] raise, next to
    the exceptions of [exn]. *)
Inductive builtin_exn :=
| TypeError (what : string)
| IndexError
| KeyError (key : string)
| Raised (e : exn).

(** ** KrakenTrainer.__init__ (lines 66-87) *)

(** The value of a keyword argument. *)
Inductive kwval :=
| KBool (b : bool)
| KInt (z : Z)
| KCallback (class : string)
| KList (l : list kwval)
| KOther (repr : string).

(** [KrakenProgressBar()] *)
Definition progress_bar_cb : kwval := KCallback "KrakenProgressBar".

(** The keyword arguments [super().__init__] is called with, or the
    exception raised before. [kwargs] holds the keyword arguments of the
    call that no named parameter has taken. *)
Definition KrakenTrainer_init (callbacks : option kwval) (enable_progress_bar : bool)
    (min_epochs max_epochs : kwval) (kwargs : gmap string kwval)
  : builtin_exn + gmap string kwval :=
  let kwargs := <["logger" := KBool false]> kwargs in
  let kwargs := <["enable_checkpointing" := KBool false]> kwargs in
  let kwargs := <["enable_progress_bar" := KBool enable_progress_bar]> kwargs in
  let kwargs := <["min_epochs" := min_epochs]> kwargs in
  let kwargs := <["max_epochs" := max_epochs]> kwargs in
  if enable_progress_bar then
    match kwargs !! "callbacks" with
    | Some (KList l) => inr (<["callbacks" := KList (l ++ [progress_bar_cb])]> kwargs)
    | Some _ => inl (TypeError "list expected at most 1 argument, got 2")
    | None => inr (<["callbacks" := progress_bar_cb]> kwargs)
    end
  else inr kwargs.

(** The names of the parameters of [__init__]: Python binds a keyword
    argument of one of these names to the parameter, so it is never a
    key of [kwargs]. *)
Definition KrakenTrainer_init_parameters : list string :=
  ["callbacks"; "enable_progress_bar"; "min_epochs"; "max_epochs"].

(** ** RecognitionModel.validation_epoch_end (lines 407-414) *)

(** [self.best_epoch] and [self.best_metric]; the constructor sets them
    to [0] and [0.0] (lines 226-227). A finite float is the rational it
    denotes. *)
Record Best := mkBest {
  best_epoch : nat;
  best_metric : Qc
}.

Definition initial_best : Best := mkBest 0 (Qc_of_Z 0).

(** Lines 411-413; [accuracy] is the value of the tensor expression of
    line 410 and [current_epoch] that of the trainer. *)
Definition validation_epoch_end (current_epoch : nat) (accuracy : Qc) (s : Best) : Best :=
  if decide (Qclt (best_metric s) accuracy)
  then mkBest current_epoch accuracy
  else s.

(** One call per validation epoch, in order. *)
Definition validation_epochs (epochs : list (nat * Qc)) (s : Best) : Best :=
  foldl (λ s ea, validation_epoch_end ea.1 ea.2 s) s epochs.

(** ** RecognitionModel.__init__: the hyper-parameters (lines 202-216) *)

(** [target.update(other)] *)
Definition dict_update {V} (target other : gmap string V) : gmap string V := other ∪ target.

(** [if d:] for an optional dictionary. *)
Definition truthy_mapping {V} (d : option (gmap string V)) : bool :=
  match d with
  | Some m => negb (Nat.eqb (size m) 0)
  | None => false
  end.

(** Lines 202 to 216. [hyper_params_] is bound to the dictionary
    [default_specs.RECOGNITION_HYPER_PARAMS] itself, not to a copy, so
    the two [update]s change that dictionary: the computation starts from
    its content and leaves its new content behind. The result is
    [self.nn] and the hyper-parameters [save_hyperparameters] stores in
    the module. [load_model] stands for [vgsl.TorchVGSLModel.load_model],
    [given] for the argument [hyper_params]. *)
Definition init_hyper_params (load_model : string → exn + TorchVGSLModel)
    (given : option (gmap string string)) (model : option string)
    (load_hyper_parameters : bool) (RECOGNITION_HYPER_PARAMS : gmap string string)
  : (exn + (option TorchVGSLModel * gmap string string)) * gmap string string :=
  let loaded :=
    if truthy_str model then
      match load_model (default "" model) with
      | inl e => inl e
      | inr nn_ =>
          let hp := if load_hyper_parameters then hyper_params nn_ else ∅ in
          inr (Some nn_, dict_update RECOGNITION_HYPER_PARAMS hp)
      end
    else inr (None, RECOGNITION_HYPER_PARAMS) in
  match loaded with
  | inl e => (inl e, RECOGNITION_HYPER_PARAMS)
  | inr (nn_, hyper_params_) =>
      let hyper_params_ :=
        if truthy_mapping given then dict_update hyper_params_ (default ∅ given)
        else hyper_params_ in
      (inr (nn_, hyper_params_), hyper_params_)
  end.

(** ** RecognitionModel.__init__: the format of the ground truth (lines 229-273) *)

Inductive dataset_class :=
| GroundTruthDataset
| PolygonGTDataset
| ArrowIPCRecognitionDataset.

(** An entry of [training_data]: a path, a dictionary describing a line,
    or the one-entry dictionary the constructor wraps a path in. *)
Inductive entry :=
| Path (p : string)
| Line (fields : gmap string string)
| Keyword (key : string) (value : entry).

(** [len(entry)]. For a path the length is counted in bytes, which is
    Python's count of code points on ASCII names. *)
Definition entry_len (e : entry) : nat :=
  match e with
  | Path p => String.length p
  | Line fields => size fields
  | Keyword _ _ => 1
  end.

(** The local variables the dispatch leaves for the rest of the
    constructor. *)
Record Dispatch := mkDispatch {
  d_DatasetClass : dataset_class;
  d_valid_norm : bool;
  d_force_binarization : bool;
  d_training_data : list entry;
  d_evaluation_data : option (list entry)
}.

Definition warn_if (b : bool) (text : string) : list (level * message) :=
  if b then [(WARNING, Text text)] else [].

(** [[{key: x} for x in data]] if [data] is truthy, [data] otherwise. *)
Definition wrap_evaluation (key : string) (data : option (list entry)) : option (list entry) :=
  if truthy_list data then Some (Keyword key <$> default [] data) else data.

(** Lines 229 to 273: the result or the exception, and the warnings
    logged on the way. [preparse_xml_data] is the function of
    [kraken.lib.xml]. *)
Definition dispatch_format
    (preparse_xml_data : list entry → string → bool → builtin_exn + list entry)
    (format_type : option string) (training_data evaluation_data : option (list entry))
    (repolygonize force_binarization : bool)
  : (builtin_exn + Dispatch) * list (level * message) :=
  let fmt := default "" format_type in
  if bool_decide (fmt ∈ ["xml"; "page"; "alto"]) then
    match training_data with
    | None => (inl (TypeError "object of type 'NoneType' has no len()"), [])
    | Some td =>
        match preparse_xml_data td fmt repolygonize with
        | inl e => (inl e, [])
        | inr td' =>
            if truthy_list evaluation_data then
              match preparse_xml_data (default [] evaluation_data) fmt repolygonize with
              | inl e => (inl e, [])
              | inr ed' =>
                  (inr (mkDispatch PolygonGTDataset false force_binarization td' (Some ed')), [])
              end
            else
              (inr (mkDispatch PolygonGTDataset false force_binarization td' evaluation_data),
               [])
        end
    end
  else if String.eqb fmt "binary" then
    let log := warn_if repolygonize "Repolygonization enabled in `binary` mode. Will be ignored." in
    match training_data with
    | None => (inl (TypeError "object of type 'NoneType' has no len()"), log)
    | Some td =>
        (inr (mkDispatch ArrowIPCRecognitionDataset false force_binarization
                (Keyword "file" <$> td) (wrap_evaluation "file" evaluation_data)),
         log)
    end
  else if String.eqb fmt "path" then
    let log :=
      warn_if force_binarization "Forced binarization enabled in `path` mode. Will be ignored."
      ++ warn_if repolygonize "Repolygonization enabled in `path` mode. Will be ignored." in
    match training_data with
    | None => (inl (TypeError "object of type 'NoneType' has no len()"), log)
    | Some td =>
        (inr (mkDispatch GroundTruthDataset true false
                (Keyword "image" <$> td) (wrap_evaluation "image" evaluation_data)),
         log)
    end
  else if negb (truthy_str format_type) then
    match training_data with
    | None => (inl (TypeError "'NoneType' object is not subscriptable"), [])
    | Some [] => (inl IndexError, [])
    | Some (first :: rest) =>
        if (4 <=? entry_len first)%nat then
          (inr (mkDispatch PolygonGTDataset false force_binarization (first :: rest)
                  evaluation_data), [])
        else
          (inr (mkDispatch GroundTruthDataset true false (first :: rest) evaluation_data),
           warn_if force_binarization "Forced binarization enabled with box lines. Will be ignored."
           ++ warn_if repolygonize "Repolygonization enabled with box lines. Will be ignored.")
    end
  else
    (inl (Raised (ValueError
                    (Text ("format_type " +:+ fmt +:+ " not in [alto, page, xml, path, binary].")))),
     []).

(** ** KrakenTrainer.on_validation_end (lines 89-102) *)

(** A logged metric as [float(v)] sees it: the number it converts to, or
    the exception the conversion raises. *)
Definition metric : Type := builtin_exn + Qc.

(** What the method reads or writes of the trainer, of the module it
    trains ([self.model]) and of its network ([self.model.nn]), once
    [setup] has run. [logged_metrics] holds the items of the dictionary
    in the order of iteration. [completed_epochs] and [accuracy] are the
    entries of these names in [hyper_params] and in [user_metadata].
    [save_model] is what the method of the network does with a path:
    [None] when the file is written, the exception it raises otherwise;
    [saved] lists the files written, [noted] the log. *)
Record Trainer := mkTrainer {
  sanity_checking : bool;
  current_epoch : nat;
  logged_metrics : list (string * metric);
  t_model_type : option string;
  t_one_channel_mode : option string;
  completed_epochs : option Z;
  accuracy : option (list (nat * list (string * Qc)));
  t_im_mode : string;
  train_len : nat;
  t_output : string;
  save_model : string → option builtin_exn;
  saved : list string;
  noted : list string
}.

(** ['{}_{}'.format(output, epoch)] *)
Definition checkpoint_name (output : string) (epoch : nat) : string :=
  output +:+ "_" +:+ pretty epoch.

(** [{k: float(v) for k, v in items}]: the first conversion that raises
    ends the comprehension. *)
Fixpoint floats (items : list (string * metric)) : builtin_exn + list (string * Qc) :=
  match items with
  | [] => inr []
  | (k, v) :: rest =>
      match v with
      | inl e => inl e
      | inr q =>
          match floats rest with
          | inl e => inl e
          | inr qs => inr ((k, q) :: qs)
          end
      end
  end.

Definition on_validation_end (t : Trainer) : (builtin_exn + unit) * Trainer :=
  if negb (sanity_checking t) then
    let t :=
      if Nat.eqb (current_epoch t) 0 && bool_decide (t_model_type t = Some "recognition")
      then
        let im_mode := t_im_mode t in
        if bool_decide (im_mode ∈ ["1"; "L"]) then
          mkTrainer (sanity_checking t) (current_epoch t) (logged_metrics t) (t_model_type t)
            (Some im_mode) (completed_epochs t) (accuracy t) (t_im_mode t) (train_len t)
            (t_output t) (save_model t) (saved t)
            (noted t ++ ["Setting model one_channel_mode to " +:+ im_mode +:+ "."])
        else t
      else t in
    match completed_epochs t with
    | None => (inl (KeyError "completed_epochs"), t)
    | Some done_ =>
        let t := mkTrainer (sanity_checking t) (current_epoch t) (logged_metrics t)
                   (t_model_type t) (t_one_channel_mode t) (Some (done_ + 1)%Z) (accuracy t)
                   (t_im_mode t) (train_len t) (t_output t) (save_model t) (saved t)
                   (noted t) in
        match accuracy t with
        | None => (inl (KeyError "accuracy"), t)
        | Some history =>
            match floats (logged_metrics t) with
            | inl e => (inl e, t)
            | inr metrics =>
                let path := checkpoint_name (t_output t) (current_epoch t) +:+ ".mlmodel" in
                let t := mkTrainer (sanity_checking t) (current_epoch t) (logged_metrics t)
                           (t_model_type t) (t_one_channel_mode t) (completed_epochs t)
                           (Some (history ++ [((current_epoch t + 1) * train_len t, metrics)]))
                           (t_im_mode t) (train_len t) (t_output t) (save_model t) (saved t)
                           (noted t ++ ["Saving to "
                                        +:+ checkpoint_name (t_output t) (current_epoch t)]) in
                match save_model t path with
                | Some e => (inl e, t)
                | None =>
                    (inr tt,
                     mkTrainer (sanity_checking t) (current_epoch t) (logged_metrics t)
                       (t_model_type t) (t_one_channel_mode t) (completed_epochs t)
                       (accuracy t) (t_im_mode t) (train_len t) (t_output t) (save_model t)
                       (saved t ++ [path]) (noted t))
                end
            end
        end
    end
  else (inr tt, t).

(** The trainer at the end of the validation of epoch [epoch], which has
    logged [metrics]. *)
Definition at_epoch (epoch : nat) (metrics : list (string * metric)) (t : Trainer) : Trainer :=
  mkTrainer (sanity_checking t) epoch metrics (t_model_type t) (t_one_channel_mode t)
    (completed_epochs t) (accuracy t) (t_im_mode t) (train_len t) (t_output t) (save_model t)
    (saved t) (noted t).

(** [on_validation_end] at the end of each of the given epochs, one after
    the other, up to the first exception. *)
Fixpoint validation_ends (epochs : list (nat * list (string * metric))) (t : Trainer)
  : (builtin_exn + unit) * Trainer :=
  match epochs with
  | [] => (inr tt, t)
  | (epoch, metrics) :: rest =>
      match on_validation_end (at_epoch epoch metrics t) with
      | (inr _, t') => validation_ends rest t'
      | (inl e, t') => (inl e, t')
      end
  end.

(** Whether the first block of the method (lines 92-96) assigns
    [one_channel_mode] in one of the given epochs. *)
Definition fills_one_channel_mode {A} (epochs : list (nat * A)) (t : Trainer) : bool :=
  existsb (λ em, Nat.eqb em.1 0) epochs
  && bool_decide (t_model_type t = Some "recognition")
  && bool_decide (t_im_mode t ∈ ["1"; "L"]).

(** The epochs whose metrics all convert and whose checkpoint
    [save_model] writes, with the dictionaries of floats they give. *)
Definition converts_and_saves (t : Trainer) (em : nat * list (string * metric))
    (qs : list (string * Qc)) : Prop :=
  floats em.2 = inr qs
  ∧ save_model t (checkpoint_name (t_output t) em.1 +:+ ".mlmodel") = None.

(** ** Further scenarios *)

(** The same ground truth without evaluation data; [random_split] draws
    [permutation]. *)
Definition line_image_split (train : list item) (permutation : list nat) : InitArgs :=
  mkInitArgs line_images train None None reverse (λ n, (n * 9) `div` 10) permutation.

(** The same with a codec dictionary. *)
Definition line_image_codec_args (train val : list item) (codec : gmap string (list nat))
  : InitArgs :=
  mkInitArgs line_images train (Some val) (Some codec) reverse (λ n, n * 9 `div` 10) [].

(** A loaded network that has been trained on bitonal images, next to
    ground truth in grey scale. *)
Definition bitonal_network : World :=
  mkWorld [codec_ab] [dataset_of [["a"; "b"]]; dataset_of [["a"; "b"]]]
    (mkSelf None (Some "model.mlmodel") "fail" (Some "path") (Some 1%Z) ∅
            (Some (mkNN (Some 0) "[1,48,0,1 Cr3,3,32 Mp2,2 O1c2]" [Trained 0; Trained 1]
                        (Some "1") None (Some "recognition") ∅ ∅))
            None None (Some (mkSubset 0 [0])) (Some (mkSubset 1 [0])) false false)
    [] [].

(** The module after its construction without a model file. *)
Definition new_model (train val : list (list string)) : World :=
  mkWorld [] [dataset_of train; dataset_of val]
    (mkSelf None None "fail" (Some "path") (Some 1%Z) ∅ None
            (Some "[1,48,0,1 Cr3,3,32 Mp2,2]") None
            (Some (mkSubset 0 (seq 0 (length train))))
            (Some (mkSubset 1 (seq 0 (length val))))
            false false)
    [] [].

(** A network that stores [lrate] and [batch_size], in the one model file
    there is. *)
Definition stored_network : TorchVGSLModel :=
  mkNN (Some 0) "[1,48,0,1 Cr3,3,32 O1c2]" [Trained 0; Trained 1] None None
       (Some "recognition") {["lrate" := "0.01"; "batch_size" := "4"]} ∅.

Definition model_files (path : string) : exn + TorchVGSLModel :=
  if String.eqb path "model.mlmodel" then inr stored_network
  else inl (FileNotFoundError "No such file or directory" path).

Definition library_defaults : gmap string string :=
  {["lrate" := "0.001"; "batch_size" := "1"; "quit" := "early"]}.

(** [preparse_xml_data] on files that all parse to one line each. *)
Definition one_line_each (files : list entry) (format_type : string) (repolygonize : bool)
  : builtin_exn + list entry :=
  inr ((λ _, Line {["image" := "page.png"; "text" := "ab"; "baseline" := "0,0 10,0";
                    "boundary" := "0,0 10,0 10,5 0,5"]}) <$> files).

(** A trainer about to start on a recognition model with 10 training
    lines in grey scale, two epochs done in an earlier run; every
    checkpoint can be written. *)
Definition resumed_trainer (history : option (list (nat * list (string * Qc)))) : Trainer :=
  mkTrainer false 0 [] (Some "recognition") None (Some 2%Z) history "L" 10 "model"
    (λ _, None) [] [].

(** The same trainer with an output name in a directory that does not
    exist, so that no checkpoint can be written. *)
Definition misplaced_trainer (history : option (list (nat * list (string * Qc)))) : Trainer :=
  mkTrainer false 0 [] (Some "recognition") None (Some 2%Z) history "L" 10 "gone/model"
    (λ path, Some (Raised (FileNotFoundError "No such file or directory" path))) [] [].

(** * Properties *)

Ltac store_simpl := cbn [codecs datasets self calls logged fst snd].

(** ** The collaborators on the scenarios *)

Example add_labels_scenario_B :
  add_labels codec_ab {["c"]} = mkCodec {["a" := [0]; "b" := [1]; "c" := [2]]} false.
Proof. vm_compute. reflexivity. Qed.

Example merge_scenario_C :
  merge codec_abx (codec_of_alphabet {["a"; "b"; "c"]}) =
  (mkCodec {["a" := [0]; "b" := [1]; "c" := [2]]} false, [2]).
Proof. vm_compute. reflexivity. Qed.

(** A deleted label in the middle: the labels above it move down. *)
Example merge_closes_hole :
  merge (mkCodec {["a" := [0]; "x" := [1]; "b" := [2]]} false)
        (codec_of_alphabet {["a"; "b"; "c"]}) =
  (mkCodec {["a" := [0]; "b" := [1]; "c" := [2]]} false, [1]).
Proof. vm_compute. reflexivity. Qed.

Example resize_rows_scenario_C :
  resize_rows 3 [2] [Trained 0; Trained 1; Trained 2] = [Trained 0; Trained 1; Fresh].
Proof. reflexivity. Qed.

Example resize_rows_moves_survivors :
  resize_rows 3 [1] [Trained 0; Trained 1; Trained 2] = [Trained 0; Trained 2; Fresh].
Proof. reflexivity. Qed.

Example encode_strict :
  codec_encode (make_strict codec_ab) ["a"; "c"; "b"] = inl (KrakenEncodeException "c").
Proof. vm_compute. reflexivity. Qed.

Example encode_lenient : codec_encode codec_ab ["a"; "c"; "b"] = inr [0; 1].
Proof. vm_compute. reflexivity. Qed.

Example new_network_width :
  output (new_network (with_output_layer "[1,48,0,1 Cr3,3,32 Mp2,2]" 12)) = replicate 12 Fresh.
Proof. vm_compute. reflexivity. Qed.

(** The module binds no [nn]. *)
Example nn_not_global : "nn" ∉ module_globals.
Proof. intros H. apply (bool_decide_pack _) in H. vm_compute in H. exact H. Qed.

(** ** Encoding *)

Lemma codec_encode_result c line :
  (∃ t, codec_encode c line = inr t) ∨
  (∃ g, codec_encode c line = inl (KrakenEncodeException g) ∧
        g ∈ line ∧ c2l c !! g = None ∧ strict c = true).
Proof.
  induction line as [|g rest IH]; simpl; [left; eauto|].
  destruct (c2l c !! g) as [ls|] eqn:Hg.
  - destruct IH as [[t ->]|(g' & -> & Hin & Hn & Hs)]; [left; eauto|].
    right. exists g'. split_and!; auto. by right.
  - destruct (strict c) eqn:Hs.
    + right. exists g. split_and!; auto. by left.
    + destruct IH as [[t ->]|(g' & -> & Hin & Hn & Hs')]; [left; eauto|].
      congruence.
Qed.

Lemma codec_encode_strict_fail c line g :
  strict c = true → g ∈ line → c2l c !! g = None →
  ∃ g', codec_encode c line = inl (KrakenEncodeException g') ∧ c2l c !! g' = None ∧ g' ∈ line.
Proof.
  intros Hs. induction line as [|h rest IH]; intros Hin Hn; [by apply elem_of_nil in Hin|].
  simpl. destruct (c2l c !! h) as [ls|] eqn:Hh.
  - apply elem_of_cons in Hin as [->|Hin]; [congruence|].
    destruct (IH Hin Hn) as (g' & -> & ? & ?). exists g'. split_and!; auto. by right.
  - rewrite Hs. exists h. split_and!; auto. by left.
Qed.

Lemma encode_lines_result c lines :
  (∃ ts, encode_lines c lines = inr ts) ∨
  (∃ g, encode_lines c lines = inl (KrakenEncodeException g) ∧
        g ∈ mjoin lines ∧ c2l c !! g = None ∧ strict c = true).
Proof.
  induction lines as [|line rest IH]; simpl; [left; eauto|].
  destruct (codec_encode_result c line) as [[t ->]|(g & -> & Hin & Hn & Hs)].
  - destruct IH as [[ts ->]|(g & -> & Hin & Hn & Hs)]; [left; eauto|].
    right. exists g. split_and!; auto. apply elem_of_app. by right.
  - right. exists g. split_and!; auto. apply elem_of_app. by left.
Qed.

Lemma encode_lines_covered c lines :
  list_to_set (mjoin lines) ⊆ dom (c2l c) → ∃ ts, encode_lines c lines = inr ts.
Proof.
  intros H. destruct (encode_lines_result c lines) as [?|(g & _ & Hin & Hn & _)]; [done|].
  assert (g ∈ dom (c2l c)) as Hd by (apply H; by apply elem_of_list_to_set).
  apply elem_of_dom in Hd as [? ?]. congruence.
Qed.

Lemma encode_lines_lenient c lines :
  strict c = false → ∃ ts, encode_lines c lines = inr ts.
Proof.
  intros H. destruct (encode_lines_result c lines) as [?|(g & _ & _ & _ & Hs)]; [done|].
  congruence.
Qed.

Lemma encode_lines_strict_fail c lines :
  strict c = true → list_to_set (mjoin lines) ⊈ dom (c2l c) →
  ∃ g, encode_lines c lines = inl (KrakenEncodeException g) ∧
       g ∈ (list_to_set (mjoin lines) : gset string) ∖ dom (c2l c).
Proof.
  intros Hs Hsub.
  induction lines as [|line rest IH]; simpl in *.
  - exfalso. apply Hsub. set_solver.
  - destruct (codec_encode_result c line) as [[t Ht]|(g & -> & Hin & Hn & _)].
    + rewrite Ht.
      destruct IH as (g & -> & Hg).
      * intros Hrest. apply Hsub. intros g Hg.
        rewrite list_to_set_app in Hg. apply elem_of_union in Hg as [Hl|Hr]; [|by apply Hrest].
        rename Hl into Hg. rewrite elem_of_list_to_set in Hg.
        destruct (c2l c !! g) eqn:Hl; [apply elem_of_dom; eauto|].
        destruct (codec_encode_strict_fail c line g Hs Hg Hl) as (? & ? & _). congruence.
      * exists g. split; [done|]. set_solver.
    + exists g. split; [done|].
      apply elem_of_difference. split; [apply elem_of_list_to_set, elem_of_app; by left|].
      by apply not_elem_of_dom.
Qed.

(** ** The loading branch *)

Lemma truthy_codec_run w o :
  from_option (λ g, is_Some (codecs w !! g)) True o →
  truthy_codec o w = (inr (codec_truth w o), w).
Proof.
  destruct o as [g|]; simpl; [|done].
  intros [cg Hg]. unfold bind, get_codec, ret. by rewrite Hg.
Qed.

Lemma prepare_load stage w n r c ts d :
  load_state stage w n r c ts d →
  prepare w =
  try_except (dataset_encode (dataset ts) (Some r)) (on_encode_error ts r)
    (with_codecs (<[r := make_strict c]> (codecs w)) w).
Proof.
  intros [Hst Ha Hm Hn Hg He Hc Ht Hd].
  unfold prepare, bind at 1, get_self. rewrite Ha, Hm.
  unfold load_branch, bind at 1. rewrite (truthy_codec_run _ _ Hg).
  unfold effective_codec in He.
  destruct (codec_truth w (codec (self w)) && String.eqb (resize (self w)) "both") eqn:Hb.
  - unfold bind at 1, ret at 1. rewrite He. unfold bind at 1, attr, ret at 1.
    unfold bind at 1, get_codec. rewrite Hc.
    unfold bind at 1, put_codec. unfold bind at 1. rewrite Ht. reflexivity.
  - rewrite Hn in He. simpl in He.
    unfold bind at 1. unfold bind at 1. rewrite Hn. unfold attr at 1, ret at 1, ret at 1.
    rewrite He. unfold bind at 1, attr, ret at 1.
    unfold bind at 1, get_codec. rewrite Hc.
    unfold bind at 1, put_codec. unfold bind at 1. rewrite Ht. reflexivity.
Qed.

Lemma dataset_encode_with w ds r d c :
  datasets w !! ds = Some d → codecs w !! r = Some c →
  dataset_encode ds (Some r) w =
  match encode_lines c (gt d) with
  | inl e => (inl e, with_calls (calls w ++ [DatasetEncode ds (Some r)]) w)
  | inr targets =>
      (inr tt,
       with_datasets
         (<[ds := mkDataset (gt d) (Some r) targets (im_mode d) (seg_type d)]> (datasets w))
         (with_calls (calls w ++ [DatasetEncode ds (Some r)]) w))
  end.
Proof.
  intros Hd Hc. unfold dataset_encode, bind, called, get_dataset, get_codec, ret.
  store_simpl. rewrite Hd. store_simpl. rewrite Hc.
  by destruct (encode_lines c (gt d)).
Qed.

Lemma dataset_encode_fresh w ds d :
  datasets w !! ds = Some d →
  ∃ targets,
    encode_lines (codec_of_alphabet (alphabet d)) (gt d) = inr targets ∧
    dataset_encode ds None w =
    (inr tt,
     with_datasets
       (<[ds := mkDataset (gt d) (Some (length (codecs w))) targets (im_mode d) (seg_type d)]>
          (datasets w))
       (with_codecs (codecs w ++ [codec_of_alphabet (alphabet d)])
          (with_calls (calls w ++ [DatasetEncode ds None]) w))).
Proof.
  intros Hd.
  destruct (encode_lines_lenient (codec_of_alphabet (alphabet d)) (gt d) eq_refl) as [targets Ht].
  exists targets. split; [done|].
  unfold dataset_encode, bind, called, get_dataset, get_codec, new_codec, ret.
  store_simpl. rewrite Hd. store_simpl.
  rewrite lookup_app_r by done. rewrite Nat.sub_diag.
  cbn [lookup list_lookup]. by rewrite Ht.
Qed.

Lemma prepare_load_mismatch stage w n r c ts d :
  load_state stage w n r c ts d →
  alphabet d ⊈ dom (c2l c) →
  prepare w = reconcile ts r (after_first_encode w r c ts).
Proof.
  intros Hl Hsub. rewrite (prepare_load _ _ _ _ _ _ _ Hl).
  destruct Hl as [Hst Ha Hm Hn Hg He Hc Ht Hd].
  unfold try_except.
  rewrite (dataset_encode_with _ _ _ d (make_strict c)); store_simpl; [|done|].
  - destruct (encode_lines_strict_fail (make_strict c) (gt d) eq_refl Hsub) as (g & -> & _).
    reflexivity.
  - apply list_lookup_insert_eq. by eapply lookup_lt_Some.
Qed.

Lemma prepare_load_compatible stage w n r c ts d :
  load_state stage w n r c ts d →
  alphabet d ⊆ dom (c2l c) →
  ∃ targets,
    encode_lines (make_strict c) (gt d) = inr targets ∧
    prepare w =
    (inr tt,
     with_datasets
       (<[dataset ts := mkDataset (gt d) (Some r) targets (im_mode d) (seg_type d)]>
          (datasets w))
       (after_first_encode w r c ts)).
Proof.
  intros Hl Hsub. rewrite (prepare_load _ _ _ _ _ _ _ Hl).
  destruct Hl as [Hst Ha Hm Hn Hg He Hc Ht Hd].
  destruct (encode_lines_covered (make_strict c) (gt d) Hsub) as [targets Henc].
  exists targets. split; [done|].
  unfold try_except.
  rewrite (dataset_encode_with _ _ _ d (make_strict c)); store_simpl; [|done|].
  - by rewrite Henc.
  - apply list_lookup_insert_eq. by eapply lookup_lt_Some.
Qed.

Lemma after_first_encode_codec w r c ts :
  codecs w !! r = Some c →
  codecs (after_first_encode w r c ts) !! r = Some (make_strict c).
Proof. intros Hc. apply list_lookup_insert_eq. by eapply lookup_lt_Some. Qed.

Lemma reconcile_fail w r c ts d :
  datasets w !! dataset ts = Some d →
  codecs w !! r = Some c →
  resize (self w) = "fail" →
  reconcile ts r w = (inl (KrakenInputException (AlphabetsMismatch (alphabet d ∖ dom (c2l c)))), w).
Proof.
  intros Hd Hc Hr. unfold reconcile, bind, get_self, get_dataset, get_codec.
  rewrite Hd, Hc, Hr. reflexivity.
Qed.

Lemma setup_prepare_raises stage w e w' :
  stage_in_None_fit stage = true →
  prepare w = (inl e, w') → setup stage w = (inl e, w').
Proof. intros Hs Hp. unfold setup, bind. by rewrite Hs, Hp. Qed.

Lemma setup_prepare_returns stage w w' :
  stage_in_None_fit stage = true →
  prepare w = (inr tt, w') → setup stage w = finish w'.
Proof. intros Hs Hp. unfold setup, bind. by rewrite Hs, Hp. Qed.

(** C3 (as amended). In the loading state (a model is loaded and there
    is no append point), under policy [fail], a training alphabet that is
    not contained in the keys of the effective codec makes [setup] raise
    [KrakenInputException] naming the difference (training alphabet minus
    codec keys). The module with its network is as before, and the
    effective codec has kept its cluster-to-label mapping; but the codec
    is not as before: [setup] has switched its [strict] flag on. *)
Theorem setup_fail_mismatch stage w n r c ts d :
  load_state stage w n r c ts d →
  resize (self w) = "fail" →
  alphabet d ⊈ dom (c2l c) →
  let res := setup stage w in
  res.1 = inl (KrakenInputException (AlphabetsMismatch (alphabet d ∖ dom (c2l c))))
  ∧ self res.2 = self w
  ∧ codecs res.2 = <[r := make_strict c]> (codecs w)
  ∧ c2l (make_strict c) = c2l c
  ∧ max_label (make_strict c) = max_label c.
Proof.
  intros Hl Hr Hsub res.
  assert (setup stage w =
          (inl (KrakenInputException (AlphabetsMismatch (alphabet d ∖ dom (c2l c)))),
           after_first_encode w r c ts)) as Hrun.
  { apply setup_prepare_raises; [by destruct Hl|].
    rewrite (prepare_load_mismatch _ _ _ _ _ _ _ Hl Hsub).
    destruct Hl as [Hst Ha Hm Hn Hg He Hc Ht Hd].
    rewrite (reconcile_fail _ r (make_strict c) ts d); [done|done| |done].
    by apply after_first_encode_codec. }
  unfold res. by rewrite Hrun.
Qed.

Lemma lookup_snoc {A} (l : list A) (x : A) : (l ++ [x]) !! length l = Some x.
Proof. rewrite lookup_app_r by done. by rewrite Nat.sub_diag. Qed.

Lemma lookup_snoc2 {A} (l : list A) (x y : A) : (l ++ [x; y]) !! (length l + 1) = Some y.
Proof.
  rewrite lookup_app_r by lia. by replace (length l + 1 - length l) with 1 by lia.
Qed.

Lemma reconcile_add w r c ts d n :
  datasets w !! dataset ts = Some d →
  codecs w !! r = Some c →
  nn (self w) = Some n →
  resize (self w) = "add" →
  reconcile ts r w = (inl (NameError "nn"), after_add w r c n (alphabet d ∖ dom (c2l c))).
Proof.
  intros Hd Hc Hn Hr.
  unfold reconcile, bind, get_self, get_dataset, get_codec.
  rewrite Hd, Hc, Hr. cbn [String.eqb Ascii.eqb Bool.eqb].
  unfold resize_add, codec_add_labels, nn_add_codec, nn_resize_output, logger, called, new_codec,
    update_self, get_codec, get_self, bind, attr, ret.
  store_simpl. rewrite Hc. store_simpl. rewrite Hn. store_simpl.
  rewrite lookup_snoc. store_simpl. cbn [nn set_nn output set_nn_codec].
  unfold load_global, raise. store_simpl.
  unfold after_add. rewrite <- !app_assoc. reflexivity.
Qed.

(** ** The codec operations *)

Lemma sorted_elements (A : gset string) : list_to_set (sorted A) = A.
Proof.
  unfold sorted. apply set_eq. intros g.
  rewrite elem_of_list_to_set, merge_sort_Permutation. apply elem_of_elements.
Qed.

Lemma enumerate_from_keys k l : (enumerate_from k l).*1 = l.
Proof.
  unfold enumerate_from. revert k. induction l as [|g l IH]; intros k; [done|].
  simpl. f_equal. rewrite <- (IH (S k)) at 2. f_equal.
  apply imap_ext. intros i x _. simpl. do 2 f_equal. lia.
Qed.

Lemma dom_enumerate_from k l :
  dom (list_to_map (enumerate_from k l) : gmap string (list nat)) = list_to_set l.
Proof. by rewrite dom_list_to_map_L, enumerate_from_keys. Qed.

Lemma dom_codec_of_alphabet A : dom (c2l (codec_of_alphabet A)) = A.
Proof. simpl. by rewrite dom_enumerate_from, sorted_elements. Qed.

Lemma dom_add_labels c new : dom (c2l (add_labels c new)) = new ∪ dom (c2l c).
Proof. simpl. by rewrite dom_union_L, dom_enumerate_from, sorted_elements. Qed.

Lemma add_labels_keeps c new g :
  g ∉ new → c2l (add_labels c new) !! g = c2l c !! g.
Proof.
  intros Hg. simpl. apply lookup_union_r. apply not_elem_of_dom.
  by rewrite dom_enumerate_from, sorted_elements.
Qed.

Lemma dom_merge c o : dom (c2l (merge c o).1) = dom (c2l o).
Proof.
  simpl. rewrite dom_union_L, dom_fmap_L, dom_enumerate_from, sorted_elements.
  rewrite (dom_filter_L _ _ (dom (c2l c) ∩ dom (c2l o))).
  - apply set_eq. intros g. rewrite elem_of_union, elem_of_intersection, elem_of_difference.
    destruct (decide (g ∈ dom (c2l c))); naive_solver.
  - intros g. rewrite elem_of_intersection, elem_of_dom. simpl.
    split; [intros [[x Hx] ?]|intros (x & Hx & ?)]; eauto.
Qed.

Lemma elem_of_labels m l :
  l ∈ labels m ↔ ∃ g ls, m !! g = Some ls ∧ l ∈ ls.
Proof.
  unfold labels. rewrite list_elem_of_join. split.
  - intros (ls & Hl & Hls). apply list_elem_of_fmap in Hls as ([g ls'] & -> & Hin).
    apply elem_of_map_to_list in Hin. eauto.
  - intros (g & ls & Hg & Hl). exists ls. split; [done|].
    apply list_elem_of_fmap. exists (g, ls). split; [done|]. by apply elem_of_map_to_list.
Qed.

Lemma elem_of_merge_deleted c o l :
  l ∈ (merge c o).2 ↔ ∃ g ls, c2l c !! g = Some ls ∧ (g ∉ dom (c2l o)) ∧ l ∈ ls.
Proof.
  simpl. rewrite merge_sort_Permutation, elem_of_remove_dups, elem_of_labels.
  split.
  - intros (g & ls & Hg & Hl). apply map_lookup_filter_Some in Hg as [Hg Hn]. eauto.
  - intros (g & ls & Hg & Hn & Hl). exists g, ls. split; [|done].
    by apply map_lookup_filter_Some.
Qed.

Lemma reconcile_both w r c ts d n :
  datasets w !! dataset ts = Some d →
  codecs w !! r = Some c →
  nn (self w) = Some n →
  resize (self w) = "both" →
  ∃ targets,
    encode_lines (merge c (codec_of_alphabet (alphabet d))).1 (gt d) = inr targets ∧
    reconcile ts r w = (inr tt, after_both w r c n ts d targets).
Proof.
  intros Hd Hc Hn Hr.
  set (other := codec_of_alphabet (alphabet d)).
  destruct (encode_lines_covered (merge c other).1 (gt d)) as [targets Ht].
  { rewrite dom_merge. unfold other. by rewrite dom_codec_of_alphabet. }
  exists targets. split; [done|].
  unfold reconcile, bind at 1, get_self. unfold bind at 1, get_dataset at 1. rewrite Hd.
  unfold bind at 1, get_codec at 1. rewrite Hc, Hr. cbn [String.eqb Ascii.eqb Bool.eqb].
  unfold resize_both, bind at 1, logger at 1. unfold bind at 1.
  destruct (dataset_encode_fresh
              (mkWorld (codecs w) (datasets w) (self w) (calls w)
                 (logged w ++ [(INFO, Text "Resizing network or given codec to the training alphabet")]))
              (dataset ts) d Hd) as (t0 & _ & ->).
  store_simpl. unfold with_datasets, with_codecs, with_calls. store_simpl.
  assert (dataset ts < length (datasets w)) as Hlt by (by eapply lookup_lt_Some).
  unfold bind at 1, get_dataset at 1. store_simpl.
  rewrite list_lookup_insert_eq by done.
  unfold bind at 1, attr at 1, ret at 1. cbn [ds_codec].
  unfold bind at 1, codec_merge, bind at 1, get_codec at 1. store_simpl.
  rewrite (lookup_app_l_Some _ _ _ _ Hc).
  unfold bind at 1, get_codec at 1. store_simpl. rewrite lookup_snoc.
  unfold bind at 1, called at 1. unfold bind at 1, new_codec at 1. store_simpl.
  unfold ret at 1. fold other.
  unfold bind at 1, nn_add_codec, bind at 1, get_self at 1. store_simpl. rewrite Hn.
  unfold bind at 1, attr at 1, ret at 1. unfold bind at 1, called at 1.
  unfold update_self at 1. store_simpl.
  unfold bind at 1, get_codec at 1. store_simpl.
  rewrite (lookup_app_l_Some _ _ _ _ (lookup_app_l_Some _ [other] _ _ Hc)).
  unfold bind at 1, logger at 1. unfold bind at 1.
  rewrite length_app. cbn [length]. rewrite <- app_assoc. cbn [app].
  erewrite dataset_encode_with; store_simpl;
    [|by apply list_lookup_insert_eq|by apply lookup_snoc2].
  cbn [gt]. rewrite Ht.
  unfold with_datasets, with_calls. store_simpl.
  unfold bind at 1, get_codec at 1. store_simpl. rewrite lookup_snoc2.
  unfold nn_resize_output, bind, get_self, attr, ret, called, update_self. store_simpl.
  cbn [nn set_nn output set_nn_codec].
  unfold after_both. fold other.
  rewrite list_insert_insert_eq. rewrite <- !app_assoc. cbn [app im_mode seg_type].
  store_simpl. rewrite <- !app_assoc. reflexivity.
Qed.

Lemma reconcile_invalid w r c ts d :
  datasets w !! dataset ts = Some d →
  codecs w !! r = Some c →
  resize (self w) ≠ "fail" → resize (self w) ≠ "add" → resize (self w) ≠ "both" →
  reconcile ts r w = (inl (ValueError (InvalidResize (resize (self w)))), w).
Proof.
  intros Hd Hc H1 H2 H3. unfold reconcile, bind, get_self, get_dataset, get_codec.
  rewrite Hd, Hc.
  apply String.eqb_neq in H1, H2, H3. by rewrite H1, H2, H3.
Qed.

(** C1. In the loading state, under policy [add], with training clusters
    the effective codec lacks, [setup] extends the codec through
    [add_labels] with exactly the missing set and resizes the output layer
    to [max_label + 1] rows, and then stops with [NameError]: the
    argument of the last [encode] is read through the unbound name [nn].
    The training set is not encoded against the resized codec, the
    datasets are as they were. *)
Theorem setup_add_mismatch stage w n r c ts d :
  load_state stage w n r c ts d →
  resize (self w) = "add" →
  alphabet d ⊈ dom (c2l c) →
  let new := alphabet d ∖ dom (c2l c) in
  let w' := after_add (after_first_encode w r c ts) r (make_strict c) n new in
  setup stage w = (inl (NameError "nn"), w')
  ∧ codecs w' = <[r := make_strict c]> (codecs w) ++ [add_labels (make_strict c) new]
  ∧ (nn (self w') ≫= nn_codec) = Some (length (codecs w))
  ∧ output <$> nn (self w') =
      Some (resize_rows (max_label (add_labels (make_strict c) new) + 1) [] (output n))
  ∧ datasets w' = datasets w
  ∧ calls w' = calls w ++ [DatasetEncode (dataset ts) (Some r); CodecAddLabels r new;
                           NNAddCodec (length (codecs w));
                           NNResizeOutput (max_label (add_labels (make_strict c) new) + 1) []]
  ∧ dom (c2l (add_labels (make_strict c) new)) = new ∪ dom (c2l c)
  ∧ (∀ g, g ∈ dom (c2l c) → c2l (add_labels (make_strict c) new) !! g = c2l c !! g).
Proof.
  intros Hl Hr Hsub new w'.
  assert (dom (c2l (add_labels (make_strict c) new)) = new ∪ dom (c2l c)
          ∧ (∀ g, g ∈ dom (c2l c) → c2l (add_labels (make_strict c) new) !! g = c2l c !! g))
    as Hcodec.
  { split; [exact (dom_add_labels (make_strict c) new)|].
    intros g Hg. apply (add_labels_keeps (make_strict c)). unfold new. set_solver. }
  cut (setup stage w = (inl (NameError "nn"), w')
       ∧ codecs w' = <[r := make_strict c]> (codecs w) ++ [add_labels (make_strict c) new]
       ∧ (nn (self w') ≫= nn_codec) = Some (length (codecs w))
       ∧ output <$> nn (self w') =
           Some (resize_rows (max_label (add_labels (make_strict c) new) + 1) [] (output n))
       ∧ datasets w' = datasets w
       ∧ calls w' = calls w ++ [DatasetEncode (dataset ts) (Some r); CodecAddLabels r new;
                                NNAddCodec (length (codecs w));
                                NNResizeOutput (max_label (add_labels (make_strict c) new) + 1) []]).
  { intros (H1 & H2 & H3 & H4 & H5 & H6). destruct Hcodec as [H7 H8]. by split_and!. }
  split.
  - apply setup_prepare_raises; [by destruct Hl|].
    rewrite (prepare_load_mismatch _ _ _ _ _ _ _ Hl Hsub).
    destruct Hl as [Hst Ha Hm Hn Hg He Hc Ht Hd].
    rewrite (reconcile_add _ r (make_strict c) ts d n); [done|done| |done|done].
    by apply after_first_encode_codec.
  - unfold w', after_add, after_first_encode. store_simpl.
    unfold with_codecs, with_calls. store_simpl.
    rewrite length_insert, <- app_assoc. done.
Qed.

(** C2. In the loading state, under policy [both], with training clusters
    the effective codec lacks, [setup] builds a codec from the training
    corpus, merges the effective codec with it, attaches the merged codec
    to the network, encodes the training set against the merged codec, and
    resizes the output layer to [max_label + 1] rows of the merged codec
    while deleting the rows at the labels [merge] returned, which are the
    labels of the clusters absent from the training corpus. It then goes
    on to the validation set. *)
Theorem setup_both_mismatch stage w n r c ts d :
  load_state stage w n r c ts d →
  resize (self w) = "both" →
  alphabet d ⊈ dom (c2l c) →
  let other := codec_of_alphabet (alphabet d) in
  let merged := (merge (make_strict c) other).1 in
  let deleted := (merge (make_strict c) other).2 in
  let L := length (codecs w) in
  ∃ targets w',
    setup stage w = finish w'
    ∧ codecs w' = <[r := make_strict c]> (codecs w) ++ [other; merged]
    ∧ (nn (self w') ≫= nn_codec) = Some (L + 1)
    ∧ encode_lines merged (gt d) = inr targets
    ∧ datasets w' =
        <[dataset ts := mkDataset (gt d) (Some (L + 1)) targets (im_mode d) (seg_type d)]>
          (datasets w)
    ∧ output <$> nn (self w') = Some (resize_rows (max_label merged + 1) deleted (output n))
    ∧ calls w' = calls w ++ [DatasetEncode (dataset ts) (Some r);
                             DatasetEncode (dataset ts) None; CodecMerge r L;
                             NNAddCodec (L + 1);
                             DatasetEncode (dataset ts) (Some (L + 1));
                             NNResizeOutput (max_label merged + 1) deleted]
    ∧ (∀ l, l ∈ deleted ↔
            ∃ g ls, c2l c !! g = Some ls ∧ (g ∉ alphabet d) ∧ l ∈ ls).
Proof.
  intros Hl Hr Hsub other merged deleted L.
  pose proof Hl as [Hst Ha Hm Hn Hg He Hc Ht Hd].
  destruct (reconcile_both (after_first_encode w r c ts) r (make_strict c) ts d n)
    as (targets & Henc & Hrec); [done| |done|done|].
  { by apply after_first_encode_codec. }
  exists targets, (after_both (after_first_encode w r c ts) r (make_strict c) n ts d targets).
  split_and!.
  - apply setup_prepare_returns; [done|].
    by rewrite (prepare_load_mismatch _ _ _ _ _ _ _ Hl Hsub).
  - done.
  - unfold after_both, after_first_encode, with_codecs, with_calls. store_simpl.
    by rewrite length_insert.
  - done.
  - unfold after_both, after_first_encode, with_codecs, with_calls. store_simpl.
    by rewrite length_insert.
  - unfold after_both, after_first_encode, with_codecs, with_calls. store_simpl. done.
  - unfold after_both, after_first_encode, with_codecs, with_calls. store_simpl.
    by rewrite length_insert, <- app_assoc.
  - intros l. unfold deleted, other. rewrite elem_of_merge_deleted.
    by rewrite dom_codec_of_alphabet.
Qed.

(** C8 (as amended). In the loading state, under policy [add] or [both],
    a training alphabet that the effective codec already covers needs no
    reconciliation: no labels are added or deleted, no codec is attached,
    the output layer is not resized and the attributes of the module are
    untouched; the cluster-to-label mapping of the codec is unchanged.
    What [setup] does before it goes on to the validation set is to
    switch on the [strict] flag of the effective codec and to encode the
    training set against it. *)
Theorem setup_compatible_no_resize stage w n r c ts d :
  load_state stage w n r c ts d →
  resize (self w) = "add" ∨ resize (self w) = "both" →
  alphabet d ⊆ dom (c2l c) →
  ∃ targets w',
    setup stage w = finish w'
    ∧ self w' = self w
    ∧ codecs w' = <[r := make_strict c]> (codecs w)
    ∧ c2l (make_strict c) = c2l c
    ∧ encode_lines (make_strict c) (gt d) = inr targets
    ∧ datasets w' =
        <[dataset ts := mkDataset (gt d) (Some r) targets (im_mode d) (seg_type d)]>
          (datasets w)
    ∧ calls w' = calls w ++ [DatasetEncode (dataset ts) (Some r)]
    ∧ logged w' = logged w.
Proof.
  intros Hl _ Hsub.
  destruct (prepare_load_compatible _ _ _ _ _ _ _ Hl Hsub) as (targets & Henc & Hp).
  exists targets.
  exists (with_datasets
            (<[dataset ts := mkDataset (gt d) (Some r) targets (im_mode d) (seg_type d)]>
               (datasets w))
            (after_first_encode w r c ts)).
  split; [|split_and!; done].
  apply setup_prepare_returns; [by destruct Hl|]. exact Hp.
Qed.

(** C5. In the loading state the codec that is made strict, that the
    training set is encoded against and that the [except] block
    reconciles is [effective_codec]: the network's own codec whenever the
    policy is not [both] or no codec was given, a codec other than the
    network's own only if the policy is [both] and that codec is the one
    given explicitly, and under [both] the given codec whenever there is
    one. *)
Theorem setup_effective_codec stage w n r c ts d :
  load_state stage w n r c ts d →
  setup stage w =
    (try_except (dataset_encode (dataset ts) (Some r)) (on_encode_error ts r);; finish)
      (with_codecs (<[r := make_strict c]> (codecs w)) w)
  ∧ (resize (self w) ≠ "both" ∨ codec (self w) = None → nn_codec n = Some r)
  ∧ (nn_codec n ≠ Some r → resize (self w) = "both" ∧ codec (self w) = Some r)
  ∧ (resize (self w) = "both" → codec_truth w (codec (self w)) = true →
     codec (self w) = Some r).
Proof.
  intros Hl. pose proof Hl as [Hst Ha Hm Hn Hg He Hc Ht Hd].
  split_and!.
  - unfold setup. rewrite Hst. unfold bind at 1.
    rewrite (prepare_load _ _ _ _ _ _ _ Hl). reflexivity.
  - unfold effective_codec in He. rewrite Hn in He. simpl in He.
    intros [Hr|Hcodec].
    + apply String.eqb_neq in Hr. rewrite Hr, andb_false_r in He. done.
    + rewrite Hcodec in He. simpl in He. done.
  - unfold effective_codec in He. rewrite Hn in He. simpl in He.
    destruct (codec_truth w (codec (self w)) && String.eqb (resize (self w)) "both") eqn:Hb;
      [|done].
    apply andb_true_iff in Hb as [_ Hb]. apply String.eqb_eq in Hb. done.
  - intros Hr Hgiven. unfold effective_codec in He. by rewrite Hgiven, Hr in He.
Qed.

(** ** The append branch *)

Lemma dataset_encode_frame ds o w :
  self (dataset_encode ds o w).2 = self w
  ∧ calls (dataset_encode ds o w).2 = calls w ++ [DatasetEncode ds o]
  ∧ logged (dataset_encode ds o w).2 = logged w.
Proof.
  unfold dataset_encode, bind, called, get_dataset. store_simpl.
  destruct (datasets w !! ds) as [d|]; [|done].
  destruct o as [r|]; unfold ret, new_codec, get_codec; store_simpl.
  - destruct (codecs w !! r) as [c|]; [|done].
    by destruct (encode_lines c (gt d)).
  - rewrite lookup_snoc. by destruct (encode_lines _ (gt d)).
Qed.

(** C6. With an append point set, [setup] never splices anything: after
    the first encoding of the training set it reads the local variable
    [spec] before that variable has a value. Whatever the store, [setup]
    ends with an exception, the network and the other attributes are
    those it started with, and [encode] on the training set is the only
    call made; when that encoding succeeds the exception is
    [UnboundLocalError] for [spec]. *)
Theorem setup_append_unbound_local stage w ts :
  stage_in_None_fit stage = true →
  truthy_int (append (self w)) = true →
  train_set (self w) = Some ts →
  (∃ e, (setup stage w).1 = inl e)
  ∧ self (setup stage w).2 = self w
  ∧ calls (setup stage w).2 = calls w ++ [DatasetEncode (dataset ts) (codec (self w))]
  ∧ ((dataset_encode (dataset ts) (codec (self w)) w).1 = inr tt →
     (setup stage w).1 = inl (UnboundLocalError "spec")).
Proof.
  intros Hst Ha Ht.
  destruct (dataset_encode_frame (dataset ts) (codec (self w)) w) as (Hs & Hc & _).
  assert (setup stage w =
          match dataset_encode (dataset ts) (codec (self w)) w with
          | (inl e, w') => (inl e, w')
          | (inr _, w') => (inl (UnboundLocalError "spec"), w')
          end) as ->.
  { unfold setup. rewrite Hst. unfold bind at 1, prepare, bind at 1, get_self.
    rewrite Ha. unfold append_branch. rewrite Ht.
    unfold bind at 1, attr, ret at 1. unfold bind at 1.
    destruct (dataset_encode (dataset ts) (codec (self w)) w) as [[e|[]] w']; reflexivity. }
  destruct (dataset_encode (dataset ts) (codec (self w)) w) as [[e|[]] w']; simpl in *;
    split_and!; eauto; done.
Qed.

(** ** The validation set *)

(** C4. The validation set is not encoded leniently in the loading
    state. When the model's own codec is the effective codec and covers
    the training alphabet, the codec [finish] hands to the validation set
    is the very object the loading branch has made strict, so a grapheme
    that only the validation set contains makes [setup] raise
    [KrakenEncodeException] for a cluster outside the codec. *)
Theorem setup_validation_strict stage w n r c ts d vs vd :
  load_state stage w n r c ts d →
  nn_codec n = Some r →
  alphabet d ⊆ dom (c2l c) →
  val_set (self w) = Some vs →
  datasets w !! dataset vs = Some vd →
  alphabet vd ⊈ dom (c2l c) →
  ∃ g, (setup stage w).1 = inl (KrakenEncodeException g)
       ∧ g ∈ alphabet vd ∖ dom (c2l c).
Proof.
  intros Hl Hnc Hsub Hvs Hvd Hval.
  destruct (prepare_load_compatible _ _ _ _ _ _ _ Hl Hsub) as (targets & Henc & Hp).
  destruct Hl as [Hst Ha Hm Hn Hg He Hc Ht Hd].
  rewrite (setup_prepare_returns _ _ _ Hst Hp).
  assert (dataset vs ≠ dataset ts) as Hne.
  { intros Heq. rewrite Heq, Hd in Hvd. by simplify_eq. }
  destruct (encode_lines_strict_fail (make_strict c) (gt vd) eq_refl Hval) as (g & Hg' & Hin).
  exists g. split; [|done].
  unfold finish, bind at 1, get_self.
  replace (self (with_datasets
                   (<[dataset ts := mkDataset (gt d) (Some r) targets (im_mode d) (seg_type d)]>
                      (datasets w))
                   (after_first_encode w r c ts))) with (self w) by done.
  rewrite Hvs.
  unfold bind at 1, attr at 1, ret at 1. unfold bind at 1. rewrite Hn.
  unfold attr at 1, ret at 1. unfold bind at 1. rewrite Hnc.
  rewrite (dataset_encode_with _ _ _ vd (make_strict c)).
  - by rewrite Hg'.
  - unfold with_datasets. store_simpl. by rewrite list_lookup_insert_ne.
  - by apply after_first_encode_codec.
Qed.

(** ** Which exceptions a computation can end with *)

Section raises_only.
Context (P : exn → Prop).

Lemma raises_only_ret {A} (a : A) : raises_only P (ret a).
Proof. by intros w e. Qed.

Lemma raises_only_raise {A} e : P e → raises_only P (@raise A e).
Proof. intros He w e' [= <-]. done. Qed.

Lemma raises_only_bind {A B} (m : M A) (k : A → M B) :
  raises_only P m → (∀ a, raises_only P (k a)) → raises_only P (bind m k).
Proof.
  intros Hm Hk w e. unfold bind. specialize (Hm w).
  destruct (m w) as [[e'|a] w']; simpl in *; [intros [= <-]; auto|apply Hk].
Qed.

Lemma raises_only_attr {A} name (o : option A) :
  (∀ n, P (AttributeError n)) → raises_only P (attr name o).
Proof. intros H. destruct o; [apply raises_only_ret|by apply raises_only_raise]. Qed.

Lemma raises_only_load_fast {A} name (o : option A) :
  (∀ n, P (UnboundLocalError n)) → raises_only P (load_fast name o).
Proof. intros H. destruct o; [apply raises_only_ret|by apply raises_only_raise]. Qed.

Lemma raises_only_load_global {A} name (o : option A) :
  (∀ n, P (NameError n)) → raises_only P (load_global name o).
Proof.
  intros H. destruct o; [apply raises_only_ret|by apply raises_only_raise].
Qed.

Lemma raises_only_get_self : raises_only P get_self.
Proof. by intros w e. Qed.

Lemma raises_only_update_self f : raises_only P (update_self f).
Proof. by intros w e. Qed.

Lemma raises_only_called c : raises_only P (called c).
Proof. by intros w e. Qed.

Lemma raises_only_logger l m : raises_only P (logger l m).
Proof. by intros w e. Qed.

Lemma raises_only_get_codec r : P StaleReference → raises_only P (get_codec r).
Proof. intros H w e. unfold get_codec. destruct (codecs w !! r); [done|by intros [= <-]]. Qed.

Lemma raises_only_put_codec r c : raises_only P (put_codec r c).
Proof. by intros w e. Qed.

Lemma raises_only_new_codec c : raises_only P (new_codec c).
Proof. by intros w e. Qed.

Lemma raises_only_get_dataset r : P StaleReference → raises_only P (get_dataset r).
Proof. intros H w e. unfold get_dataset. destruct (datasets w !! r); [done|by intros [= <-]]. Qed.

Lemma raises_only_put_dataset r d : raises_only P (put_dataset r d).
Proof. by intros w e. Qed.

Lemma raises_only_new_dataset d : raises_only P (new_dataset d).
Proof. by intros w e. Qed.
End raises_only.

Ltac raises_only_tac :=
  repeat first
    [ apply raises_only_ret
    | apply raises_only_get_self
    | apply raises_only_update_self
    | apply raises_only_called
    | apply raises_only_logger
    | apply raises_only_put_codec
    | apply raises_only_new_codec
    | apply raises_only_put_dataset
    | apply raises_only_new_dataset
    | apply raises_only_get_codec; exact I
    | apply raises_only_get_dataset; exact I
    | apply raises_only_attr; intros ?; exact I
    | apply raises_only_load_fast; intros ?; exact I
    | apply raises_only_load_global; intros ?; exact I
    | apply raises_only_raise; exact I
    | apply raises_only_bind; [|intros ?]
    | match goal with
      | |- raises_only _ (match encode_lines ?c ?l with _ => _ end) =>
          destruct (encode_lines_result c l) as [[? ->]|(? & -> & _)]
      | |- raises_only _ (match ?x with _ => _ end) => destruct x
      | |- raises_only _ (if ?b then _ else _) => destruct b
      end ].

Lemma dataset_encode_raises ds o : raises_only not_invalid_resize (dataset_encode ds o).
Proof.
  unfold dataset_encode. raises_only_tac.
Qed.

Lemma nn_add_codec_raises r : raises_only not_invalid_resize (nn_add_codec r).
Proof. unfold nn_add_codec. raises_only_tac. Qed.

Lemma nn_resize_output_raises n l : raises_only not_invalid_resize (nn_resize_output n l).
Proof. unfold nn_resize_output. raises_only_tac. Qed.

Lemma nn_append_raises i s : raises_only not_invalid_resize (nn_append i s).
Proof. unfold nn_append. raises_only_tac. Qed.

Lemma codec_add_labels_raises r new : raises_only not_invalid_resize (codec_add_labels r new).
Proof. unfold codec_add_labels. raises_only_tac. Qed.

Lemma codec_merge_raises r o : raises_only not_invalid_resize (codec_merge r o).
Proof. unfold codec_merge. raises_only_tac. Qed.

Lemma truthy_codec_raises o : raises_only not_invalid_resize (truthy_codec o).
Proof. unfold truthy_codec. raises_only_tac. Qed.

Ltac raises_only_setup :=
  repeat first
    [ apply dataset_encode_raises
    | apply nn_add_codec_raises
    | apply nn_resize_output_raises
    | apply nn_append_raises
    | apply codec_add_labels_raises
    | apply codec_merge_raises
    | apply truthy_codec_raises
    | progress raises_only_tac ].

Lemma finish_raises : raises_only not_invalid_resize finish.
Proof. unfold finish. raises_only_setup. Qed.

Lemma resize_add_raises ts r new : raises_only not_invalid_resize (resize_add ts r new).
Proof. unfold resize_add. raises_only_setup. Qed.

Lemma resize_both_raises ts r : raises_only not_invalid_resize (resize_both ts r).
Proof. unfold resize_both. raises_only_setup. Qed.

Lemma append_branch_raises s : raises_only not_invalid_resize (append_branch s).
Proof. unfold append_branch. raises_only_setup. Qed.

Lemma fresh_branch_raises s : raises_only not_invalid_resize (fresh_branch s).
Proof. unfold fresh_branch. raises_only_setup. Qed.

Lemma raises_only_absurd {A} (m : M A) w v :
  raises_only not_invalid_resize m → (m w).1 ≠ inl (ValueError (InvalidResize v)).
Proof. intros H Heq. exact (H w _ Heq). Qed.

Lemma reconcile_invalid_only ts r w v w' :
  reconcile ts r w = (inl (ValueError (InvalidResize v)), w') →
  v = resize (self w) ∧ w' = w
  ∧ resize (self w) ≠ "fail" ∧ resize (self w) ≠ "add" ∧ resize (self w) ≠ "both".
Proof.
  unfold reconcile, bind at 1, get_self. unfold bind at 1, get_dataset.
  destruct (datasets w !! dataset ts) as [d|]; [|done].
  unfold bind at 1, get_codec. destruct (codecs w !! r) as [c|]; [|done].
  destruct (String.eqb_spec (resize (self w)) "fail") as [|H1]; [done|].
  destruct (String.eqb_spec (resize (self w)) "add") as [|H2].
  { intros H. exfalso.
    eapply (raises_only_absurd _ w v (resize_add_raises ts r (alphabet d ∖ dom (c2l c)))).
    by rewrite H. }
  destruct (String.eqb_spec (resize (self w)) "both") as [|H3].
  { intros H. exfalso. eapply (raises_only_absurd _ w v (resize_both_raises ts r)).
    by rewrite H. }
  intros [= <- <-]. done.
Qed.

Lemma load_branch_invalid_only stage w v w' :
  stage_in_None_fit stage = true →
  truthy_int (append (self w)) = false →
  truthy_str (model (self w)) = true →
  load_branch (self w) w = (inl (ValueError (InvalidResize v)), w') →
  ∃ n r c ts d,
    load_state stage w n r c ts d
    ∧ alphabet d ⊈ dom (c2l c)
    ∧ v = resize (self w)
    ∧ w' = after_first_encode w r c ts
    ∧ resize (self w) ≠ "fail" ∧ resize (self w) ≠ "add" ∧ resize (self w) ≠ "both".
Proof.
  intros Hst Ha Hm. unfold load_branch, bind at 1.
  assert (from_option (λ g, is_Some (codecs w !! g)) True (codec (self w))
          ∨ ∃ g, codec (self w) = Some g ∧ codecs w !! g = None)
    as [Hg|(g & Hcodec & Hcg)].
  { destruct (codec (self w)) as [g|]; simpl; [|by left].
    destruct (codecs w !! g) eqn:?; [left|right]; eauto. }
  2:{ rewrite Hcodec. unfold truthy_codec, bind, get_codec. by rewrite Hcg. }
  rewrite (truthy_codec_run _ _ Hg).
  unfold bind at 1.
  destruct (codec_truth w (codec (self w)) && String.eqb (resize (self w)) "both") eqn:Hb.
  - (* an explicit codec under [both]: the policy is valid *)
    unfold ret at 1. unfold bind at 1.
    destruct (codec (self w)) as [r|] eqn:Hcodec; [|done].
    unfold attr at 1, ret at 1. unfold bind at 1, get_codec at 1.
    destruct (codecs w !! r) as [c|] eqn:Hc; [|done].
    unfold bind at 1, put_codec at 1. unfold bind at 1.
    destruct (train_set (self w)) as [ts|] eqn:Ht; [|done].
    unfold attr at 1, ret at 1. unfold try_except.
    destruct (datasets w !! dataset ts) as [d|] eqn:Hd.
    2:{ unfold dataset_encode, bind, called, get_dataset. store_simpl. by rewrite Hd. }
    rewrite (dataset_encode_with _ _ _ d (make_strict c));
      [|done|by apply list_lookup_insert_eq; eapply lookup_lt_Some].
    destruct (encode_lines_result (make_strict c) (gt d)) as [[t ->]|(g & -> & _)]; [done|].
    cbn [on_encode_error]. intros H. apply reconcile_invalid_only in H as (_ & _ & _ & _ & H3).
    apply andb_true_iff in Hb as [_ Hb]. apply String.eqb_eq in Hb. done.
  - unfold bind at 1. destruct (nn (self w)) as [n|] eqn:Hn; [|done].
    unfold attr at 1, ret at 1, ret at 1. unfold bind at 1.
    destruct (nn_codec n) as [r|] eqn:Hnc; [|done].
    unfold attr at 1, ret at 1. unfold bind at 1, get_codec at 1.
    destruct (codecs w !! r) as [c|] eqn:Hc; [|done].
    unfold bind at 1, put_codec at 1. unfold bind at 1.
    destruct (train_set (self w)) as [ts|] eqn:Ht; [|done].
    unfold attr at 1, ret at 1. unfold try_except.
    destruct (datasets w !! dataset ts) as [d|] eqn:Hd.
    2:{ unfold dataset_encode, bind, called, get_dataset. store_simpl. by rewrite Hd. }
    rewrite (dataset_encode_with _ _ _ d (make_strict c));
      [|done|by apply list_lookup_insert_eq; eapply lookup_lt_Some].
    destruct (encode_lines_result (make_strict c) (gt d))
      as [[t ->]|(g & -> & Hin & Hnone & _)]; [done|].
    cbn [on_encode_error]. intros H.
    apply reconcile_invalid_only in H as (Hv & Hw & H1 & H2 & H3).
    exists n, r, c, ts, d. split_and!; try done.
    + split; try done. unfold effective_codec. rewrite Hb, Hn. done.
    + intros Hsub. assert (g ∈ dom (c2l c)) as Hdom.
      { apply Hsub. by apply elem_of_list_to_set. }
      apply elem_of_dom in Hdom as [? ?]. simpl in Hnone. congruence.
Qed.

(** ** Calls are only ever added *)

Lemma grows_ret {A} (a : A) : grows (ret a).
Proof. by intros w. Qed.

Lemma grows_raise {A} e : grows (@raise A e).
Proof. by intros w. Qed.

Lemma grows_bind {A B} (m : M A) (k : A → M B) :
  grows m → (∀ a, grows (k a)) → grows (bind m k).
Proof.
  intros Hm Hk w. unfold bind. specialize (Hm w).
  destruct (m w) as [[e|a] w']; simpl in *; [done|].
  etrans; [exact Hm|apply Hk].
Qed.

Lemma grows_try_except {A} (body : M A) handler :
  grows body → (∀ e h, handler e = Some h → grows h) → grows (try_except body handler).
Proof.
  intros Hb Hh w. unfold try_except. specialize (Hb w).
  destruct (body w) as [[e|a] w']; simpl in *; [|done].
  destruct (handler e) as [h|] eqn:He; [|done].
  etrans; [exact Hb|by eapply Hh].
Qed.

Lemma grows_for_each {A} (xs : list A) body :
  (∀ x, grows (body x)) → grows (for_each xs body).
Proof.
  intros Hb. induction xs as [|x xs IH]; simpl; [apply grows_ret|].
  apply grows_bind; [apply Hb|by intros _].
Qed.

Lemma grows_attr {A} name (o : option A) : grows (attr name o).
Proof. destruct o; [apply grows_ret|apply grows_raise]. Qed.

Lemma grows_get_self : grows get_self.
Proof. by intros w. Qed.

Lemma grows_update_self f : grows (update_self f).
Proof. by intros w. Qed.

Lemma grows_called c : grows (called c).
Proof. intros w. by apply prefix_app_r. Qed.

Lemma grows_logger l m : grows (logger l m).
Proof. by intros w. Qed.

Lemma grows_get_codec r : grows (get_codec r).
Proof. intros w. unfold get_codec. by destruct (codecs w !! r). Qed.

Lemma grows_new_codec c : grows (new_codec c).
Proof. by intros w. Qed.

Lemma grows_get_dataset r : grows (get_dataset r).
Proof. intros w. unfold get_dataset. by destruct (datasets w !! r). Qed.

Lemma grows_put_dataset r d : grows (put_dataset r d).
Proof. by intros w. Qed.

Lemma grows_new_dataset d : grows (new_dataset d).
Proof. by intros w. Qed.

Ltac grows_with known :=
  repeat first
    [ known
    | apply grows_ret
    | apply grows_raise
    | apply grows_get_self
    | apply grows_update_self
    | apply grows_called
    | apply grows_logger
    | apply grows_get_codec
    | apply grows_new_codec
    | apply grows_get_dataset
    | apply grows_put_dataset
    | apply grows_new_dataset
    | apply grows_attr
    | apply grows_bind; [|intros ?]
    | apply grows_for_each; intros ?
    | match goal with
      | |- grows (match ?x with _ => _ end) => destruct x
      | |- grows (if ?b then _ else _) => destruct b
      end ].

Ltac grows_tac := grows_with fail.

Lemma grows__star_fun {A} (f : item → exn + A) kwargs : grows (_star_fun f kwargs).
Proof. unfold _star_fun. grows_tac. Qed.

Lemma grows_dataset_add D ds im : grows (dataset_add D ds im).
Proof. unfold dataset_add. grows_tac. Qed.

Lemma grows_dataset_add_parsed ds sample : grows (dataset_add_parsed ds sample).
Proof. unfold dataset_add_parsed. grows_tac. Qed.

Lemma grows_pool_body D ds kwargs : grows (pool_body D ds kwargs).
Proof.
  unfold pool_body.
  grows_with ltac:(first [apply grows__star_fun|apply grows_dataset_add_parsed]).
Qed.

Lemma grows_sequential_body D ds im : grows (sequential_body D ds im).
Proof.
  unfold sequential_body. apply grows_try_except; [apply grows_dataset_add|].
  intros e h. destruct e; intros [= <-]. apply grows_logger.
Qed.

Lemma grows__build_dataset D completion data : grows (_build_dataset D completion data).
Proof.
  unfold _build_dataset.
  grows_with ltac:(first [apply grows_pool_body|apply grows_sequential_body]).
Qed.

(** ** Building a dataset *)

Lemma sequential_body_run D ds im w d0 :
  datasets w !! ds = Some d0 →
  sequential_body D ds im w =
  match dc_parse D im with
  | inr sample =>
      (inr tt, with_datasets (<[ds := add_samples d0 [sample]]> (datasets w))
                 (with_calls (calls w ++ [DatasetAdd ds im]) w))
  | inl (KrakenInputException m) =>
      (inr tt, with_logged (logged w ++ [(WARNING, m)])
                 (with_calls (calls w ++ [DatasetAdd ds im]) w))
  | inl e => (inl e, with_calls (calls w ++ [DatasetAdd ds im]) w)
  end.
Proof.
  intros Hd. unfold sequential_body, try_except, dataset_add, bind at 1, called.
  destruct (dc_parse D im) as [e|sample].
  - by destruct e.
  - unfold bind, get_dataset. store_simpl. by rewrite Hd.
Qed.

Lemma add_samples_nil d : add_samples d [] = d.
Proof. destruct d. unfold add_samples. simpl. by rewrite app_nil_r. Qed.

Lemma add_samples_cons d s ss : add_samples (add_samples d [s]) ss = add_samples d (s :: ss).
Proof. unfold add_samples. simpl. by rewrite <- app_assoc. Qed.

Lemma sequential_loop D ds data : ∀ w d0,
  datasets w !! ds = Some d0 →
  ∃ k, (k ≤ length data)%nat
    ∧ calls (for_each data (sequential_body D ds) w).2 =
        calls w ++ (DatasetAdd ds <$> take k data)
    ∧ ((for_each data (sequential_body D ds) w).1 = inr tt →
         k = length data
         ∧ datasets (for_each data (sequential_body D ds) w).2 =
             <[ds := add_samples d0 (parsed D data)]> (datasets w)).
Proof.
  induction data as [|x xs IH]; intros w d0 Hd.
  - exists 0. simpl. split_and!; [done|by rewrite app_nil_r|].
    intros _. split; [done|]. by rewrite add_samples_nil, list_insert_id.
  - cbn [for_each]. unfold bind at 1 2 3. rewrite (sequential_body_run _ _ _ _ _ Hd).
    unfold parsed. cbn [omap list_omap].
    destruct (dc_parse D x) as [e|sample] eqn:Hx.
    + destruct e;
        try (exists 1; cbn; split_and!; [lia|done|done]).
      destruct (IH (with_logged (logged w ++ [(WARNING, m)])
                      (with_calls (calls w ++ [DatasetAdd ds x]) w)) d0 Hd)
        as (k & Hk & Hc & Hr).
      exists (S k). split_and!; [simpl; lia| |].
      * rewrite Hc. cbn. by rewrite <- app_assoc.
      * intros Hres. destruct (Hr Hres) as [-> Hds]. split; [done|]. exact Hds.
    + assert (ds < length (datasets w)) as Hlt by (by eapply lookup_lt_Some).
      destruct (IH (with_datasets (<[ds := add_samples d0 [sample]]> (datasets w))
                      (with_calls (calls w ++ [DatasetAdd ds x]) w)) (add_samples d0 [sample]))
        as (k & Hk & Hc & Hr).
      { by apply list_lookup_insert_eq. }
      exists (S k). split_and!; [simpl; lia| |].
      * rewrite Hc. cbn. by rewrite <- app_assoc.
      * intros Hres. destruct (Hr Hres) as [-> Hds]. split; [done|].
        rewrite Hds. cbn. by rewrite list_insert_insert_eq, add_samples_cons.
Qed.

Lemma build_dataset_sequential D completion data w :
  uses_pool w = false →
  _build_dataset D completion data w =
  match for_each data (sequential_body D (length (datasets w))) (with_new_dataset D w) with
  | (inr _, w') => (inr (length (datasets w)), w')
  | (inl e, w') => (inl e, w')
  end.
Proof.
  unfold uses_pool. intros Hp.
  unfold _build_dataset, bind at 1, get_self. rewrite Hp.
  unfold bind at 1, called at 1. unfold bind at 1, new_dataset at 1. store_simpl.
  unfold bind at 1. unfold with_new_dataset, with_datasets, with_calls. store_simpl.
  by destruct (for_each data _ _) as [[e|[]] w'].
Qed.

Lemma build_dataset_pool D completion data w :
  uses_pool w = true →
  _build_dataset D completion data w =
  match for_each (completion data) (pool_body D (length (datasets w)))
          (with_calls (calls w ++ [DatasetNew; PoolOpen (default 0%Z (num_workers (self w)))])
             (with_new_dataset D w)) with
  | (inr _, w') => (inr (length (datasets w)), w')
  | (inl e, w') => (inl e, w')
  end.
Proof.
  unfold uses_pool. intros Hp.
  unfold _build_dataset, bind at 1, get_self. rewrite Hp.
  unfold bind at 1, called at 1. unfold bind at 1, new_dataset at 1. store_simpl.
  unfold bind at 1. unfold bind at 1, called at 1. store_simpl.
  unfold with_new_dataset, with_datasets, with_calls. store_simpl.
  rewrite <- app_assoc. cbn [app].
  by destruct (for_each (completion data) _ _) as [[e|[]] w'].
Qed.

Lemma several_workers_spec n :
  several_workers n = true ↔ ∃ z, n = Some z ∧ (1 < z)%Z.
Proof.
  unfold several_workers, truthy_int. destruct n as [z|]; [|split; [done|by intros (? & ? & ?)]].
  rewrite andb_true_iff, negb_true_iff, Z.eqb_neq, Z.ltb_lt.
  split; [intros [_ H]; eauto|intros (? & [= <-] & ?); lia].
Qed.

(** C10. With [format_type] ['binary'] the items are added to the dataset
    one after the other in the order given, whatever [num_workers] is and
    whatever the pool would do: the calls made are the creation of the
    dataset and [add] on the items in order (up to the item that aborts
    the loop, if one does), and when the dataset is returned it holds the
    samples of the items in the order given. The pool is opened exactly
    when [num_workers] is greater than 1 and [format_type] is not
    ['binary']. *)
Theorem build_dataset_binary_sequential D completion data w :
  let res := _build_dataset D completion data w in
  let ds := length (datasets w) in
  (format_type (self w) = Some "binary" →
   ∃ k, (k ≤ length data)%nat
     ∧ calls res.2 = calls w ++ DatasetNew :: (DatasetAdd ds <$> take k data)
     ∧ (∀ r, res.1 = inr r →
          r = ds ∧ k = length data
          ∧ datasets res.2 = datasets w ++ [add_samples (dc_empty D) (parsed D data)]))
  ∧ (∀ new, calls res.2 = calls w ++ new →
       (∃ n, PoolOpen n ∈ new) ↔
       ((∃ z, num_workers (self w) = Some z ∧ (1 < z)%Z)
        ∧ format_type (self w) ≠ Some "binary")).
Proof.
  intros res ds.
  assert (uses_pool w = false →
          ∃ k, (k ≤ length data)%nat
            ∧ calls res.2 = calls w ++ DatasetNew :: (DatasetAdd ds <$> take k data)
            ∧ (∀ r, res.1 = inr r →
                 r = ds ∧ k = length data
                 ∧ datasets res.2 = datasets w ++ [add_samples (dc_empty D) (parsed D data)]))
    as Hseq.
  { intros Hp. unfold res. rewrite (build_dataset_sequential _ _ _ _ Hp).
    destruct (sequential_loop D ds data (with_new_dataset D w) (dc_empty D))
      as (k & Hk & Hc & Hr); [apply lookup_snoc|].
    exists k. fold ds.
    destruct (for_each data (sequential_body D ds) (with_new_dataset D w)) as [[e|[]] w'];
      cbn [fst snd] in *.
    - split_and!; [done| |done]. rewrite Hc. cbn. by rewrite <- app_assoc.
    - split_and!; [done| |].
      + rewrite Hc. cbn. by rewrite <- app_assoc.
      + intros r [= <-]. destruct (Hr eq_refl) as [-> Hd]. split_and!; [done..|].
        rewrite Hd. cbn. unfold ds.
        rewrite <- (Nat.add_0_r (length (datasets w))) at 1.
        by rewrite insert_app_r. }
  split.
  - intros Hb. apply Hseq. unfold uses_pool. rewrite Hb.
    rewrite bool_decide_eq_true_2 by done. apply andb_false_r.
  - intros new Hnew.
    rewrite <- several_workers_spec.
    destruct (uses_pool w) eqn:Hp.
    + split; [intros _|intros _].
      * unfold uses_pool in Hp. apply andb_true_iff in Hp as [H1 H2].
        apply negb_true_iff, bool_decide_eq_false in H2. done.
      * exists (default 0%Z (num_workers (self w))).
        pose proof (grows_for_each (completion data) (pool_body D ds)
                      (grows_pool_body D ds)
                      (with_calls (calls w ++ [DatasetNew; PoolOpen (default 0%Z (num_workers (self w)))])
                         (with_new_dataset D w))) as [k Hk].
        unfold res in Hnew. rewrite (build_dataset_pool _ _ _ _ Hp) in Hnew. fold ds in Hnew.
        assert (calls w ++ new =
                (calls w ++ [DatasetNew; PoolOpen (default 0%Z (num_workers (self w)))]) ++ k)
          as Heq.
        { rewrite <- Hnew. etrans; [|exact Hk]. by destruct (for_each _ _ _) as [[e|[]] w']. }
        rewrite <- app_assoc in Heq. apply app_inv_head in Heq. subst new.
        set_solver.
    + destruct (Hseq eq_refl) as (k & _ & Hc & _).
      rewrite Hnew in Hc. apply app_inv_head in Hc. subst new.
      split.
      * intros [n Hn]. apply elem_of_cons in Hn as [Hn|Hn]; [done|].
        apply list_elem_of_fmap in Hn as (? & ? & _). done.
      * intros [H1 H2]. unfold uses_pool in Hp. rewrite H1 in Hp. simpl in Hp.
        apply negb_false_iff, bool_decide_eq_true in Hp. done.
Qed.

Lemma sequential_loop_aborts D ds e pre it post : ∀ w d0,
  datasets w !! ds = Some d0 →
  (∀ x, x ∈ pre → parses_or_malformed (dc_parse D x)) →
  dc_parse D it = inl e →
  ¬ parses_or_malformed (dc_parse D it) →
  (for_each (pre ++ it :: post) (sequential_body D ds) w).1 = inl e
  ∧ calls (for_each (pre ++ it :: post) (sequential_body D ds) w).2 =
      calls w ++ (DatasetAdd ds <$> pre ++ [it])
  ∧ logged (for_each (pre ++ it :: post) (sequential_body D ds) w).2 =
      logged w ++ malformed_warnings D pre.
Proof.
  induction pre as [|x pre IH]; intros w d0 Hd Hpre Hit Hbad.
  - cbn [app for_each]. unfold bind. rewrite (sequential_body_run _ _ _ _ _ Hd).
    rewrite Hit in *. destruct e; try done; cbn; by rewrite app_nil_r.
  - cbn [app for_each]. unfold bind at 1 2 3.
    rewrite (sequential_body_run _ _ _ _ _ Hd).
    assert (parses_or_malformed (dc_parse D x)) as Hx by (apply Hpre; by left).
    assert (∀ y, y ∈ pre → parses_or_malformed (dc_parse D y)) as Hpre'
      by (intros y Hy; apply Hpre; by right).
    unfold malformed_warnings. cbn [omap list_omap].
    destruct (dc_parse D x) as [ex|sample]; [destruct ex; try done|].
    + destruct (IH (with_logged (logged w ++ [(WARNING, m)])
                      (with_calls (calls w ++ [DatasetAdd ds x]) w)) d0 Hd Hpre' Hit Hbad)
        as (-> & -> & ->).
      split_and!; [done| |]; cbn; by rewrite <- app_assoc.
    + destruct (IH (with_datasets (<[ds := add_samples d0 [sample]]> (datasets w))
                      (with_calls (calls w ++ [DatasetAdd ds x]) w)) (add_samples d0 [sample]))
        as (-> & -> & ->); try done.
      { apply list_lookup_insert_eq. by eapply lookup_lt_Some. }
      split_and!; [done| |done]. cbn. by rewrite <- app_assoc.
Qed.

(** C9. Without a pool a ground-truth item whose file is missing is not
    dropped: [_build_dataset] catches [KrakenInputException] only, so the
    [FileNotFoundError] that [_star_fun] would have logged and swallowed
    ends the construction of the dataset. No warning is logged for the
    item and the items after it are never looked at. *)
Theorem build_dataset_missing_file_aborts D completion pre it post w strerror filename :
  uses_pool w = false →
  (∀ x, x ∈ pre → parses_or_malformed (dc_parse D x)) →
  dc_parse D it = inl (FileNotFoundError strerror filename) →
  let res := _build_dataset D completion (pre ++ it :: post) w in
  res.1 = inl (FileNotFoundError strerror filename)
  ∧ calls res.2 =
      calls w ++ DatasetNew :: (DatasetAdd (length (datasets w)) <$> pre ++ [it])
  ∧ logged res.2 = logged w ++ malformed_warnings D pre.
Proof.
  intros Hp Hpre Hit res. unfold res.
  rewrite (build_dataset_sequential _ _ _ _ Hp).
  destruct (sequential_loop_aborts D (length (datasets w)) _ pre it post
              (with_new_dataset D w) (dc_empty D) (lookup_snoc _ _) Hpre Hit)
    as (Hr & Hc & Hl).
  { rewrite Hit. by intros []. }
  destruct (for_each _ _ _) as [[e|[]] w']; cbn [fst snd] in *; [|done].
  injection Hr as ->.
  split_and!; [done| |done]. rewrite Hc. cbn. by rewrite <- app_assoc.
Qed.

(** With a pool the same item is logged and dropped, as is a malformed
    one: when parsing raises nothing but these two exceptions the dataset
    is returned with the samples of the items that parse. *)
Lemma pool_body_run D ds x w d0 :
  datasets w !! ds = Some d0 →
  pool_body D ds x w =
  match dc_parse D x with
  | inr sample =>
      (inr tt,
       mkWorld (codecs w) (<[ds := add_samples d0 [sample]]> (datasets w)) (self w)
         (calls w ++ [DatasetParse x; DatasetAddParsed ds sample])
         (logged w ++ [(DEBUG, AddingSample (Some sample))]))
  | inl (FileNotFoundError strerror filename) =>
      (inr tt,
       mkWorld (codecs w) (datasets w) (self w) (calls w ++ [DatasetParse x])
         (logged w ++ [(WARNING, Skipping strerror filename); (DEBUG, AddingSample None)]))
  | inl (KrakenInputException m) =>
      (inr tt,
       mkWorld (codecs w) (datasets w) (self w) (calls w ++ [DatasetParse x])
         (logged w ++ [(WARNING, m); (DEBUG, AddingSample None)]))
  | inl e => (inl e, with_calls (calls w ++ [DatasetParse x]) w)
  end.
Proof.
  intros Hd. unfold pool_body, bind at 1, called at 1. unfold bind at 1, _star_fun.
  destruct (dc_parse D x) as [e|sample].
  - destruct e; try done; unfold bind, logger, ret; store_simpl; by rewrite <- app_assoc.
  - unfold ret at 1. unfold bind at 1, logger at 1.
    unfold dataset_add_parsed, bind, called, get_dataset, put_dataset. store_simpl.
    rewrite Hd. by rewrite <- app_assoc.
Qed.

Lemma pool_loop_drops D ds items : ∀ w d0,
  datasets w !! ds = Some d0 →
  (∀ x, x ∈ items → recoverable (dc_parse D x)) →
  (for_each items (pool_body D ds) w).1 = inr tt
  ∧ datasets (for_each items (pool_body D ds) w).2 =
      <[ds := add_samples d0 (parsed D items)]> (datasets w).
Proof.
  induction items as [|x xs IH]; intros w d0 Hd Hrec.
  - cbn. by rewrite add_samples_nil, list_insert_id.
  - cbn [for_each]. unfold bind at 1 2. rewrite (pool_body_run _ _ _ _ _ Hd).
    assert (recoverable (dc_parse D x)) as Hx by (apply Hrec; by left).
    assert (∀ y, y ∈ xs → recoverable (dc_parse D y)) as Hrec'
      by (intros y Hy; apply Hrec; by right).
    unfold parsed. cbn [omap list_omap].
    destruct (dc_parse D x) as [e|sample]; [destruct e; try done|].
    + by destruct (IH (mkWorld (codecs w) (datasets w) (self w) (calls w ++ [DatasetParse x])
                     (logged w ++ [(WARNING, m); (DEBUG, AddingSample None)])) d0 Hd Hrec')
        as [-> ->].
    + by destruct (IH (mkWorld (codecs w) (datasets w) (self w) (calls w ++ [DatasetParse x])
                     (logged w ++ [(WARNING, Skipping strerror filename);
                                   (DEBUG, AddingSample None)])) d0 Hd Hrec')
        as [-> ->].
    + destruct (IH (mkWorld (codecs w) (<[ds := add_samples d0 [sample]]> (datasets w)) (self w)
                      (calls w ++ [DatasetParse x; DatasetAddParsed ds sample])
                      (logged w ++ [(DEBUG, AddingSample (Some sample))]))
                   (add_samples d0 [sample]))
        as [-> ->]; try done.
      { apply list_lookup_insert_eq. by eapply lookup_lt_Some. }
      split; [done|]. cbn. by rewrite list_insert_insert_eq, add_samples_cons.
Qed.

Lemma build_dataset_pool_drops D completion data w :
  uses_pool w = true →
  (∀ x, x ∈ data → recoverable (dc_parse D x)) →
  (∀ l, completion l ≡ₚ l) →
  let res := _build_dataset D completion data w in
  res.1 = inr (length (datasets w))
  ∧ datasets res.2 = datasets w ++ [add_samples (dc_empty D) (parsed D (completion data))].
Proof.
  intros Hp Hrec Hperm res. unfold res. rewrite (build_dataset_pool _ _ _ _ Hp).
  destruct (pool_loop_drops D (length (datasets w)) (completion data)
              (with_calls (calls w ++ [DatasetNew; PoolOpen (default 0%Z (num_workers (self w)))])
                 (with_new_dataset D w)) (dc_empty D) (lookup_snoc _ _)) as [Hr Hd].
  { intros x Hx. apply Hrec. by rewrite <- (Hperm data). }
  destruct (for_each _ _ _) as [[e|[]] w']; cbn [fst snd] in *; [done|].
  split; [done|]. rewrite Hd. cbn.
  rewrite <- (Nat.add_0_r (length (datasets w))) at 1. by rewrite insert_app_r.
Qed.

(** ** The constructor runs before [setup] *)

Lemma bind_inr_inv {A B} (m : M A) (k : A → M B) w b w' :
  bind m k w = (inr b, w') → ∃ a w1, m w = (inr a, w1) ∧ k a w1 = (inr b, w').
Proof. unfold bind. destruct (m w) as [[e|a] w1]; [done|eauto]. Qed.

Lemma pool_loop_parsed D ds items : ∀ w w',
  for_each items (pool_body D ds) w = (inr tt, w') →
  ∀ it, it ∈ items → DatasetParse it ∈ calls w'.
Proof.
  induction items as [|x xs IH]; intros w w' Hrun it Hit; [by apply elem_of_nil in Hit|].
  cbn [for_each] in Hrun. apply bind_inr_inv in Hrun as ([] & w1 & Hx & Hxs).
  apply elem_of_cons in Hit as [->|Hit]; [|by eapply IH].
  assert (DatasetParse x ∈ calls w1) as Hin.
  { unfold pool_body in Hx. apply bind_inr_inv in Hx as ([] & w2 & Hc & Hrest).
    injection Hc as <-.
    match type of Hrest with
    | ?m _ = _ => assert (grows m) as Hg
    end.
    { grows_with ltac:(first [apply grows__star_fun|apply grows_dataset_add_parsed]). }
    specialize (Hg (mkWorld (codecs w) (datasets w) (self w) (calls w ++ [DatasetParse x])
                      (logged w))).
    rewrite Hrest in Hg. destruct Hg as [k Hk]. cbn in Hk. rewrite Hk. set_solver. }
  pose proof (grows_for_each xs (pool_body D ds) (grows_pool_body D ds) w1) as [k Hk].
  rewrite Hxs in Hk. cbn in Hk. rewrite Hk. set_solver.
Qed.

Lemma build_dataset_parsed D completion data w ds w' :
  (∀ l, completion l ≡ₚ l) →
  _build_dataset D completion data w = (inr ds, w') →
  ds = length (datasets w)
  ∧ ∀ it, it ∈ data → DatasetAdd ds it ∈ calls w' ∨ DatasetParse it ∈ calls w'.
Proof.
  intros Hperm. destruct (uses_pool w) eqn:Hp.
  - rewrite (build_dataset_pool _ _ _ _ Hp).
    destruct (for_each _ _ _) as [[e|[]] w1] eqn:Hrun; [done|].
    intros [= <- <-]. split; [done|]. intros it Hit. right.
    eapply pool_loop_parsed; [exact Hrun|]. by rewrite (Hperm data).
  - rewrite (build_dataset_sequential _ _ _ _ Hp).
    destruct (sequential_loop D (length (datasets w)) data (with_new_dataset D w) (dc_empty D))
      as (k & _ & Hc & Hr); [apply lookup_snoc|].
    destruct (for_each _ _ _) as [[e|[]] w1]; [done|].
    intros [= <- <-]. split; [done|]. intros it Hit. left.
    cbn [fst snd] in *. destruct (Hr eq_refl) as [-> _].
    rewrite Hc, firstn_all. apply elem_of_app. right. by apply list_elem_of_fmap_2.
Qed.

Lemma init_datasets_parsed a w0 w :
  (∀ l, env_completion a l ≡ₚ l) →
  init_datasets a w0 = (inr tt, w) →
  ∀ it, it ∈ arg_training_data a →
    DatasetAdd (length (datasets w0)) it ∈ calls w ∨ DatasetParse it ∈ calls w.
Proof.
  intros Hperm Hrun. unfold init_datasets in Hrun.
  apply bind_inr_inv in Hrun as (ds & w1 & Hb & Hrest).
  apply (build_dataset_parsed _ _ _ _ _ _ Hperm) in Hb as [-> Hb].
  match type of Hrest with
  | ?m _ = _ => assert (grows m) as Hg
  end.
  { grows_with ltac:(apply grows__build_dataset). }
  specialize (Hg w1). rewrite Hrest in Hg. destruct Hg as [k Hk]. cbn in Hk.
  intros it Hit. rewrite Hk. destruct (Hb it Hit); [left|right]; set_solver.
Qed.

Lemma setup_invalid_only stage w v w' :
  setup stage w = (inl (ValueError (InvalidResize v)), w') →
  ∃ n r c ts d,
    load_state stage w n r c ts d
    ∧ alphabet d ⊈ dom (c2l c)
    ∧ v = resize (self w)
    ∧ w' = after_first_encode w r c ts
    ∧ resize (self w) ≠ "fail" ∧ resize (self w) ≠ "add" ∧ resize (self w) ≠ "both".
Proof.
  unfold setup. destruct (stage_in_None_fit stage) eqn:Hst; [|done].
  unfold bind at 1. destruct (prepare w) as [[e|[]] w1] eqn:Hp.
  - intros [= -> ->]. unfold prepare, bind, get_self in Hp.
    destruct (truthy_int (append (self w))) eqn:Ha.
    { exfalso. eapply (raises_only_absurd _ w v (append_branch_raises (self w))).
      by rewrite Hp. }
    destruct (truthy_str (model (self w))) eqn:Hm.
    { by eapply load_branch_invalid_only. }
    exfalso. eapply (raises_only_absurd _ w v (fresh_branch_raises (self w))).
    by rewrite Hp.
  - intros H. exfalso. eapply (raises_only_absurd _ w1 v finish_raises). by rewrite H.
Qed.

(** C7 (as amended). An invalid value of [resize] is not checked when
    [setup] starts. [setup] raises [ValueError] for it exactly when it is
    in the loading state and the training set does not encode against the
    effective codec; the error comes out of the [except] block, after the
    codec was made strict and [encode] was called on the training set.
    In every other case (a new model, an append point, a training
    alphabet the codec covers) the invalid value goes unreported. The
    ground truth is parsed by the constructor, hence before [setup]: when
    the error is raised every training item has been handed to the
    dataset or to the parser. *)
Theorem setup_invalid_resize_late stage a w0 w v :
  (∀ l, env_completion a l ≡ₚ l) →
  init_datasets a w0 = (inr tt, w) →
  ((∃ w', setup stage w = (inl (ValueError (InvalidResize v)), w')) ↔
   (∃ n r c ts d,
      load_state stage w n r c ts d
      ∧ alphabet d ⊈ dom (c2l c)
      ∧ v = resize (self w)
      ∧ resize (self w) ≠ "fail" ∧ resize (self w) ≠ "add" ∧ resize (self w) ≠ "both"))
  ∧ (∀ w', setup stage w = (inl (ValueError (InvalidResize v)), w') →
       (∃ r ts, calls w' = calls w ++ [DatasetEncode (dataset ts) (Some r)])
       ∧ (∀ it, it ∈ arg_training_data a →
            DatasetAdd (length (datasets w0)) it ∈ calls w
            ∨ DatasetParse it ∈ calls w)).
Proof.
  intros Hperm Hinit. split; [split|].
  - intros [w' H].
    apply setup_invalid_only in H as (n & r & c & ts & d & Hl & Hsub & Hv & _ & H1 & H2 & H3).
    exists n, r, c, ts, d. done.
  - intros (n & r & c & ts & d & Hl & Hsub & -> & H1 & H2 & H3).
    exists (after_first_encode w r c ts).
    apply setup_prepare_raises; [by destruct Hl|].
    rewrite (prepare_load_mismatch _ _ _ _ _ _ _ Hl Hsub).
    destruct Hl as [Hst Ha Hm Hn Hg He Hc Ht Hd].
    rewrite (reconcile_invalid _ r (make_strict c) ts d); try done.
    by apply after_first_encode_codec.
  - intros w' H. split; [|by eapply init_datasets_parsed].
    apply setup_invalid_only in H as (n & r & c & ts & d & _ & _ & _ & -> & _).
    by exists r, ts.
Qed.

(** ** The scenarios, run *)

Ltac concrete :=
  first [ reflexivity | exact I | vm_compute; reflexivity
        | apply bool_decide_eq_false_1; vm_compute; reflexivity
        | apply (bool_decide_unpack _); vm_compute; exact I
        | eexists; reflexivity ].

Lemma setup_fail_mismatch_witness :
  load_state None scenario_A (loaded_network codec_ab) 0 codec_ab
    (mkSubset 0 [0; 1]) (dataset_of [["a"; "b"]; ["c"; "a"]])
  ∧ resize (self scenario_A) = "fail"
  ∧ alphabet (dataset_of [["a"; "b"]; ["c"; "a"]]) ⊈ dom (c2l codec_ab)
  ∧ (setup None scenario_A).1 =
      inl (KrakenInputException
             (AlphabetsMismatch
                (alphabet (dataset_of [["a"; "b"]; ["c"; "a"]]) ∖ dom (c2l codec_ab))))
  ∧ self (setup None scenario_A).2 = self scenario_A
  ∧ codecs (setup None scenario_A).2 = <[0 := make_strict codec_ab]> (codecs scenario_A).
Proof.
  assert (load_state None scenario_A (loaded_network codec_ab) 0 codec_ab
            (mkSubset 0 [0; 1]) (dataset_of [["a"; "b"]; ["c"; "a"]])) as Hl
    by (split; concrete).
  assert (alphabet (dataset_of [["a"; "b"]; ["c"; "a"]]) ⊈ dom (c2l codec_ab)) as Hsub
    by concrete.
  destruct (setup_fail_mismatch None scenario_A _ _ _ _ _ Hl eq_refl Hsub)
    as (Hres & Hself & Hcodecs & _).
  split_and!; [exact Hl|reflexivity|exact Hsub|exact Hres|exact Hself|exact Hcodecs].
Defined.

(** Scenario A leaves the codec of the model changed: it is strict now. *)
Lemma setup_fail_changes_codec :
  (setup None scenario_A).1 = inl (KrakenInputException (AlphabetsMismatch {["c"]}))
  ∧ codecs (setup None scenario_A).2 ≠ codecs scenario_A.
Proof. split; [vm_compute; reflexivity|vm_compute; intros [=]]. Qed.

(** Scenario B: the codec is extended by [c] with label 2 and the output
    layer gets a third, fresh row; then [setup] stops. *)
Lemma setup_add_mismatch_witness :
  load_state None scenario_B (loaded_network codec_ab) 0 codec_ab
    (mkSubset 0 [0; 1]) (dataset_of [["a"; "b"]; ["c"; "a"]])
  ∧ resize (self scenario_B) = "add"
  ∧ alphabet (dataset_of [["a"; "b"]; ["c"; "a"]]) ⊈ dom (c2l codec_ab)
  ∧ (setup None scenario_B).1 = inl (NameError "nn")
  ∧ codecs (setup None scenario_B).2 !! 1 =
      Some (mkCodec {["a" := [0]; "b" := [1]; "c" := [2]]} true)
  ∧ output <$> nn (self (setup None scenario_B).2) = Some [Trained 0; Trained 1; Fresh]
  ∧ datasets (setup None scenario_B).2 = datasets scenario_B.
Proof.
  assert (load_state None scenario_B (loaded_network codec_ab) 0 codec_ab
            (mkSubset 0 [0; 1]) (dataset_of [["a"; "b"]; ["c"; "a"]])) as Hl
    by (split; concrete).
  assert (alphabet (dataset_of [["a"; "b"]; ["c"; "a"]]) ⊈ dom (c2l codec_ab)) as Hsub
    by concrete.
  split_and!; [exact Hl|reflexivity|exact Hsub|..];
    destruct (setup_add_mismatch None scenario_B _ _ _ _ _ Hl eq_refl Hsub)
      as (-> & Hc & _ & Ho & Hd & _);
    [reflexivity|cbn [snd]; rewrite Hc; concrete|cbn [snd]; rewrite Ho; concrete|exact Hd].
Defined.

(** Scenario C: the merged codec covers [a], [b], [c]; label 2, that of
    [x], is deleted; the output layer has three rows, the third fresh. *)
Lemma setup_both_mismatch_witness :
  load_state None scenario_C (loaded_network codec_abx) 0 codec_abx
    (mkSubset 0 [0; 1]) (dataset_of [["a"; "b"]; ["c"; "a"]])
  ∧ resize (self scenario_C) = "both"
  ∧ alphabet (dataset_of [["a"; "b"]; ["c"; "a"]]) ⊈ dom (c2l codec_abx)
  ∧ ∃ w',
      setup None scenario_C = finish w'
      ∧ (nn (self w') ≫= nn_codec) = Some 2
      ∧ codecs w' !! 2 = Some (mkCodec {["a" := [0]; "b" := [1]; "c" := [2]]} true)
      ∧ output <$> nn (self w') = Some [Trained 0; Trained 1; Fresh]
      ∧ datasets w' !! 0 =
          Some (mkDataset [["a"; "b"]; ["c"; "a"]] (Some 2) [[0; 1]; [2; 0]] "L" None)
      ∧ last (calls w') = Some (NNResizeOutput 3 [2]).
Proof.
  assert (load_state None scenario_C (loaded_network codec_abx) 0 codec_abx
            (mkSubset 0 [0; 1]) (dataset_of [["a"; "b"]; ["c"; "a"]])) as Hl
    by (split; concrete).
  assert (alphabet (dataset_of [["a"; "b"]; ["c"; "a"]]) ⊈ dom (c2l codec_abx)) as Hsub
    by concrete.
  split_and!; [exact Hl|reflexivity|exact Hsub|].
  destruct (setup_both_mismatch None scenario_C _ _ _ _ _ Hl eq_refl Hsub)
    as (targets & w' & Hs & Hc & Hn & Henc & Hd & Ho & Hcalls & _).
  exists w'. split_and!; [exact Hs|exact Hn|rewrite Hc; concrete|rewrite Ho; concrete| |
                          rewrite Hcalls; concrete].
  rewrite Hd. vm_compute in Henc. injection Henc as <-. concrete.
Defined.

Lemma setup_compatible_no_resize_witness :
  load_state None (compatible "add") (loaded_network codec_ab) 0 codec_ab
    (mkSubset 0 [0]) (dataset_of [["a"; "b"]])
  ∧ (resize (self (compatible "add")) = "add" ∨ resize (self (compatible "add")) = "both")
  ∧ alphabet (dataset_of [["a"; "b"]]) ⊆ dom (c2l codec_ab)
  ∧ ∃ w',
      setup None (compatible "add") = finish w'
      ∧ self w' = self (compatible "add")
      ∧ codecs w' = [make_strict codec_ab]
      ∧ calls w' = [DatasetEncode 0 (Some 0)].
Proof.
  assert (load_state None (compatible "add") (loaded_network codec_ab) 0 codec_ab
            (mkSubset 0 [0]) (dataset_of [["a"; "b"]])) as Hl
    by (split; concrete).
  assert (alphabet (dataset_of [["a"; "b"]]) ⊆ dom (c2l codec_ab)) as Hsub by concrete.
  split_and!; [exact Hl|by left|exact Hsub|].
  destruct (setup_compatible_no_resize None (compatible "add") _ _ _ _ _ Hl
              (or_introl eq_refl) Hsub)
    as (targets & w' & Hs & Hself & Hc & _ & _ & _ & Hcalls & _).
  exists w'. split_and!; [exact Hs|exact Hself|exact Hc|exact Hcalls].
Defined.

(** A covered alphabet under [add] or [both]: [setup] returns, and the
    codec of the model is not what it was. *)
Lemma setup_compatible_sets_strict :
  (setup None (compatible "add")).1 = inr tt
  ∧ codecs (setup None (compatible "add")).2 ≠ codecs (compatible "add")
  ∧ (setup None (compatible "both")).1 = inr tt
  ∧ codecs (setup None (compatible "both")).2 ≠ codecs (compatible "both").
Proof. split_and!; first [vm_compute; reflexivity|vm_compute; intros [=]]. Qed.

Lemma setup_effective_codec_witness :
  load_state None (given_codec "both") (loaded_network codec_ab) 1 codec_abx
    (mkSubset 0 [0]) (dataset_of [["a"; "b"]])
  ∧ (nn_codec (loaded_network codec_ab) ≠ Some 1 →
     resize (self (given_codec "both")) = "both"
     ∧ codec (self (given_codec "both")) = Some 1)
  ∧ load_state None (given_codec "add") (loaded_network codec_ab) 0 codec_ab
      (mkSubset 0 [0]) (dataset_of [["a"; "b"]])
  ∧ (resize (self (given_codec "add")) ≠ "both" ∨ codec (self (given_codec "add")) = None →
     nn_codec (loaded_network codec_ab) = Some 0).
Proof.
  assert (load_state None (given_codec "both") (loaded_network codec_ab) 1 codec_abx
            (mkSubset 0 [0]) (dataset_of [["a"; "b"]])) as Hboth
    by (split; concrete).
  assert (load_state None (given_codec "add") (loaded_network codec_ab) 0 codec_ab
            (mkSubset 0 [0]) (dataset_of [["a"; "b"]])) as Hadd
    by (split; concrete).
  split_and!; [exact Hboth| |exact Hadd|].
  - exact (proj1 (proj2 (proj2 (setup_effective_codec _ _ _ _ _ _ _ Hboth)))).
  - exact (proj1 (proj2 (setup_effective_codec _ _ _ _ _ _ _ Hadd))).
Defined.

Lemma setup_append_unbound_local_witness :
  stage_in_None_fit None = true
  ∧ truthy_int (append (self appending)) = true
  ∧ train_set (self appending) = Some (mkSubset 0 [0; 1])
  ∧ (setup None appending).1 = inl (UnboundLocalError "spec")
  ∧ self (setup None appending).2 = self appending
  ∧ calls (setup None appending).2 = [DatasetEncode 0 None].
Proof.
  destruct (setup_append_unbound_local None appending (mkSubset 0 [0; 1])
              eq_refl eq_refl eq_refl) as (_ & Hs & Hc & Hu).
  split_and!; [reflexivity..|apply Hu; concrete|exact Hs|exact Hc].
Defined.

Lemma setup_validation_strict_witness :
  load_state None validation_only_grapheme (loaded_network codec_ab) 0 codec_ab
    (mkSubset 0 [0]) (dataset_of [["a"; "b"]])
  ∧ nn_codec (loaded_network codec_ab) = Some 0
  ∧ alphabet (dataset_of [["a"; "b"]]) ⊆ dom (c2l codec_ab)
  ∧ val_set (self validation_only_grapheme) = Some (mkSubset 1 [0])
  ∧ datasets validation_only_grapheme !! 1 = Some (dataset_of [["a"; "c"]])
  ∧ alphabet (dataset_of [["a"; "c"]]) ⊈ dom (c2l codec_ab)
  ∧ ∃ g, (setup None validation_only_grapheme).1 = inl (KrakenEncodeException g)
         ∧ g ∈ alphabet (dataset_of [["a"; "c"]]) ∖ dom (c2l codec_ab).
Proof.
  assert (load_state None validation_only_grapheme (loaded_network codec_ab) 0 codec_ab
            (mkSubset 0 [0]) (dataset_of [["a"; "b"]])) as Hl
    by (split; concrete).
  assert (alphabet (dataset_of [["a"; "b"]]) ⊆ dom (c2l codec_ab)) as Hsub by concrete.
  assert (alphabet (dataset_of [["a"; "c"]]) ⊈ dom (c2l codec_ab)) as Hval by concrete.
  split_and!; [exact Hl|reflexivity|exact Hsub|reflexivity|reflexivity|exact Hval|].
  exact (setup_validation_strict None validation_only_grapheme _ _ _ _ _
           (mkSubset 1 [0]) (dataset_of [["a"; "c"]]) Hl eq_refl Hsub eq_refl eq_refl Hval).
Defined.

(** The same input through the constructor: the grapheme only the
    validation set has is reported with a warning, then [setup] raises. *)
Lemma run_validation_only_grapheme :
  let res := run (line_image_args ["ab.png"] ["ca.png"]) None
               (under_construction codec_ab "fail" (Some "path") (Some 1%Z)) in
  res.1 = inl (KrakenEncodeException "c")
  ∧ (WARNING, OnlyInValidation {["c"]}) ∈ logged res.2.
Proof. split; [vm_compute; reflexivity|]. vm_compute. set_solver. Qed.

(** An invalid policy next to a training set the codec covers: nothing
    is raised, neither by [setup] nor by the constructor before it. *)
Lemma setup_invalid_resize_unnoticed :
  resize (self (compatible "sometimes")) = "sometimes"
  ∧ (setup None (compatible "sometimes")).1 = inr tt
  ∧ (run (line_image_args ["ab.png"] ["ab.png"]) None
       (under_construction codec_ab "sometimes" (Some "path") (Some 1%Z))).1 = inr tt.
Proof. split_and!; vm_compute; reflexivity. Qed.

Lemma setup_invalid_resize_late_witness :
  let a := line_image_args ["ab.png"; "ca.png"] ["ab.png"] in
  let w0 := under_construction codec_ab "sometimes" (Some "path") (Some 1%Z) in
  let w := (init_datasets a w0).2 in
  (∀ l, env_completion a l ≡ₚ l)
  ∧ init_datasets a w0 = (inr tt, w)
  ∧ (setup None w).1 = inl (ValueError (InvalidResize "sometimes"))
  ∧ calls (setup None w).2 =
      [DatasetNew; DatasetAdd 0 "ab.png"; DatasetAdd 0 "ca.png"; DatasetNew;
       DatasetAdd 1 "ab.png"; DatasetEncode 0 (Some 0)]
  ∧ (∀ it, it ∈ ["ab.png"; "ca.png"] →
       DatasetAdd 0 it ∈ calls w ∨ DatasetParse it ∈ calls w).
Proof.
  intros a w0 w.
  assert (∀ l, env_completion a l ≡ₚ l) as Hperm by (intros l; apply reverse_Permutation).
  assert (init_datasets a w0 = (inr tt, w)) as Hinit by concrete.
  assert (setup None w = (inl (ValueError (InvalidResize "sometimes")), (setup None w).2))
    as Hrun by concrete.
  destruct (setup_invalid_resize_late None a w0 w "sometimes" Hperm Hinit) as [_ Hlate].
  destruct (Hlate _ Hrun) as [_ Hparsed].
  split_and!; [exact Hperm|exact Hinit|concrete|concrete|exact Hparsed].
Defined.

Lemma build_dataset_missing_file_aborts_witness :
  let w := under_construction codec_ab "fail" (Some "path") (Some 1%Z) in
  uses_pool w = false
  ∧ (∀ x, x ∈ ["ab.png"] → parses_or_malformed (dc_parse line_images x))
  ∧ dc_parse line_images "missing.png" =
      inl (FileNotFoundError "No such file or directory" "missing.png")
  ∧ (_build_dataset line_images reverse ["ab.png"; "missing.png"; "ca.png"] w).1 =
      inl (FileNotFoundError "No such file or directory" "missing.png")
  ∧ calls (_build_dataset line_images reverse ["ab.png"; "missing.png"; "ca.png"] w).2 =
      [DatasetNew; DatasetAdd 0 "ab.png"; DatasetAdd 0 "missing.png"]
  ∧ logged (_build_dataset line_images reverse ["ab.png"; "missing.png"; "ca.png"] w).2 = [].
Proof.
  intros w.
  assert (∀ x, x ∈ ["ab.png"] → parses_or_malformed (dc_parse line_images x)) as Hpre.
  { intros x Hx. apply list_elem_of_singleton in Hx as ->. exact I. }
  destruct (build_dataset_missing_file_aborts line_images reverse ["ab.png"] "missing.png"
              ["ca.png"] w "No such file or directory" "missing.png" eq_refl Hpre eq_refl)
    as (Hr & Hc & Hl).
  split_and!; [reflexivity|exact Hpre|reflexivity|exact Hr|exact Hc|exact Hl].
Defined.

(** With a pool the missing file is logged and dropped. *)
Lemma build_dataset_pool_missing_file :
  let res := _build_dataset line_images reverse ["ab.png"; "missing.png"; "ca.png"]
               (under_construction codec_ab "fail" (Some "path") (Some 4%Z)) in
  res.1 = inr 0
  ∧ gt <$> datasets res.2 = [[["c"; "a"]; ["a"; "b"]]]
  ∧ (WARNING, Skipping "No such file or directory" "missing.png") ∈ logged res.2.
Proof. split_and!; [vm_compute; reflexivity..|]. vm_compute. set_solver. Qed.

Lemma build_dataset_binary_sequential_witness :
  let w := under_construction codec_ab "fail" (Some "binary") (Some 4%Z) in
  let res := _build_dataset line_images reverse ["ab.png"; "ca.png"] w in
  format_type (self w) = Some "binary"
  ∧ res.1 = inr 0
  ∧ calls res.2 = [DatasetNew; DatasetAdd 0 "ab.png"; DatasetAdd 0 "ca.png"]
  ∧ datasets res.2 = [add_samples (dataset_of []) [["a"; "b"]; ["c"; "a"]]]
  ∧ ¬ ∃ n, PoolOpen n ∈ calls res.2.
Proof.
  intros w res.
  destruct (build_dataset_binary_sequential line_images reverse ["ab.png"; "ca.png"] w)
    as [Hbin Hpool].
  destruct (Hbin eq_refl) as (k & _ & Hc & Hr).
  destruct (Hr 0 eq_refl) as (_ & -> & Hd).
  split_and!; [reflexivity|reflexivity|exact Hc|exact Hd|].
  rewrite (Hpool (calls res.2) eq_refl). intros [_ Hne]. by apply Hne.
Defined.

(** * Properties of the rest of the module *)

(** ** Building a dataset: what is dropped, what is kept *)

Lemma sequential_loop_run D ds data : ∀ w d0,
  datasets w !! ds = Some d0 →
  (∀ x, x ∈ data → parses_or_malformed (dc_parse D x)) →
  for_each data (sequential_body D ds) w =
  (inr tt,
   mkWorld (codecs w) (<[ds := add_samples d0 (parsed D data)]> (datasets w)) (self w)
     (calls w ++ (DatasetAdd ds <$> data)) (logged w ++ malformed_warnings D data)).
Proof.
  induction data as [|x xs IH]; intros w d0 Hd Hok.
  - cbn. rewrite add_samples_nil, list_insert_id, !app_nil_r by done. by destruct w.
  - cbn [for_each]. unfold bind at 1. rewrite (sequential_body_run _ _ _ _ _ Hd).
    assert (parses_or_malformed (dc_parse D x)) as Hx by (apply Hok; by left).
    assert (∀ y, y ∈ xs → parses_or_malformed (dc_parse D y)) as Hok'
      by (intros y Hy; apply Hok; by right).
    unfold parsed, malformed_warnings. cbn [omap list_omap fmap list_fmap].
    destruct (dc_parse D x) as [e|sample]; [destruct e; try done|].
    + rewrite (IH (with_logged (logged w ++ [(WARNING, m)])
                     (with_calls (calls w ++ [DatasetAdd ds x]) w)) d0 Hd Hok').
      cbn. by rewrite <- !app_assoc.
    + rewrite (IH (with_datasets (<[ds := add_samples d0 [sample]]> (datasets w))
                     (with_calls (calls w ++ [DatasetAdd ds x]) w)) (add_samples d0 [sample]));
        [|by apply list_lookup_insert_eq; eapply lookup_lt_Some|done].
      cbn. by rewrite list_insert_insert_eq, add_samples_cons, <- !app_assoc.
Qed.

Lemma insert_snoc {A} (l : list A) (x y : A) : <[length l := y]> (l ++ [x]) = l ++ [y].
Proof. rewrite <- (Nat.add_0_r (length l)) at 1. by rewrite insert_app_r. Qed.

Lemma build_dataset_sequential_run D completion data w :
  uses_pool w = false →
  (∀ x, x ∈ data → parses_or_malformed (dc_parse D x)) →
  _build_dataset D completion data w =
  (inr (length (datasets w)),
   mkWorld (codecs w) (datasets w ++ [add_samples (dc_empty D) (parsed D data)]) (self w)
     (calls w ++ DatasetNew :: (DatasetAdd (length (datasets w)) <$> data))
     (logged w ++ malformed_warnings D data)).
Proof.
  intros Hp Hok. rewrite (build_dataset_sequential _ _ _ _ Hp).
  rewrite (sequential_loop_run D _ data _ (dc_empty D)); [|apply lookup_snoc|done].
  cbn. by rewrite insert_snoc, <- app_assoc.
Qed.

Lemma pool_loop_run D ds items : ∀ w d0,
  datasets w !! ds = Some d0 →
  (∀ x, x ∈ items → recoverable (dc_parse D x)) →
  for_each items (pool_body D ds) w =
  (inr tt,
   mkWorld (codecs w) (<[ds := add_samples d0 (parsed D items)]> (datasets w)) (self w)
     (calls w ++ pool_calls D ds items) (logged w ++ pool_records D items)).
Proof.
  induction items as [|x xs IH]; intros w d0 Hd Hok.
  - cbn. rewrite add_samples_nil, list_insert_id, !app_nil_r by done. by destruct w.
  - cbn [for_each]. unfold bind at 1. rewrite (pool_body_run _ _ _ _ _ Hd).
    assert (recoverable (dc_parse D x)) as Hx by (apply Hok; by left).
    assert (∀ y, y ∈ xs → recoverable (dc_parse D y)) as Hok'
      by (intros y Hy; apply Hok; by right).
    unfold parsed, pool_calls, pool_records.
    cbn [omap list_omap mbind list_bind].
    destruct (dc_parse D x) as [e|sample]; [destruct e; try done|].
    + rewrite (IH (mkWorld (codecs w) (datasets w) (self w) (calls w ++ [DatasetParse x])
                     (logged w ++ [(WARNING, m); (DEBUG, AddingSample None)])) d0 Hd Hok').
      cbn. by rewrite <- !app_assoc.
    + rewrite (IH (mkWorld (codecs w) (datasets w) (self w) (calls w ++ [DatasetParse x])
                     (logged w ++ [(WARNING, Skipping strerror filename);
                                   (DEBUG, AddingSample None)])) d0 Hd Hok').
      cbn. by rewrite <- !app_assoc.
    + rewrite (IH (mkWorld (codecs w) (<[ds := add_samples d0 [sample]]> (datasets w)) (self w)
                     (calls w ++ [DatasetParse x; DatasetAddParsed ds sample])
                     (logged w ++ [(DEBUG, AddingSample (Some sample))]))
                  (add_samples d0 [sample]));
        [|by apply list_lookup_insert_eq; eapply lookup_lt_Some|done].
      cbn. by rewrite list_insert_insert_eq, add_samples_cons, <- !app_assoc.
Qed.

Lemma build_dataset_pool_run D completion data w :
  uses_pool w = true →
  (∀ x, x ∈ completion data → recoverable (dc_parse D x)) →
  _build_dataset D completion data w =
  (inr (length (datasets w)),
   mkWorld (codecs w)
     (datasets w ++ [add_samples (dc_empty D) (parsed D (completion data))]) (self w)
     (calls w ++ DatasetNew :: PoolOpen (default 0%Z (num_workers (self w)))
        :: pool_calls D (length (datasets w)) (completion data))
     (logged w ++ pool_records D (completion data))).
Proof.
  intros Hp Hok. rewrite (build_dataset_pool _ _ _ _ Hp).
  rewrite (pool_loop_run D _ (completion data) _ (dc_empty D)); [|apply lookup_snoc|done].
  cbn. by rewrite insert_snoc, <- !app_assoc.
Qed.

Lemma sequential_loop_frame D ds data : ∀ w d0,
  datasets w !! ds = Some d0 →
  ∃ samples,
    codecs (for_each data (sequential_body D ds) w).2 = codecs w
    ∧ self (for_each data (sequential_body D ds) w).2 = self w
    ∧ datasets (for_each data (sequential_body D ds) w).2 =
        <[ds := add_samples d0 samples]> (datasets w)
    ∧ ∀ s, s ∈ samples → ∃ it, it ∈ data ∧ dc_parse D it = inr s.
Proof.
  induction data as [|x xs IH]; intros w d0 Hd.
  - exists []. cbn. rewrite add_samples_nil, list_insert_id by done.
    split_and!; [done..|]. intros s Hs. by apply elem_of_nil in Hs.
  - cbn [for_each]. unfold bind at 1 2 3. rewrite (sequential_body_run _ _ _ _ _ Hd).
    assert (∃ samples, codecs w = codecs w ∧ self w = self w
              ∧ datasets w = <[ds := add_samples d0 samples]> (datasets w)
              ∧ ∀ s, s ∈ samples → ∃ it, it ∈ x :: xs ∧ dc_parse D it = inr s) as Hstop.
    { exists []. rewrite add_samples_nil, list_insert_id by done.
      split_and!; [done..|]. intros s Hs. by apply elem_of_nil in Hs. }
    destruct (dc_parse D x) as [e|sample] eqn:Hx; [destruct e; try exact Hstop|].
    + destruct (IH (with_logged (logged w ++ [(WARNING, m)])
                      (with_calls (calls w ++ [DatasetAdd ds x]) w)) d0 Hd)
        as (samples & H1 & H2 & H3 & H4).
      exists samples. split_and!; [done..|].
      intros s Hs. destruct (H4 s Hs) as (it & Hit & Hp). exists it. split; [by right|done].
    + destruct (IH (with_datasets (<[ds := add_samples d0 [sample]]> (datasets w))
                      (with_calls (calls w ++ [DatasetAdd ds x]) w)) (add_samples d0 [sample]))
        as (samples & H1 & H2 & H3 & H4).
      { apply list_lookup_insert_eq. by eapply lookup_lt_Some. }
      exists (sample :: samples). split_and!; [done..| |].
      * rewrite H3. cbn. by rewrite list_insert_insert_eq, add_samples_cons.
      * intros s Hs. apply elem_of_cons in Hs as [->|Hs].
        -- exists x. split; [by left|done].
        -- destruct (H4 s Hs) as (it & Hit & Hp). exists it. split; [by right|done].
Qed.

Lemma pool_loop_frame D ds items : ∀ w d0,
  datasets w !! ds = Some d0 →
  ∃ samples,
    codecs (for_each items (pool_body D ds) w).2 = codecs w
    ∧ self (for_each items (pool_body D ds) w).2 = self w
    ∧ datasets (for_each items (pool_body D ds) w).2 =
        <[ds := add_samples d0 samples]> (datasets w)
    ∧ ∀ s, s ∈ samples → ∃ it, it ∈ items ∧ dc_parse D it = inr s.
Proof.
  induction items as [|x xs IH]; intros w d0 Hd.
  - exists []. cbn. rewrite add_samples_nil, list_insert_id by done.
    split_and!; [done..|]. intros s Hs. by apply elem_of_nil in Hs.
  - cbn [for_each]. unfold bind at 1 2 3. rewrite (pool_body_run _ _ _ _ _ Hd).
    assert (∃ samples, codecs w = codecs w ∧ self w = self w
              ∧ datasets w = <[ds := add_samples d0 samples]> (datasets w)
              ∧ ∀ s, s ∈ samples → ∃ it, it ∈ x :: xs ∧ dc_parse D it = inr s) as Hstop.
    { exists []. rewrite add_samples_nil, list_insert_id by done.
      split_and!; [done..|]. intros s Hs. by apply elem_of_nil in Hs. }
    destruct (dc_parse D x) as [e|sample] eqn:Hx; [destruct e; try exact Hstop|].
    + destruct (IH (mkWorld (codecs w) (datasets w) (self w) (calls w ++ [DatasetParse x])
                      (logged w ++ [(WARNING, m); (DEBUG, AddingSample None)])) d0 Hd)
        as (samples & H1 & H2 & H3 & H4).
      exists samples. split_and!; [done..|].
      intros s Hs. destruct (H4 s Hs) as (it & Hit & Hp). exists it. split; [by right|done].
    + destruct (IH (mkWorld (codecs w) (datasets w) (self w) (calls w ++ [DatasetParse x])
                      (logged w ++ [(WARNING, Skipping strerror filename);
                                    (DEBUG, AddingSample None)])) d0 Hd)
        as (samples & H1 & H2 & H3 & H4).
      exists samples. split_and!; [done..|].
      intros s Hs. destruct (H4 s Hs) as (it & Hit & Hp). exists it. split; [by right|done].
    + destruct (IH (mkWorld (codecs w) (<[ds := add_samples d0 [sample]]> (datasets w)) (self w)
                      (calls w ++ [DatasetParse x; DatasetAddParsed ds sample])
                      (logged w ++ [(DEBUG, AddingSample (Some sample))]))
                   (add_samples d0 [sample]))
        as (samples & H1 & H2 & H3 & H4).
      { apply list_lookup_insert_eq. by eapply lookup_lt_Some. }
      exists (sample :: samples). split_and!; [done..| |].
      * rewrite H3. cbn. by rewrite list_insert_insert_eq, add_samples_cons.
      * intros s Hs. apply elem_of_cons in Hs as [->|Hs].
        -- exists x. split; [by left|done].
        -- destruct (H4 s Hs) as (it & Hit & Hp). exists it. split; [by right|done].
Qed.

Lemma build_dataset_returns D completion data w :
  (∀ l, completion l ≡ₚ l) →
  (∀ x, x ∈ data → dropped_or_added w D x) →
  ∃ w' samples,
    _build_dataset D completion data w = (inr (length (datasets w)), w')
    ∧ codecs w' = codecs w
    ∧ self w' = self w
    ∧ datasets w' = datasets w ++ [add_samples (dc_empty D) samples]
    ∧ samples ≡ₚ parsed D data.
Proof.
  intros Hperm Hok. unfold dropped_or_added in Hok. destruct (uses_pool w) eqn:Hp.
  - eexists _, (parsed D (completion data)).
    split; [apply (build_dataset_pool_run _ _ _ _ Hp)|].
    + intros x Hx. apply Hok. by rewrite <- (Hperm data).
    + split_and!; [done..|]. unfold parsed. by rewrite (Hperm data).
  - eexists _, (parsed D data).
    split; [by apply (build_dataset_sequential_run _ _ _ _ Hp)|done].
Qed.

Lemma elem_of_pool_records_missing D items x strerror filename :
  x ∈ items → dc_parse D x = inl (FileNotFoundError strerror filename) →
  (WARNING, Skipping strerror filename) ∈ pool_records D items.
Proof.
  intros Hx Hp. unfold pool_records. apply list_elem_of_bind. exists x.
  split; [|done]. rewrite Hp. by left.
Qed.

Lemma elem_of_pool_records_malformed D items x m :
  x ∈ items → dc_parse D x = inl (KrakenInputException m) →
  (WARNING, m) ∈ pool_records D items.
Proof.
  intros Hx Hp. unfold pool_records. apply list_elem_of_bind. exists x.
  split; [|done]. rewrite Hp. by left.
Qed.

(** X1. Without a pool, an item whose parsing raises
    [KrakenInputException] is logged with a warning and left out, and the
    loop goes on: when no item raises anything else, [_build_dataset]
    returns a new dataset that holds the samples of the items that parse,
    in the order of the items, after one [add] per item, and the warnings
    logged are those of the malformed items, in order. Codecs, existing
    datasets and the attributes of the module are as before. *)
Theorem build_dataset_sequential_skips_malformed D completion data w :
  uses_pool w = false →
  (∀ x, x ∈ data → parses_or_malformed (dc_parse D x)) →
  let res := _build_dataset D completion data w in
  res.1 = inr (length (datasets w))
  ∧ datasets res.2 = datasets w ++ [add_samples (dc_empty D) (parsed D data)]
  ∧ logged res.2 = logged w ++ malformed_warnings D data
  ∧ calls res.2 = calls w ++ DatasetNew :: (DatasetAdd (length (datasets w)) <$> data)
  ∧ codecs res.2 = codecs w
  ∧ self res.2 = self w.
Proof.
  intros Hp Hok res. unfold res.
  by rewrite (build_dataset_sequential_run _ _ _ _ Hp Hok).
Qed.

(** X2. With a pool, an item whose parsing raises [FileNotFoundError] or
    [KrakenInputException] is logged by [_star_fun] and left out: when
    parsing raises nothing else, [_build_dataset] returns a new dataset
    whose samples are, up to the order in which the workers finish, those
    of the items that parse (what the loop without a pool collects), and
    every item that failed has its warning in the log. *)
Theorem build_dataset_pool_skips_failed D completion data w :
  uses_pool w = true →
  (∀ x, x ∈ data → recoverable (dc_parse D x)) →
  (∀ l, completion l ≡ₚ l) →
  let res := _build_dataset D completion data w in
  res.1 = inr (length (datasets w))
  ∧ (∃ samples,
       datasets res.2 = datasets w ++ [add_samples (dc_empty D) samples]
       ∧ samples ≡ₚ parsed D data)
  ∧ (∀ x strerror filename,
       x ∈ data → dc_parse D x = inl (FileNotFoundError strerror filename) →
       (WARNING, Skipping strerror filename) ∈ logged res.2)
  ∧ (∀ x m,
       x ∈ data → dc_parse D x = inl (KrakenInputException m) →
       (WARNING, m) ∈ logged res.2).
Proof.
  intros Hp Hok Hperm res. unfold res.
  rewrite (build_dataset_pool_run _ _ _ _ Hp);
    [|intros x Hx; apply Hok; by rewrite <- (Hperm data)].
  cbn [fst snd datasets logged]. split_and!; [done| | |].
  - exists (parsed D (completion data)). split; [done|].
    unfold parsed. by rewrite (Hperm data).
  - intros x strerror filename Hx Hpar. apply elem_of_app. right.
    eapply elem_of_pool_records_missing; [|done]. by rewrite (Hperm data).
  - intros x m Hx Hpar. apply elem_of_app. right.
    eapply elem_of_pool_records_malformed; [|done]. by rewrite (Hperm data).
Qed.

(** X3. Whatever it ends with, the dataset or an exception,
    [_build_dataset] touches nothing but the dataset it creates: the
    codecs and the attributes of the module are as before, the datasets
    that existed are unchanged, and the one new dataset holds only samples
    that parsing one of the given items has produced. *)
Theorem build_dataset_frame D completion data w :
  (∀ l, completion l ≡ₚ l) →
  let res := _build_dataset D completion data w in
  codecs res.2 = codecs w
  ∧ self res.2 = self w
  ∧ ∃ samples,
      datasets res.2 = datasets w ++ [add_samples (dc_empty D) samples]
      ∧ ∀ s, s ∈ samples → ∃ it, it ∈ data ∧ dc_parse D it = inr s.
Proof.
  intros Hperm res. unfold res. destruct (uses_pool w) eqn:Hp.
  - rewrite (build_dataset_pool _ _ _ _ Hp).
    destruct (pool_loop_frame D (length (datasets w)) (completion data)
                (with_calls (calls w ++ [DatasetNew; PoolOpen (default 0%Z (num_workers (self w)))])
                   (with_new_dataset D w)) (dc_empty D) (lookup_snoc _ _))
      as (samples & H1 & H2 & H3 & H4).
    destruct (for_each _ _ _) as [[e|[]] w']; cbn [fst snd] in *;
      (split_and!; [done..|]; exists samples; split;
       [rewrite H3; cbn; by rewrite insert_snoc
       |intros s Hs; destruct (H4 s Hs) as (it & Hit & Hpar); exists it;
        split; [by rewrite <- (Hperm data)|done]]).
  - rewrite (build_dataset_sequential _ _ _ _ Hp).
    destruct (sequential_loop_frame D (length (datasets w)) data (with_new_dataset D w)
                (dc_empty D) (lookup_snoc _ _))
      as (samples & H1 & H2 & H3 & H4).
    destruct (for_each _ _ _) as [[e|[]] w']; cbn [fst snd] in *;
      (split_and!; [done..|]; exists samples; split;
       [rewrite H3; cbn; by rewrite insert_snoc|done]).
Qed.

Lemma build_dataset_sequential_skips_malformed_witness :
  let w := under_construction codec_ab "fail" (Some "path") (Some 1%Z) in
  let res := _build_dataset line_images reverse ["ab.png"; "empty.png"; "ca.png"] w in
  uses_pool w = false
  ∧ (∀ x, x ∈ ["ab.png"; "empty.png"; "ca.png"] →
       parses_or_malformed (dc_parse line_images x))
  ∧ res.1 = inr 0
  ∧ datasets res.2 = [add_samples (dataset_of []) [["a"; "b"]; ["c"; "a"]]]
  ∧ logged res.2 = [(WARNING, Text "Text line is empty")]
  ∧ calls res.2 =
      [DatasetNew; DatasetAdd 0 "ab.png"; DatasetAdd 0 "empty.png"; DatasetAdd 0 "ca.png"].
Proof.
  intros w res.
  assert (∀ x, x ∈ ["ab.png"; "empty.png"; "ca.png"] →
            parses_or_malformed (dc_parse line_images x)) as Hok.
  { intros x Hx. repeat (apply elem_of_cons in Hx as [->|Hx]; [exact I|]).
    by apply elem_of_nil in Hx. }
  destruct (build_dataset_sequential_skips_malformed line_images reverse
              ["ab.png"; "empty.png"; "ca.png"] w eq_refl Hok)
    as (Hr & Hd & Hl & Hc & _).
  split_and!; [reflexivity|exact Hok|exact Hr|exact Hd|exact Hl|exact Hc].
Defined.

Lemma build_dataset_pool_skips_failed_witness :
  let w := under_construction codec_ab "fail" (Some "path") (Some 4%Z) in
  let res := _build_dataset line_images reverse ["ab.png"; "missing.png"; "empty.png"] w in
  uses_pool w = true
  ∧ (∀ x, x ∈ ["ab.png"; "missing.png"; "empty.png"] →
       recoverable (dc_parse line_images x))
  ∧ (∀ l : list item, reverse l ≡ₚ l)
  ∧ res.1 = inr 0
  ∧ (WARNING, Skipping "No such file or directory" "missing.png") ∈ logged res.2
  ∧ (WARNING, Text "Text line is empty") ∈ logged res.2.
Proof.
  intros w res.
  assert (∀ x, x ∈ ["ab.png"; "missing.png"; "empty.png"] →
            recoverable (dc_parse line_images x)) as Hok.
  { intros x Hx. repeat (apply elem_of_cons in Hx as [->|Hx]; [exact I|]).
    by apply elem_of_nil in Hx. }
  destruct (build_dataset_pool_skips_failed line_images reverse
              ["ab.png"; "missing.png"; "empty.png"] w eq_refl Hok
              (λ l, reverse_Permutation l))
    as (Hr & _ & Hmiss & Hmal).
  split_and!; [reflexivity|exact Hok|exact (λ l, reverse_Permutation l)|exact Hr| |].
  - apply (Hmiss "missing.png"); [by right; left|reflexivity].
  - apply (Hmal "empty.png"); [by right; right; left|reflexivity].
Defined.

Lemma build_dataset_frame_witness :
  let w := under_construction codec_ab "fail" (Some "path") (Some 1%Z) in
  let res := _build_dataset line_images reverse ["ab.png"; "missing.png"; "ca.png"] w in
  (∀ l : list item, reverse l ≡ₚ l)
  ∧ res.1 = inl (FileNotFoundError "No such file or directory" "missing.png")
  ∧ codecs res.2 = codecs w
  ∧ self res.2 = self w
  ∧ ∃ samples,
      datasets res.2 = datasets w ++ [add_samples (dataset_of []) samples]
      ∧ ∀ s, s ∈ samples →
          ∃ it, it ∈ ["ab.png"; "missing.png"; "ca.png"] ∧ dc_parse line_images it = inr s.
Proof.
  intros w res.
  destruct (build_dataset_frame line_images reverse ["ab.png"; "missing.png"; "ca.png"] w
              (λ l, reverse_Permutation l)) as (Hc & Hs & Hd).
  split_and!; [exact (λ l, reverse_Permutation l)|vm_compute; reflexivity|exact Hc|exact Hs|exact Hd].
Defined.

(** ** The constructor, from the datasets on *)

Lemma get_dataset_inr_inv r w d w' :
  get_dataset r w = (inr d, w') → w' = w ∧ datasets w !! r = Some d.
Proof.
  unfold get_dataset. destruct (datasets w !! r); [|done]. by intros [= <- <-].
Qed.

Lemma attr_inr_inv {A} name (o : option A) w a w' :
  attr name o w = (inr a, w') → o = Some a ∧ w' = w.
Proof. destruct o; [|done]. by intros [= <- <-]. Qed.

Lemma build_dataset_shape D completion data w :
  let res := _build_dataset D completion data w in
  codecs res.2 = codecs w
  ∧ self res.2 = self w
  ∧ (∃ d, datasets res.2 = datasets w ++ [d])
  ∧ (∀ ds, res.1 = inr ds → ds = length (datasets w)).
Proof.
  intros res. unfold res. destruct (uses_pool w) eqn:Hp.
  - rewrite (build_dataset_pool _ _ _ _ Hp).
    destruct (pool_loop_frame D (length (datasets w)) (completion data)
                (with_calls (calls w ++ [DatasetNew; PoolOpen (default 0%Z (num_workers (self w)))])
                   (with_new_dataset D w)) (dc_empty D) (lookup_snoc _ _))
      as (samples & H1 & H2 & H3 & _).
    destruct (for_each _ _ _) as [[e|[]] w']; cbn [fst snd] in *;
      (split_and!; [done..| |]; [eexists; rewrite H3; cbn; by rewrite insert_snoc|]);
      [done|by intros ? [= <-]].
  - rewrite (build_dataset_sequential _ _ _ _ Hp).
    destruct (sequential_loop_frame D (length (datasets w)) data (with_new_dataset D w)
                (dc_empty D) (lookup_snoc _ _))
      as (samples & H1 & H2 & H3 & _).
    destruct (for_each _ _ _) as [[e|[]] w']; cbn [fst snd] in *;
      (split_and!; [done..| |]; [eexists; rewrite H3; cbn; by rewrite insert_snoc|]);
      [done|by intros ? [= <-]].
Qed.

Lemma build_dataset_inr_inv D completion data w ds w' :
  _build_dataset D completion data w = (inr ds, w') →
  ds = length (datasets w) ∧ codecs w' = codecs w ∧ self w' = self w
  ∧ ∃ d, datasets w' = datasets w ++ [d].
Proof.
  intros H. destruct (build_dataset_shape D completion data w) as (H1 & H2 & H3 & H4).
  rewrite H in H1, H2, H3, H4. cbn [fst snd] in *. split_and!; [by apply H4|done..].
Qed.

Lemma mismatch_warnings_same d : mismatch_warnings d d = [].
Proof.
  unfold mismatch_warnings.
  replace (alphabet d ∖ alphabet d) with (∅ : gset string) by set_solver.
  by rewrite size_empty.
Qed.

Lemma init_datasets_inv a w0 w :
  init_datasets a w0 = (inr tt, w) →
  let L := length (datasets w0) in
  ∃ w1 td,
    _build_dataset (arg_DatasetClass a) (env_completion a) (arg_training_data a) w0 = (inr L, w1)
    ∧ datasets w1 = datasets w0 ++ [td]
    ∧ truthy_dict (arg_codec a) = false
    ∧ ((truthy_list (arg_evaluation_data a) = true
        ∧ ∃ w2 vd,
            _build_dataset (arg_DatasetClass a) (env_completion a)
              (default [] (arg_evaluation_data a))
              (mkWorld (codecs w1) (datasets w1)
                 (set_train_set (mkSubset L (seq 0 (length (gt td)))) (self w1))
                 (calls w1) (logged w1)) = (inr (S L), w2)
            ∧ datasets w2 = datasets w0 ++ [td; vd]
            ∧ length (gt td) ≠ 0 ∧ length (gt vd) ≠ 0
            ∧ w = mkWorld (codecs w0) (datasets w2)
                    (set_codec None
                       (set_val_set (mkSubset (S L) (seq 0 (length (gt vd))))
                          (set_train_set (mkSubset L (seq 0 (length (gt td)))) (self w0))))
                    (calls w2) (logged w2 ++ mismatch_warnings td vd))
       ∨ (truthy_list (arg_evaluation_data a) = false
          ∧ take (env_partition a (length (gt td))) (env_permutation a) ≠ []
          ∧ drop (env_partition a (length (gt td))) (env_permutation a) ≠ []
          ∧ w = mkWorld (codecs w0) (datasets w1)
                  (set_codec None
                     (set_val_set
                        (mkSubset L (drop (env_partition a (length (gt td))) (env_permutation a)))
                        (set_train_set
                           (mkSubset L (take (env_partition a (length (gt td))) (env_permutation a)))
                           (self w0))))
                  (calls w1)
                  (logged w1
                   ++ [(INFO, SplittingOff (length (gt td) - env_partition a (length (gt td)))
                                (length (gt td)))]))).
Proof.
  intros Hrun L. unfold init_datasets in Hrun.
  apply bind_inr_inv in Hrun as (ds & w1 & Hb & Hrun).
  destruct (build_dataset_inr_inv _ _ _ _ _ _ Hb) as (-> & Hc1 & Hs1 & td & Hd1).
  apply bind_inr_inv in Hrun as (td' & w1' & Hg & Hrun).
  apply get_dataset_inr_inv in Hg as [-> Hg].
  rewrite Hd1, lookup_snoc in Hg. injection Hg as <-.
  exists w1, td. split; [done|]. split; [done|].
  apply bind_inr_inv in Hrun as ([] & w2 & Hif & Hrun).
  apply bind_inr_inv in Hrun as (s & w2' & Hs & Hrun). injection Hs as <- <-.
  apply bind_inr_inv in Hrun as (ts & w2' & Hts & Hrun).
  apply attr_inr_inv in Hts as [Hts ->].
  apply bind_inr_inv in Hrun as (vs & w2' & Hvs & Hrun).
  apply attr_inr_inv in Hvs as [Hvs ->].
  destruct (Nat.eqb (length (indices ts)) 0 || Nat.eqb (length (indices vs)) 0) eqn:Hlen;
    [done|].
  apply orb_false_iff in Hlen as [Hlt Hlv].
  apply Nat.eqb_neq in Hlt, Hlv.
  apply bind_inr_inv in Hrun as (tds & w2' & Htds & Hrun).
  apply get_dataset_inr_inv in Htds as [-> Htds].
  apply bind_inr_inv in Hrun as (vds & w2' & Hvds & Hrun).
  apply get_dataset_inr_inv in Hvds as [-> Hvds].
  apply bind_inr_inv in Hrun as ([] & w3 & Hw1 & Hrun).
  apply bind_inr_inv in Hrun as ([] & w4 & Hw2 & Hrun).
  destruct (truthy_dict (arg_codec a)) eqn:Hdict; [done|].
  split; [done|].
  injection Hrun as <-.
  assert (w4 = mkWorld (codecs w2) (datasets w2) (self w2) (calls w2)
                 (logged w2 ++ mismatch_warnings tds vds)) as ->.
  { unfold mismatch_warnings.
    destruct (negb (Nat.eqb (size (alphabet tds ∖ alphabet vds)) 0));
      destruct (negb (Nat.eqb (size (alphabet vds ∖ alphabet tds)) 0));
      injection Hw1 as <-; injection Hw2 as <-; cbn;
      rewrite <- ?app_assoc, ?app_nil_r; by destruct w2. }
  cbn [codecs datasets self calls logged].
  destruct (truthy_list (arg_evaluation_data a)) eqn:Heval.
  - left. split; [done|].
    apply bind_inr_inv in Hif as ([] & wa & Hu & Hif). injection Hu as <-.
    apply bind_inr_inv in Hif as (vset & wb & Hb2 & Hif).
    exists wb.
    destruct (build_dataset_inr_inv _ _ _ _ _ _ Hb2) as (-> & Hc2 & Hs2 & vd & Hd2).
    cbn [codecs datasets self calls logged] in *.
    apply bind_inr_inv in Hif as (vd' & wb' & Hg2 & Hif).
    apply get_dataset_inr_inv in Hg2 as [-> Hg2].
    rewrite Hd2, lookup_snoc in Hg2. injection Hg2 as <-.
    injection Hif as <-. cbn [codecs datasets self calls logged] in *.
    exists vd. rewrite Hd1 in Hd2. rewrite <- app_assoc in Hd2. cbn [app] in Hd2.
    rewrite Hs2 in Hts, Hvs. cbn in Hts, Hvs.
    injection Hts as <-. injection Hvs as <-. cbn [indices dataset] in *.
    rewrite length_seq in Hlt, Hlv.
    rewrite Hd2 in Htds, Hvds.
    assert (length (datasets w1) = S (length (datasets w0))) as HL
      by (rewrite Hd1, length_app; cbn; lia).
    rewrite HL in Hvds, Hb2.
    assert (tds = td) as ->.
    { rewrite (lookup_app_r (datasets w0)) in Htds by done.
      rewrite Nat.sub_diag in Htds. by injection Htds. }
    assert (vds = vd) as ->.
    { rewrite (lookup_app_r (datasets w0)) in Hvds by lia.
      replace (S (length (datasets w0)) - length (datasets w0)) with 1 in Hvds by lia.
      by injection Hvds. }
    split_and!; [done..|].
    rewrite Hc2, Hc1, Hs2, Hs1, Hd2, HL. done.
  - right. split; [done|].
    apply bind_inr_inv in Hif as ([] & wa & Hu & Hif). injection Hu as <-.
    apply bind_inr_inv in Hif as ([] & wb & Hu & Hif). injection Hu as <-.
    injection Hif as <-. cbn [codecs datasets self calls logged] in *.
    injection Hts as <-. injection Hvs as <-. cbn [indices dataset] in *.
    assert (tds = td) as ->.
    { rewrite Hd1, lookup_snoc in Htds. by injection Htds. }
    assert (vds = td) as ->.
    { rewrite Hd1, lookup_snoc in Hvds. by injection Hvds. }
    split_and!; [intros Heq; by rewrite Heq in Hlt|intros Heq; by rewrite Heq in Hlv|].
    rewrite mismatch_warnings_same, app_nil_r, Hc1, Hs1. done.
Qed.

Lemma mismatch_warnings_training td vd :
  alphabet td ⊈ alphabet vd →
  (WARNING, OnlyInTraining (alphabet td ∖ alphabet vd)) ∈ mismatch_warnings td vd.
Proof.
  intros Hsub. unfold mismatch_warnings.
  destruct (Nat.eqb (size (alphabet td ∖ alphabet vd)) 0) eqn:Hs.
  - apply Nat.eqb_eq, size_empty_inv in Hs. exfalso. apply Hsub. set_solver.
  - cbn. by left.
Qed.

Lemma mismatch_warnings_validation td vd :
  alphabet vd ⊈ alphabet td →
  (WARNING, OnlyInValidation (alphabet vd ∖ alphabet td)) ∈ mismatch_warnings td vd.
Proof.
  intros Hsub. unfold mismatch_warnings. apply elem_of_app. right.
  destruct (Nat.eqb (size (alphabet vd ∖ alphabet td)) 0) eqn:Hs.
  - apply Nat.eqb_eq, size_empty_inv in Hs. exfalso. apply Hsub. set_solver.
  - cbn. by left.
Qed.

(** X4. When the constructor gets through the building of the datasets,
    the module has a training and a validation subset that are both
    non-empty and refer to datasets of the store, [self.codec] is [None],
    and neither the codecs nor the datasets that existed before have been
    touched. *)
Theorem init_datasets_postcondition a w0 w :
  init_datasets a w0 = (inr tt, w) →
  ∃ ts vs td vd,
    train_set (self w) = Some ts
    ∧ val_set (self w) = Some vs
    ∧ indices ts ≠ [] ∧ indices vs ≠ []
    ∧ datasets w !! dataset ts = Some td
    ∧ datasets w !! dataset vs = Some vd
    ∧ codec (self w) = None
    ∧ codecs w = codecs w0
    ∧ datasets w0 `prefix_of` datasets w
    ∧ nn (self w) = nn (self w0).
Proof.
  intros Hrun.
  destruct (init_datasets_inv _ _ _ Hrun) as (w1 & td & Hb & Hd1 & Hdict & Hcase).
  destruct Hcase as [(Heval & w2 & vd & Hb2 & Hd2 & Hlt & Hlv & ->)
                    |(Heval & Hlt & Hlv & ->)]; cbn.
  - eexists _, _, td, vd. split_and!; [done|done| | | | |done|done| |done].
    + cbn. intros Heq%(f_equal length). by rewrite length_seq in Heq.
    + cbn. intros Heq%(f_equal length). by rewrite length_seq in Heq.
    + cbn. rewrite Hd2. rewrite lookup_app_r by done. by rewrite Nat.sub_diag.
    + cbn. rewrite Hd2. rewrite lookup_app_r by lia.
      by replace (S (length (datasets w0)) - length (datasets w0)) with 1 by lia.
    + rewrite Hd2. by eexists.
  - eexists _, _, td, td. split_and!; [done|done|done|done| | |done|done| |done].
    + cbn. by rewrite Hd1, lookup_snoc.
    + cbn. by rewrite Hd1, lookup_snoc.
    + rewrite Hd1. by eexists.
Qed.

(** X7. The [codec] argument of the constructor cannot be used: with a
    non-empty dictionary, a construction that would get through without
    it ends with [AttributeError], raised by [codec.c2l.items()] on the
    dictionary (line 340), after [self.codec] has been assigned the new
    codec object. *)
Theorem init_datasets_codec_dict_fails a w0 w :
  init_datasets (without_codec a) w0 = (inr tt, w) →
  truthy_dict (arg_codec a) = true →
  init_datasets a w0 =
  (inl (AttributeError "c2l"),
   mkWorld (codecs w ++ [mkCodec (default ∅ (arg_codec a)) false]) (datasets w)
     (set_codec (Some (length (codecs w))) (self w)) (calls w) (logged w)).
Proof.
  intros Hrun Hdict. unfold init_datasets in *.
  cbn [without_codec arg_DatasetClass arg_training_data arg_evaluation_data arg_codec
       env_completion env_partition env_permutation truthy_dict] in Hrun.
  rewrite Hdict.
  unfold bind in *.
  repeat first
    [ progress cbv beta in *
    | match type of Hrun with
      | match ?x with _ => _ end = _ =>
          destruct x as [[?|?] ?]; [discriminate Hrun|]
      | (if ?b then _ else _) _ = _ => destruct b; [discriminate Hrun|]
      end ].
  injection Hrun as <-. reflexivity.
Qed.

(** The same for every outcome: with a non-empty dictionary the
    constructor never returns. *)
Lemma init_datasets_codec_dict_never_returns a w0 :
  truthy_dict (arg_codec a) = true → (init_datasets a w0).1 ≠ inr tt.
Proof.
  intros Hdict Hrun. destruct (init_datasets a w0) as [r w] eqn:Hinit.
  cbn in Hrun. subst r.
  apply init_datasets_inv in Hinit as (? & ? & _ & _ & Hfalse & _). congruence.
Qed.

(** X5. A grapheme that only one of the two datasets contains does not
    stop the constructor, it is reported: when the construction gets
    through, the log holds a warning naming the clusters found in the
    training set only, and one naming those found in the validation set
    only, whenever there are such clusters. *)
Theorem init_datasets_reports_mismatch a w0 w ts vs td vd :
  init_datasets a w0 = (inr tt, w) →
  train_set (self w) = Some ts →
  val_set (self w) = Some vs →
  datasets w !! dataset ts = Some td →
  datasets w !! dataset vs = Some vd →
  (alphabet td ⊈ alphabet vd →
   (WARNING, OnlyInTraining (alphabet td ∖ alphabet vd)) ∈ logged w)
  ∧ (alphabet vd ⊈ alphabet td →
     (WARNING, OnlyInValidation (alphabet vd ∖ alphabet td)) ∈ logged w).
Proof.
  intros Hrun Hts Hvs Htd Hvd.
  destruct (init_datasets_inv _ _ _ Hrun) as (w1 & td' & Hb & Hd1 & Hdict & Hcase).
  destruct Hcase as [(Heval & w2 & vd' & Hb2 & Hd2 & Hlt & Hlv & ->)
                    |(Heval & Hlt & Hlv & ->)]; cbn in Hts, Hvs, Htd, Hvd |- *;
    injection Hts as <-; injection Hvs as <-; cbn in Htd, Hvd.
  - rewrite Hd2 in Htd, Hvd.
    rewrite lookup_app_r, Nat.sub_diag in Htd by done.
    rewrite lookup_app_r in Hvd by lia.
    replace (S (length (datasets w0)) - length (datasets w0)) with 1 in Hvd by lia.
    injection Htd as <-. injection Hvd as <-.
    split; intros Hsub; apply elem_of_app; right.
    + by apply mismatch_warnings_training.
    + by apply mismatch_warnings_validation.
  - rewrite Hd1, lookup_snoc in Htd, Hvd. injection Htd as <-. injection Hvd as <-.
    split; intros Hsub; by destruct Hsub.
Qed.

(** X6. Without evaluation data the two subsets are cut out of one and
    the same dataset, along the permutation [random_split] draws, and the
    check of the alphabets has nothing to compare: the split is announced
    at level INFO, and once the dataset is built the constructor gives no
    warning, whatever the ground truth. *)
Theorem init_datasets_split_shares_dataset a w0 w :
  init_datasets a w0 = (inr tt, w) →
  truthy_list (arg_evaluation_data a) = false →
  ∃ w1 td,
    let L := length (datasets w0) in
    let train_len := env_partition a (length (gt td)) in
    _build_dataset (arg_DatasetClass a) (env_completion a) (arg_training_data a) w0
      = (inr L, w1)
    ∧ datasets w = datasets w0 ++ [td]
    ∧ train_set (self w) = Some (mkSubset L (take train_len (env_permutation a)))
    ∧ val_set (self w) = Some (mkSubset L (drop train_len (env_permutation a)))
    ∧ (INFO, SplittingOff (length (gt td) - train_len) (length (gt td))) ∈ logged w
    ∧ warnings (logged w) = warnings (logged w1).
Proof.
  intros Hrun Heval.
  destruct (init_datasets_inv _ _ _ Hrun) as (w1 & td & Hb & Hd1 & Hdict & Hcase).
  destruct Hcase as [(Heval' & _)|(_ & Hlt & Hlv & ->)]; [congruence|].
  exists w1, td. cbn. rewrite Hd1. split_and!; try done.
  - apply elem_of_app. right. by apply list_elem_of_singleton.
  - unfold warnings. rewrite omap_app. cbn. by rewrite app_nil_r.
Qed.

Lemma dropped_or_added_self w w' D x :
  self w' = self w ∨ (∃ ts, self w' = set_train_set ts (self w)) →
  dropped_or_added w D x → dropped_or_added w' D x.
Proof.
  unfold dropped_or_added, uses_pool. by intros [->|[ts ->]].
Qed.

(** X8. With evaluation data given, the constructor refuses to go on
    when one of the two datasets comes out empty: if no training item
    yields a sample, or no evaluation item does (every item was dropped;
    a dataset class starts without samples), it raises [ValueError]
    ("No valid training data was provided"). *)
Theorem init_datasets_no_samples a w0 :
  let D := arg_DatasetClass a in
  (∀ l, env_completion a l ≡ₚ l) →
  gt (dc_empty D) = [] →
  (∀ x, x ∈ arg_training_data a → dropped_or_added w0 D x) →
  (∀ x, x ∈ default [] (arg_evaluation_data a) → dropped_or_added w0 D x) →
  truthy_list (arg_evaluation_data a) = true →
  parsed D (arg_training_data a) = []
  ∨ parsed D (default [] (arg_evaluation_data a)) = [] →
  (init_datasets a w0).1 = inl (ValueError NoValidTrainingData).
Proof.
  intros D Hperm Hempty Htrain Heval Hev Hnone.
  destruct (build_dataset_returns D (env_completion a) (arg_training_data a) w0 Hperm Htrain)
    as (w1 & samples & Hb & Hc1 & Hs1 & Hd1 & Hp1).
  unfold init_datasets. fold D.
  unfold bind at 1. rewrite Hb.
  unfold bind at 1, get_dataset at 1. rewrite Hd1, lookup_snoc.
  unfold bind at 1. rewrite Hev.
  unfold bind at 1, update_self at 1.
  set (w1' := mkWorld _ _ _ _ _).
  destruct (build_dataset_returns D (env_completion a)
              (default [] (arg_evaluation_data a)) w1' Hperm)
    as (w2 & vsamples & Hb2 & Hc2 & Hs2 & Hd2 & Hp2).
  { intros x Hx. eapply dropped_or_added_self; [|by apply Heval].
    right. eexists. unfold w1'. cbn. by rewrite Hs1. }
  unfold bind at 1. rewrite Hb2.
  unfold bind at 1, get_dataset at 1. rewrite Hd2. unfold w1' at 1. cbn [datasets].
  rewrite lookup_snoc.
  unfold update_self at 1.
  unfold bind at 1, get_self at 1. cbn [self].
  rewrite Hs2. unfold w1' at 1 2. cbn [self train_set val_set set_val_set set_train_set].
  unfold bind at 1, attr at 1, ret at 1.
  unfold bind at 1, attr at 1, ret at 1.
  cbn [indices]. rewrite !length_seq.
  cbn [add_samples gt]. rewrite Hempty. cbn [app].
  rewrite (Permutation_length Hp1), (Permutation_length Hp2).
  destruct Hnone as [->| ->]; cbn [length Nat.eqb orb]; [done|].
  by rewrite orb_true_r.
Qed.

(** X9. Without evaluation data the same error is raised when the split
    leaves one side empty: [random_split] permutes the [n] samples of the
    dataset, and if [int(n * partition)] is 0 or [n] (as it is for a
    single sample, and for none), one of the two subsets has no element
    and the constructor raises [ValueError]. *)
Theorem init_datasets_split_one_sided a w0 :
  let D := arg_DatasetClass a in
  let n := length (gt (dc_empty D)) + length (parsed D (arg_training_data a)) in
  (∀ l, env_completion a l ≡ₚ l) →
  (∀ x, x ∈ arg_training_data a → dropped_or_added w0 D x) →
  truthy_list (arg_evaluation_data a) = false →
  length (env_permutation a) = n →
  env_partition a n = 0 ∨ env_partition a n = n →
  (init_datasets a w0).1 = inl (ValueError NoValidTrainingData).
Proof.
  intros D n Hperm Htrain Hev Hlen Hside.
  destruct (build_dataset_returns D (env_completion a) (arg_training_data a) w0 Hperm Htrain)
    as (w1 & samples & Hb & Hc1 & Hs1 & Hd1 & Hp1).
  unfold init_datasets. fold D.
  unfold bind at 1. rewrite Hb.
  unfold bind at 1, get_dataset at 1. rewrite Hd1, lookup_snoc.
  unfold bind at 1. rewrite Hev.
  unfold bind at 1. unfold bind at 1, logger at 1.
  unfold bind at 1, update_self at 1. unfold update_self at 1.
  unfold bind at 1, get_self at 1.
  cbn [self train_set val_set set_val_set set_train_set].
  unfold bind at 1, attr at 1, ret at 1.
  unfold bind at 1, attr at 1, ret at 1.
  cbn [indices add_samples gt].
  rewrite length_app, (Permutation_length Hp1). fold n.
  rewrite length_take, length_drop, Hlen.
  destruct Hside as [->| ->].
  - done.
  - rewrite Nat.sub_diag. cbn. by rewrite orb_true_r.
Qed.

Ltac items_ok :=
  let x := fresh "x" in let Hx := fresh "Hx" in
  intros x Hx;
  repeat (apply elem_of_cons in Hx as [->|Hx]; [vm_compute; exact I|]);
  by apply elem_of_nil in Hx.

Lemma init_datasets_postcondition_witness :
  let a := line_image_args ["ab.png"; "ca.png"] ["ab.png"] in
  let w0 := under_construction codec_ab "fail" (Some "path") (Some 1%Z) in
  let w := (init_datasets a w0).2 in
  init_datasets a w0 = (inr tt, w)
  ∧ ∃ ts vs td vd,
      train_set (self w) = Some ts
      ∧ val_set (self w) = Some vs
      ∧ indices ts ≠ [] ∧ indices vs ≠ []
      ∧ datasets w !! dataset ts = Some td
      ∧ datasets w !! dataset vs = Some vd
      ∧ codec (self w) = None
      ∧ codecs w = codecs w0
      ∧ datasets w0 `prefix_of` datasets w
      ∧ nn (self w) = nn (self w0).
Proof.
  intros a w0 w.
  assert (init_datasets a w0 = (inr tt, w)) as Hinit by (vm_compute; reflexivity).
  split; [exact Hinit|]. exact (init_datasets_postcondition a w0 w Hinit).
Defined.

Lemma init_datasets_reports_mismatch_witness :
  let a := line_image_args ["ab.png"] ["ca.png"] in
  let w0 := under_construction codec_ab "fail" (Some "path") (Some 1%Z) in
  let w := (init_datasets a w0).2 in
  init_datasets a w0 = (inr tt, w)
  ∧ train_set (self w) = Some (mkSubset 0 [0])
  ∧ val_set (self w) = Some (mkSubset 1 [0])
  ∧ datasets w !! 0 = Some (dataset_of [["a"; "b"]])
  ∧ datasets w !! 1 = Some (dataset_of [["c"; "a"]])
  ∧ (WARNING, OnlyInTraining {["b"]}) ∈ logged w
  ∧ (WARNING, OnlyInValidation {["c"]}) ∈ logged w.
Proof.
  intros a w0 w.
  assert (init_datasets a w0 = (inr tt, w)) as Hinit by (vm_compute; reflexivity).
  destruct (init_datasets_reports_mismatch a w0 w (mkSubset 0 [0]) (mkSubset 1 [0])
              (dataset_of [["a"; "b"]]) (dataset_of [["c"; "a"]]) Hinit
              eq_refl eq_refl eq_refl eq_refl) as [Ht Hv].
  assert (alphabet (dataset_of [["a"; "b"]]) ∖ alphabet (dataset_of [["c"; "a"]])
          = ({["b"]} : gset string)) as Hdt by (vm_compute; reflexivity).
  assert (alphabet (dataset_of [["c"; "a"]]) ∖ alphabet (dataset_of [["a"; "b"]])
          = ({["c"]} : gset string)) as Hdv by (vm_compute; reflexivity).
  rewrite Hdt in Ht. rewrite Hdv in Hv.
  split_and!; [exact Hinit|reflexivity..| |].
  - apply Ht. apply (bool_decide_unpack _). vm_compute. exact I.
  - apply Hv. apply (bool_decide_unpack _). vm_compute. exact I.
Defined.

Lemma init_datasets_split_shares_dataset_witness :
  let a := line_image_split ["ab.png"; "ca.png"] [1; 0] in
  let w0 := under_construction codec_ab "fail" (Some "path") (Some 1%Z) in
  let w := (init_datasets a w0).2 in
  init_datasets a w0 = (inr tt, w)
  ∧ truthy_list (arg_evaluation_data a) = false
  ∧ train_set (self w) = Some (mkSubset 0 [1])
  ∧ val_set (self w) = Some (mkSubset 0 [0])
  ∧ (INFO, SplittingOff 1 2) ∈ logged w
  ∧ warnings (logged w) = []
  ∧ ∃ w1 td,
      _build_dataset line_images reverse ["ab.png"; "ca.png"] w0 = (inr 0, w1)
      ∧ datasets w = datasets w0 ++ [td]
      ∧ (INFO, SplittingOff (length (gt td) - (length (gt td) * 9) `div` 10)
                 (length (gt td))) ∈ logged w
      ∧ warnings (logged w) = warnings (logged w1).
Proof.
  intros a w0 w.
  assert (init_datasets a w0 = (inr tt, w)) as Hinit by (vm_compute; reflexivity).
  destruct (init_datasets_split_shares_dataset a w0 w Hinit eq_refl)
    as (w1 & td & Hb & Hd & _ & _ & Hl & Hw).
  split_and!; [exact Hinit|reflexivity|vm_compute; reflexivity..| |vm_compute; reflexivity|].
  - apply list_elem_of_singleton. reflexivity.
  - exists w1, td. split_and!; [exact Hb|exact Hd|exact Hl|exact Hw].
Defined.

Lemma init_datasets_codec_dict_fails_witness :
  let a := line_image_codec_args ["ab.png"] ["ab.png"] {["a" := [0]; "b" := [1]]} in
  let w0 := under_construction codec_ab "fail" (Some "path") (Some 1%Z) in
  let w := (init_datasets (without_codec a) w0).2 in
  init_datasets (without_codec a) w0 = (inr tt, w)
  ∧ truthy_dict (arg_codec a) = true
  ∧ (init_datasets a w0).1 = inl (AttributeError "c2l")
  ∧ codec (self (init_datasets a w0).2) = Some 1.
Proof.
  intros a w0 w.
  assert (init_datasets (without_codec a) w0 = (inr tt, w)) as Hinit
    by (vm_compute; reflexivity).
  assert (truthy_dict (arg_codec a) = true) as Hdict by (vm_compute; reflexivity).
  pose proof (init_datasets_codec_dict_fails a w0 w Hinit Hdict) as Hrun.
  split_and!; [exact Hinit|exact Hdict|by rewrite Hrun|by rewrite Hrun].
Defined.

Lemma init_datasets_no_samples_witness :
  let a := line_image_args ["empty.png"] ["ab.png"] in
  let w0 := under_construction codec_ab "fail" (Some "path") (Some 1%Z) in
  (∀ l : list item, env_completion a l ≡ₚ l)
  ∧ gt (dc_empty (arg_DatasetClass a)) = []
  ∧ (∀ x, x ∈ arg_training_data a → dropped_or_added w0 (arg_DatasetClass a) x)
  ∧ (∀ x, x ∈ default [] (arg_evaluation_data a) →
       dropped_or_added w0 (arg_DatasetClass a) x)
  ∧ truthy_list (arg_evaluation_data a) = true
  ∧ parsed (arg_DatasetClass a) (arg_training_data a) = []
  ∧ (init_datasets a w0).1 = inl (ValueError NoValidTrainingData).
Proof.
  intros a w0.
  assert (∀ l : list item, env_completion a l ≡ₚ l) as Hperm
    by (intros l; apply reverse_Permutation).
  assert (∀ x, x ∈ arg_training_data a → dropped_or_added w0 (arg_DatasetClass a) x)
    as Htrain by items_ok.
  assert (∀ x, x ∈ default [] (arg_evaluation_data a) →
            dropped_or_added w0 (arg_DatasetClass a) x) as Heval by items_ok.
  split_and!; [exact Hperm|reflexivity|exact Htrain|exact Heval|reflexivity|reflexivity|].
  exact (init_datasets_no_samples a w0 Hperm eq_refl Htrain Heval eq_refl (or_introl eq_refl)).
Defined.

Lemma init_datasets_split_one_sided_witness :
  let a := line_image_split ["ab.png"] [0] in
  let w0 := under_construction codec_ab "fail" (Some "path") (Some 1%Z) in
  (∀ l : list item, env_completion a l ≡ₚ l)
  ∧ (∀ x, x ∈ arg_training_data a → dropped_or_added w0 (arg_DatasetClass a) x)
  ∧ truthy_list (arg_evaluation_data a) = false
  ∧ length (env_permutation a) = 1
  ∧ env_partition a 1 = 0
  ∧ (init_datasets a w0).1 = inl (ValueError NoValidTrainingData).
Proof.
  intros a w0.
  assert (∀ l : list item, env_completion a l ≡ₚ l) as Hperm
    by (intros l; apply reverse_Permutation).
  assert (∀ x, x ∈ arg_training_data a → dropped_or_added w0 (arg_DatasetClass a) x)
    as Htrain by items_ok.
  split_and!; [exact Hperm|exact Htrain|reflexivity|reflexivity|reflexivity|].
  exact (init_datasets_split_one_sided a w0 Hperm Htrain eq_refl eq_refl (or_introl eq_refl)).
Defined.

(** ** [setup] when nothing has to be reconciled, and for a new model *)

Lemma finish_run w n r c vs vd tv ts td :
  val_set (self w) = Some vs →
  nn (self w) = Some n →
  nn_codec n = Some r →
  codecs w !! r = Some c →
  datasets w !! dataset vs = Some vd →
  encode_lines c (gt vd) = inr tv →
  train_set (self w) = Some ts →
  datasets w !! dataset ts = Some td →
  finish w =
  let w1 := with_datasets
              (<[dataset vs := mkDataset (gt vd) (Some r) tv (im_mode vd) (seg_type vd)]>
                 (datasets w))
              (with_calls (calls w ++ [DatasetEncode (dataset vs) (Some r)]) w) in
  if other_channel_mode n td then (inl (NameError "nn"), w1)
  else
    (inr tt,
     mkWorld (codecs w1) (datasets w1)
       (set_rec_nn (set_nn (finished_network (self w) n td) (self w)))
       (calls w1) (logged w ++ bbox_warning (self w) n)).
Proof.
  intros Hvs Hn Hnc Hc Hvd Henc Hts Htd.
  unfold finish, bind at 1, get_self at 1. rewrite Hvs.
  unfold bind at 1, attr at 1, ret at 1. rewrite Hn.
  unfold bind at 1, attr at 1, ret at 1. rewrite Hnc.
  unfold bind at 1. rewrite (dataset_encode_with _ _ _ _ _ Hvd Hc), Henc.
  unfold with_datasets, with_calls. cbv zeta. store_simpl.
  unfold bind at 1, get_self at 1. store_simpl. rewrite Hn.
  unfold bind at 1, attr at 1, ret at 1. rewrite Hts.
  unfold bind at 1, attr at 1, ret at 1.
  unfold bind at 1, get_dataset at 1. store_simpl.
  assert (∃ td', (<[dataset vs := mkDataset (gt vd) (Some r) tv (im_mode vd) (seg_type vd)]>
                    (datasets w)) !! dataset ts = Some td'
                 ∧ im_mode td' = im_mode td ∧ seg_type td' = seg_type td)
    as (td' & -> & Him & Hsg).
  { destruct (decide (dataset vs = dataset ts)) as [Heq|Hne].
    - rewrite Heq in *. rewrite Htd in Hvd. injection Hvd as <-.
      eexists. split; [apply list_lookup_insert_eq; by eapply lookup_lt_Some|done].
    - exists td. by rewrite list_lookup_insert_ne. }
  unfold other_channel_mode, finished_network, bbox_warning. rewrite Him, Hsg.
  cbv zeta.
  destruct (truthy_str (one_channel_mode n)
            && negb (bool_decide (Some (im_mode td) = one_channel_mode n))).
  - reflexivity.
  - unfold bind at 1, ret at 1.
    destruct (negb (bool_decide (format_type (self w) = Some "path"))
              && bool_decide (nn_seg_type n = Some "bbox"));
      unfold bind, logger, update_self, ret; store_simpl; rewrite ?app_nil_r; reflexivity.
Qed.

Lemma other_channel_mode_im_mode n d d' :
  im_mode d' = im_mode d → other_channel_mode n d' = other_channel_mode n d.
Proof. unfold other_channel_mode. by intros ->. Qed.

Lemma finished_network_seg_type s n d d' :
  seg_type d' = seg_type d → finished_network s n d' = finished_network s n d.
Proof. unfold finished_network. by intros ->. Qed.

Lemma setup_load_compatible_run stage w n r c ts d r0 c0 vs vd vtargets :
  load_state stage w n r c ts d →
  alphabet d ⊆ dom (c2l c) →
  nn_codec n = Some r0 →
  (<[r := make_strict c]> (codecs w)) !! r0 = Some c0 →
  val_set (self w) = Some vs →
  datasets w !! dataset vs = Some vd →
  encode_lines c0 (gt vd) = inr vtargets →
  ∃ targets,
    encode_lines (make_strict c) (gt d) = inr targets
    ∧ setup stage w =
      let D1 := mkDataset (gt d) (Some r) targets (im_mode d) (seg_type d) in
      let V1 := mkDataset (gt vd) (Some r0) vtargets (im_mode vd) (seg_type vd) in
      let w1 := mkWorld (<[r := make_strict c]> (codecs w))
                  (<[dataset vs := V1]> (<[dataset ts := D1]> (datasets w))) (self w)
                  (calls w ++ [DatasetEncode (dataset ts) (Some r);
                               DatasetEncode (dataset vs) (Some r0)])
                  (logged w) in
      if other_channel_mode n d then (inl (NameError "nn"), w1)
      else
        (inr tt,
         mkWorld (codecs w1) (datasets w1)
           (set_rec_nn (set_nn (finished_network (self w) n d) (self w)))
           (calls w1) (logged w ++ bbox_warning (self w) n)).
Proof.
  intros Hl Hsub Hnc Hc0 Hvs Hvd Hvenc.
  destruct (prepare_load_compatible _ _ _ _ _ _ _ Hl Hsub) as (targets & Henc & Hp).
  exists targets. split; [done|].
  destruct Hl as [Hst Ha Hm Hn Hg He Hc Ht Hd].
  rewrite (setup_prepare_returns _ _ _ Hst Hp).
  assert (dataset ts < length (datasets w)) as Hlt by (by eapply lookup_lt_Some).
  set (D1 := mkDataset (gt d) (Some r) targets (im_mode d) (seg_type d)).
  assert (∃ vd1, (<[dataset ts := D1]> (datasets w)) !! dataset vs = Some vd1
                 ∧ gt vd1 = gt vd ∧ im_mode vd1 = im_mode vd ∧ seg_type vd1 = seg_type vd)
    as (vd1 & Hvd1 & Hg1 & Hi1 & Hs1).
  { destruct (decide (dataset vs = dataset ts)) as [Heq|Hne].
    - rewrite Heq in *. rewrite Hd in Hvd. injection Hvd as <-.
      exists D1. split; [by apply list_lookup_insert_eq|done].
    - exists vd. by rewrite list_lookup_insert_ne. }
  rewrite (finish_run _ n r0 c0 vs vd1 vtargets ts D1); try done.
  - cbv zeta. unfold after_first_encode, with_datasets, with_calls, with_codecs. store_simpl.
    rewrite Hg1, Hi1, Hs1, <- app_assoc.
    rewrite (other_channel_mode_im_mode n d D1 eq_refl).
    rewrite (finished_network_seg_type (self w) n d D1 eq_refl).
    reflexivity.
  - by rewrite Hg1.
  - unfold with_datasets. store_simpl. by apply list_lookup_insert_eq.
Qed.

Lemma other_channel_mode_false n d :
  (truthy_str (one_channel_mode n) = true → one_channel_mode n = Some (im_mode d)) →
  other_channel_mode n d = false.
Proof.
  intros H. unfold other_channel_mode.
  destruct (truthy_str (one_channel_mode n)); [|done].
  rewrite H by done. by rewrite bool_decide_eq_true_2.
Qed.

Lemma other_channel_mode_true n d :
  truthy_str (one_channel_mode n) = true →
  one_channel_mode n ≠ Some (im_mode d) →
  other_channel_mode n d = true.
Proof.
  intros H1 H2. unfold other_channel_mode. rewrite H1.
  by rewrite bool_decide_eq_false_2.
Qed.

Lemma finished_network_fields s n d :
  output (finished_network s n d) = output n
  ∧ nn_codec (finished_network s n d) = nn_codec n
  ∧ nn_spec (finished_network s n d) = nn_spec n
  ∧ one_channel_mode (finished_network s n d) = one_channel_mode n
  ∧ hyper_params (finished_network s n d) = hparams s
  ∧ model_type (finished_network s n d) = Some "recognition"
  ∧ user_metadata (finished_network s n d) !! "seg_type"
    = Some (default (seg_type d) (user_metadata n !! "seg_type"))
  ∧ ∀ k, k ≠ "seg_type" →
      user_metadata (finished_network s n d) !! k = user_metadata n !! k.
Proof.
  unfold finished_network. cbn.
  destruct (user_metadata n !! "seg_type") eqn:Hu; cbn.
  - split_and!; done.
  - split_and!; try done.
    + by rewrite lookup_insert_eq.
    + intros k Hk. by rewrite lookup_insert_ne.
Qed.

(** X10. The loading state with nothing to reconcile: when the network's
    own codec is the effective codec and covers the alphabets of both the
    training and the validation set, and the image mode fits, [setup]
    returns. Both datasets have been encoded against the network's codec,
    which now is strict and otherwise unchanged; the output layer, the
    spec and the codec reference of the network are as loaded; the
    network carries the module's hyper-parameters and the model type
    ['recognition'], its metadata has a [seg_type] (its own if it had
    one, the training set's otherwise), and the recognizer is set up.
    Among the calls made are the two [encode]s; no codec is extended or
    merged, no network is built or appended to, no codec is attached and
    the output layer is not resized. *)
Theorem setup_load_compatible_returns stage w n r c ts d vs vd :
  load_state stage w n r c ts d →
  nn_codec n = Some r →
  alphabet d ⊆ dom (c2l c) →
  val_set (self w) = Some vs →
  datasets w !! dataset vs = Some vd →
  alphabet vd ⊆ dom (c2l c) →
  (truthy_str (one_channel_mode n) = true → one_channel_mode n = Some (im_mode d)) →
  ∃ w' n' targets vtargets,
    setup stage w = (inr tt, w')
    ∧ codecs w' = <[r := make_strict c]> (codecs w)
    ∧ encode_lines (make_strict c) (gt d) = inr targets
    ∧ encode_lines (make_strict c) (gt vd) = inr vtargets
    ∧ datasets w' !! dataset ts
      = Some (mkDataset (gt d) (Some r) targets (im_mode d) (seg_type d))
    ∧ datasets w' !! dataset vs
      = Some (mkDataset (gt vd) (Some r) vtargets (im_mode vd) (seg_type vd))
    ∧ nn (self w') = Some n'
    ∧ output n' = output n
    ∧ nn_codec n' = Some r
    ∧ nn_spec n' = nn_spec n
    ∧ hyper_params n' = hparams (self w)
    ∧ model_type n' = Some "recognition"
    ∧ user_metadata n' !! "seg_type"
      = Some (default (seg_type d) (user_metadata n !! "seg_type"))
    ∧ rec_nn (self w') = true
    ∧ net (self w') = true
    ∧ ∃ new,
        calls w' = calls w ++ new
        ∧ DatasetEncode (dataset ts) (Some r) ∈ new
        ∧ DatasetEncode (dataset vs) (Some r) ∈ new
        ∧ Forall (λ k, builds_or_changes k = false) new.
Proof.
  intros Hl Hnc Hsub Hvs Hvd Hvsub Hmode.
  destruct (encode_lines_covered (make_strict c) (gt vd) Hvsub) as [vtargets Hvenc].
  destruct (setup_load_compatible_run stage w n r c ts d r (make_strict c) vs vd vtargets
              Hl Hsub Hnc) as (targets & Henc & Hrun); try done.
  { destruct Hl. apply list_lookup_insert_eq. by eapply lookup_lt_Some. }
  rewrite (other_channel_mode_false _ _ Hmode) in Hrun. cbv zeta in Hrun.
  destruct (finished_network_fields (self w) n d) as (F1 & F2 & F3 & F4 & F5 & F6 & F7 & F8).
  destruct Hl as [Hst Ha Hm Hn Hg He Hc Ht Hd].
  assert (dataset ts < length (datasets w)) as Hlt by (by eapply lookup_lt_Some).
  assert (dataset vs < length (datasets w)) as Hlv by (by eapply lookup_lt_Some).
  eexists _, (finished_network (self w) n d), targets, vtargets.
  split; [exact Hrun|]. store_simpl.
  split_and!; try done.
  - destruct (decide (dataset vs = dataset ts)) as [Heq|Hne].
    + rewrite Heq in *. rewrite Hd in Hvd. injection Hvd as <-.
      rewrite Henc in Hvenc. injection Hvenc as <-.
      apply list_lookup_insert_eq. by rewrite length_insert.
    + rewrite list_lookup_insert_ne by done. by apply list_lookup_insert_eq.
  - apply list_lookup_insert_eq. by rewrite length_insert.
  - by rewrite F2.
  - eexists. split; [reflexivity|]. split_and!.
    + by left.
    + by right; left.
    + by repeat constructor.
Qed.

(** X11. A network that records a one-channel mode other than the image
    mode of the training set does not get the warning the code means to
    log: the f-string of line 480 reads [nn], which is no name of the
    function or of the module, so [setup] ends with [NameError] after
    both datasets were encoded; the network is left as loaded (no
    hyper-parameters, no recognizer) and nothing has been logged. *)
Theorem setup_channel_mode_name_error stage w n r c ts d vs vd :
  load_state stage w n r c ts d →
  nn_codec n = Some r →
  alphabet d ⊆ dom (c2l c) →
  val_set (self w) = Some vs →
  datasets w !! dataset vs = Some vd →
  alphabet vd ⊆ dom (c2l c) →
  truthy_str (one_channel_mode n) = true →
  one_channel_mode n ≠ Some (im_mode d) →
  (setup stage w).1 = inl (NameError "nn")
  ∧ self (setup stage w).2 = self w
  ∧ logged (setup stage w).2 = logged w
  ∧ calls (setup stage w).2 = calls w ++ [DatasetEncode (dataset ts) (Some r);
                                          DatasetEncode (dataset vs) (Some r)].
Proof.
  intros Hl Hnc Hsub Hvs Hvd Hvsub Hset Hother.
  destruct (encode_lines_covered (make_strict c) (gt vd) Hvsub) as [vtargets Hvenc].
  destruct (setup_load_compatible_run stage w n r c ts d r (make_strict c) vs vd vtargets
              Hl Hsub Hnc) as (targets & Henc & Hrun); try done.
  { destruct Hl. apply list_lookup_insert_eq. by eapply lookup_lt_Some. }
  rewrite (other_channel_mode_true _ _ Hset Hother) in Hrun. cbv zeta in Hrun.
  by rewrite Hrun.
Qed.

(** X12. A codec given explicitly that already covers the training
    alphabet is never attached to the network. When the effective codec
    is not the network's own (so the policy is [both] and the codec is
    the one given), the training set encodes against it and the
    validation set, held in a dataset of its own, encodes against the
    network's codec, [setup] returns with the training set encoded by the
    given codec and the validation set by the network's; the network
    keeps its codec and its output layer, and its codec is not even made
    strict. *)
Theorem setup_given_codec_not_attached stage w n r c ts d r0 c0 vs vd vtargets :
  load_state stage w n r c ts d →
  nn_codec n = Some r0 →
  r0 ≠ r →
  codecs w !! r0 = Some c0 →
  alphabet d ⊆ dom (c2l c) →
  val_set (self w) = Some vs →
  dataset vs ≠ dataset ts →
  datasets w !! dataset vs = Some vd →
  encode_lines c0 (gt vd) = inr vtargets →
  (truthy_str (one_channel_mode n) = true → one_channel_mode n = Some (im_mode d)) →
  ∃ w' n' targets,
    setup stage w = (inr tt, w')
    ∧ resize (self w) = "both"
    ∧ codec (self w) = Some r
    ∧ nn (self w') = Some n'
    ∧ nn_codec n' = Some r0
    ∧ output n' = output n
    ∧ codecs w' !! r0 = Some c0
    ∧ codecs w' !! r = Some (make_strict c)
    ∧ datasets w' !! dataset ts
      = Some (mkDataset (gt d) (Some r) targets (im_mode d) (seg_type d))
    ∧ datasets w' !! dataset vs
      = Some (mkDataset (gt vd) (Some r0) vtargets (im_mode vd) (seg_type vd))
    ∧ calls w' = calls w ++ [DatasetEncode (dataset ts) (Some r);
                             DatasetEncode (dataset vs) (Some r0)].
Proof.
  intros Hl Hnc Hne Hc0 Hsub Hvs Hds Hvd Hvenc Hmode.
  destruct (setup_load_compatible_run stage w n r c ts d r0 c0 vs vd vtargets
              Hl Hsub Hnc) as (targets & Henc & Hrun); try done.
  { by rewrite list_lookup_insert_ne. }
  rewrite (other_channel_mode_false _ _ Hmode) in Hrun. cbv zeta in Hrun.
  destruct (finished_network_fields (self w) n d) as (F1 & F2 & F3 & F4 & F5 & F6 & F7 & F8).
  destruct Hl as [Hst Ha Hm Hn Hg He Hc Ht Hd].
  assert (dataset ts < length (datasets w)) as Hlt by (by eapply lookup_lt_Some).
  assert (dataset vs < length (datasets w)) as Hlv by (by eapply lookup_lt_Some).
  assert (resize (self w) = "both" ∧ codec (self w) = Some r) as [Hboth Hgiven].
  { unfold effective_codec in He. rewrite Hn in He. cbn in He.
    destruct (codec_truth w (codec (self w)) && String.eqb (resize (self w)) "both") eqn:Hb;
      [|congruence].
    apply andb_true_iff in Hb as [_ Hb]. by apply String.eqb_eq in Hb. }
  eexists _, (finished_network (self w) n d), targets.
  split; [exact Hrun|]. store_simpl.
  split_and!; try done.
  - by rewrite F2.
  - by rewrite list_lookup_insert_ne.
  - apply list_lookup_insert_eq. by eapply lookup_lt_Some.
  - rewrite list_lookup_insert_ne by done. by apply list_lookup_insert_eq.
  - apply list_lookup_insert_eq. by rewrite length_insert.
Qed.

Lemma prepare_fresh w ts d sp :
  truthy_int (append (self w)) = false →
  truthy_str (model (self w)) = false →
  codec (self w) = None →
  spec (self w) = Some sp →
  train_set (self w) = Some ts →
  datasets w !! dataset ts = Some d →
  ∃ targets,
    encode_lines (codec_of_alphabet (alphabet d)) (gt d) = inr targets
    ∧ prepare w =
      let K := codec_of_alphabet (alphabet d) in
      let L := length (codecs w) in
      let sp' := with_output_layer sp (max_label K + 1) in
      (inr tt,
       mkWorld (codecs w ++ [K])
         (<[dataset ts := mkDataset (gt d) (Some L) targets (im_mode d) (seg_type d)]>
            (datasets w))
         (set_nn (set_nn_codec L (new_network sp')) (set_spec sp' (self w)))
         (calls w ++ [DatasetEncode (dataset ts) None; NNNew sp'; NNAddCodec L])
         (logged w ++ [(INFO, CreatingModel sp (max_label K + 1))])).
Proof.
  intros Ha Hm Hcodec Hsp Hts Hd.
  destruct (dataset_encode_fresh w (dataset ts) d Hd) as (targets & Henc & Hrun).
  exists targets. split; [done|].
  assert (dataset ts < length (datasets w)) as Hlt by (by eapply lookup_lt_Some).
  unfold prepare, bind at 1, get_self at 1. rewrite Ha, Hm.
  unfold fresh_branch. rewrite Hts, Hcodec, Hsp.
  unfold bind at 1, attr at 1, ret at 1.
  unfold bind at 1. rewrite Hrun.
  unfold with_datasets, with_codecs, with_calls.
  unfold bind at 1, attr at 1, ret at 1.
  unfold bind at 1, get_dataset at 1. store_simpl.
  rewrite list_lookup_insert_eq by done.
  unfold bind at 1, attr at 1, ret at 1. cbn [ds_codec].
  unfold bind at 1, get_codec at 1. store_simpl. rewrite lookup_snoc.
  unfold bind at 1, logger at 1. store_simpl.
  unfold bind at 1, update_self at 1. store_simpl.
  unfold bind at 1, called at 1. store_simpl.
  unfold bind at 1, update_self at 1. store_simpl.
  unfold nn_add_codec, bind at 1, get_self at 1. store_simpl.
  unfold bind at 1. cbn [nn set_nn attr]. unfold ret at 1.
  unfold bind at 1, called at 1. store_simpl. unfold update_self. store_simpl.
  cbv zeta. rewrite <- !app_assoc. reflexivity.
Qed.

Lemma setup_new_model_run stage w ts d vs vd sp :
  stage_in_None_fit stage = true →
  truthy_int (append (self w)) = false →
  truthy_str (model (self w)) = false →
  codec (self w) = None →
  spec (self w) = Some sp →
  train_set (self w) = Some ts →
  datasets w !! dataset ts = Some d →
  val_set (self w) = Some vs →
  datasets w !! dataset vs = Some vd →
  ∃ targets vtargets,
    let K := codec_of_alphabet (alphabet d) in
    let L := length (codecs w) in
    let sp' := with_output_layer sp (max_label K + 1) in
    let D1 := mkDataset (gt d) (Some L) targets (im_mode d) (seg_type d) in
    let V1 := mkDataset (gt vd) (Some L) vtargets (im_mode vd) (seg_type vd) in
    let N1 := set_nn_codec L (new_network sp') in
    let S1 := set_nn N1 (set_spec sp' (self w)) in
    encode_lines K (gt d) = inr targets
    ∧ encode_lines K (gt vd) = inr vtargets
    ∧ setup stage w =
      (inr tt,
       mkWorld (codecs w ++ [K])
         (<[dataset vs := V1]> (<[dataset ts := D1]> (datasets w)))
         (set_rec_nn (set_nn (finished_network S1 N1 D1) S1))
         (calls w ++ [DatasetEncode (dataset ts) None; NNNew sp'; NNAddCodec L;
                      DatasetEncode (dataset vs) (Some L)])
         (logged w ++ [(INFO, CreatingModel sp (max_label K + 1))])).
Proof.
  intros Hst Ha Hm Hcodec Hsp Hts Hd Hvs Hvd.
  destruct (prepare_fresh w ts d sp Ha Hm Hcodec Hsp Hts Hd) as (targets & Henc & Hp).
  cbv zeta in Hp.
  set (K := codec_of_alphabet (alphabet d)) in *.
  set (L := length (codecs w)) in *.
  set (sp' := with_output_layer sp (max_label K + 1)) in *.
  destruct (encode_lines_lenient K (gt vd) eq_refl) as [vtargets Hvenc].
  exists targets, vtargets. cbv zeta. split; [done|]. split; [done|].
  rewrite (setup_prepare_returns _ _ _ Hst Hp).
  assert (dataset ts < length (datasets w)) as Hlt by (by eapply lookup_lt_Some).
  set (D1 := mkDataset (gt d) (Some L) targets (im_mode d) (seg_type d)).
  assert (∃ vd1, (<[dataset ts := D1]> (datasets w)) !! dataset vs = Some vd1
                 ∧ gt vd1 = gt vd ∧ im_mode vd1 = im_mode vd ∧ seg_type vd1 = seg_type vd)
    as (vd1 & Hvd1 & Hg1 & Hi1 & Hs1).
  { destruct (decide (dataset vs = dataset ts)) as [Heq|Hne].
    - rewrite Heq in *. rewrite Hd in Hvd. injection Hvd as <-.
      exists D1. split; [by apply list_lookup_insert_eq|done].
    - exists vd. by rewrite list_lookup_insert_ne. }
  rewrite (finish_run _ (set_nn_codec L (new_network sp')) L K vs vd1 vtargets ts D1);
    try done; [|apply lookup_snoc|by rewrite Hg1|by apply list_lookup_insert_eq].
  cbv zeta. unfold with_datasets, with_calls. store_simpl.
  change (other_channel_mode (set_nn_codec L (new_network sp')) D1) with false.
  cbv iota. rewrite Hg1, Hi1, Hs1, <- app_assoc.
  unfold bbox_warning.
  change (nn_seg_type (set_nn_codec L (new_network sp'))) with (@None string).
  rewrite (bool_decide_eq_false_2 (None = Some "bbox")) by done.
  by rewrite andb_false_r, app_nil_r.
Qed.

(** X13. A new model (no append point, no model file, no codec given):
    [setup] builds the codec from the alphabet of the training set,
    extends the spec by an output layer with [max_label + 1] classes,
    creates the network from it and attaches the very codec object the
    training set was encoded with. The validation set is encoded against
    that codec, which is not strict: whatever graphemes it contains,
    [setup] returns. *)
Theorem setup_new_model stage w ts d vs vd sp :
  stage_in_None_fit stage = true →
  truthy_int (append (self w)) = false →
  truthy_str (model (self w)) = false →
  codec (self w) = None →
  spec (self w) = Some sp →
  train_set (self w) = Some ts →
  datasets w !! dataset ts = Some d →
  val_set (self w) = Some vs →
  datasets w !! dataset vs = Some vd →
  let K := codec_of_alphabet (alphabet d) in
  let L := length (codecs w) in
  let sp' := with_output_layer sp (max_label K + 1) in
  ∃ w' n' targets vtargets,
    setup stage w = (inr tt, w')
    ∧ codecs w' = codecs w ++ [K]
    ∧ dom (c2l K) = alphabet d
    ∧ strict K = false
    ∧ spec (self w') = Some sp'
    ∧ nn (self w') = Some n'
    ∧ nn_spec n' = sp'
    ∧ nn_codec n' = Some L
    ∧ hyper_params n' = hparams (self w)
    ∧ model_type n' = Some "recognition"
    ∧ datasets w' !! dataset ts
      = Some (mkDataset (gt d) (Some L) targets (im_mode d) (seg_type d))
    ∧ datasets w' !! dataset vs
      = Some (mkDataset (gt vd) (Some L) vtargets (im_mode vd) (seg_type vd))
    ∧ encode_lines K (gt d) = inr targets
    ∧ encode_lines K (gt vd) = inr vtargets
    ∧ calls w' = calls w ++ [DatasetEncode (dataset ts) None; NNNew sp'; NNAddCodec L;
                             DatasetEncode (dataset vs) (Some L)].
Proof.
  intros Hst Ha Hm Hcodec Hsp Hts Hd Hvs Hvd K L sp'.
  destruct (setup_new_model_run stage w ts d vs vd sp Hst Ha Hm Hcodec Hsp Hts Hd Hvs Hvd)
    as (targets & vtargets & Henc & Hvenc & Hrun).
  cbv zeta in Henc, Hvenc, Hrun. fold K L sp' in Henc, Hvenc, Hrun.
  assert (dataset ts < length (datasets w)) as Hlt by (by eapply lookup_lt_Some).
  assert (dataset vs < length (datasets w)) as Hlv by (by eapply lookup_lt_Some).
  match type of Hrun with
  | _ = (_, mkWorld _ _ (set_rec_nn (set_nn ?n' _)) _ _) =>
      exists (setup stage w).2, n', targets, vtargets
  end.
  rewrite Hrun. store_simpl.
  match goal with
  | |- context [finished_network ?s ?n ?td] =>
      destruct (finished_network_fields s n td) as (F1 & F2 & F3 & F4 & F5 & F6 & F7 & F8)
  end.
  split_and!; try done.
  - apply dom_codec_of_alphabet.
  - destruct (decide (dataset vs = dataset ts)) as [Heq|Hne].
    + rewrite Heq in *. rewrite Hd in Hvd. injection Hvd as <-.
      rewrite Henc in Hvenc. injection Hvenc as <-.
      apply list_lookup_insert_eq. by rewrite length_insert.
    + rewrite list_lookup_insert_ne by done. by apply list_lookup_insert_eq.
  - apply list_lookup_insert_eq. by rewrite length_insert.
Qed.

(** X25. [setup] is not idempotent for a new model. Each call takes the
    new-model branch again, because the test is on [self.model], the
    path given to the constructor, not on the network: a second call
    builds a second codec and asks for a new network with a second
    output layer added to [self.spec], which the first call has
    rewritten in place. *)
Theorem setup_twice_new_model stage w ts d vs vd sp :
  stage_in_None_fit stage = true →
  truthy_int (append (self w)) = false →
  truthy_str (model (self w)) = false →
  codec (self w) = None →
  spec (self w) = Some sp →
  train_set (self w) = Some ts →
  datasets w !! dataset ts = Some d →
  val_set (self w) = Some vs →
  datasets w !! dataset vs = Some vd →
  let outputs := max_label (codec_of_alphabet (alphabet d)) + 1 in
  ∃ w',
    let w'' := (setup stage w').2 in
    setup stage w = (inr tt, w')
    ∧ spec (self w') = Some (with_output_layer sp outputs)
    ∧ spec (self w'') = Some (with_output_layer (with_output_layer sp outputs) outputs)
    ∧ length (codecs w'') = length (codecs w) + 2
    ∧ (calls w
       ++ [DatasetEncode (dataset ts) None; NNNew (with_output_layer sp outputs);
           NNAddCodec (length (codecs w)); DatasetEncode (dataset vs) (Some (length (codecs w)));
           DatasetEncode (dataset ts) None;
           NNNew (with_output_layer (with_output_layer sp outputs) outputs)])
      `prefix_of` calls w''.
Proof.
  intros Hst Ha Hm Hcodec Hsp Hts Hd Hvs Hvd outputs.
  destruct (setup_new_model_run stage w ts d vs vd sp Hst Ha Hm Hcodec Hsp Hts Hd Hvs Hvd)
    as (targets & vtargets & Henc & Hvenc & Hrun).
  cbv zeta in Henc, Hvenc, Hrun. fold outputs in Hrun.
  assert (dataset ts < length (datasets w)) as Hlt by (by eapply lookup_lt_Some).
  assert (dataset vs < length (datasets w)) as Hlv by (by eapply lookup_lt_Some).
  set (w' := (setup stage w).2).
  assert (setup stage w = (inr tt, w')) as Hrun' by (unfold w'; by rewrite Hrun).
  assert (∃ d', datasets w' !! dataset ts = Some d' ∧ gt d' = gt d) as (d' & Hd' & Hgd).
  { unfold w'. rewrite Hrun. store_simpl.
    destruct (decide (dataset vs = dataset ts)) as [Heq|Hne].
    - rewrite Heq in *. rewrite Hd in Hvd. injection Hvd as <-.
      eexists. split; [apply list_lookup_insert_eq; by rewrite length_insert|done].
    - eexists. rewrite list_lookup_insert_ne by done.
      split; [by apply list_lookup_insert_eq|done]. }
  assert (∃ vd', datasets w' !! dataset vs = Some vd') as (vd' & Hvd').
  { unfold w'. rewrite Hrun. store_simpl.
    eexists. apply list_lookup_insert_eq. by rewrite length_insert. }
  assert (alphabet d' = alphabet d) as Halpha by (unfold alphabet; by rewrite Hgd).
  assert (self w' = set_rec_nn
                      (set_nn
                         (finished_network
                            (set_nn (set_nn_codec (length (codecs w))
                                       (new_network (with_output_layer sp outputs)))
                               (set_spec (with_output_layer sp outputs) (self w)))
                            (set_nn_codec (length (codecs w))
                               (new_network (with_output_layer sp outputs)))
                            (mkDataset (gt d) (Some (length (codecs w))) targets (im_mode d)
                               (seg_type d)))
                         (set_nn (set_nn_codec (length (codecs w))
                                    (new_network (with_output_layer sp outputs)))
                            (set_spec (with_output_layer sp outputs) (self w))))) as Hself
    by (unfold w'; by rewrite Hrun).
  destruct (setup_new_model_run stage w' ts d' vs vd' (with_output_layer sp outputs) Hst)
    as (targets2 & vtargets2 & _ & _ & Hrun2);
    [by rewrite Hself|by rewrite Hself|by rewrite Hself|by rewrite Hself|by rewrite Hself
    |done|by rewrite Hself|done|].
  cbv zeta in Hrun2. rewrite Halpha in Hrun2. fold outputs in Hrun2.
  exists w'. cbv zeta.
  split; [done|]. rewrite Hrun2. store_simpl.
  split_and!; try done.
  - unfold w'. by rewrite Hrun.
  - unfold w'. rewrite Hrun. store_simpl. rewrite !length_app. cbn. lia.
  - unfold w'. rewrite Hrun. store_simpl.
    rewrite length_app, <- !app_assoc. cbn [length app].
    apply prefix_app, prefix_cons, prefix_cons, prefix_cons, prefix_cons, prefix_cons,
      prefix_cons, prefix_nil.
Qed.

Lemma setup_load_compatible_returns_witness :
  let w := compatible "fail" in
  load_state None w (loaded_network codec_ab) 0 codec_ab
    (mkSubset 0 [0]) (dataset_of [["a"; "b"]])
  ∧ alphabet (dataset_of [["a"; "b"]]) ⊆ dom (c2l codec_ab)
  ∧ (setup None w).1 = inr tt
  ∧ ∃ w' n' targets vtargets,
      setup None w = (inr tt, w')
      ∧ codecs w' = [make_strict codec_ab]
      ∧ encode_lines (make_strict codec_ab) [["a"; "b"]] = inr targets
      ∧ encode_lines (make_strict codec_ab) [["a"; "b"]] = inr vtargets
      ∧ datasets w' !! 0 = Some (mkDataset [["a"; "b"]] (Some 0) targets "L" None)
      ∧ datasets w' !! 1 = Some (mkDataset [["a"; "b"]] (Some 0) vtargets "L" None)
      ∧ nn (self w') = Some n'
      ∧ output n' = [Trained 0; Trained 1]
      ∧ nn_codec n' = Some 0
      ∧ nn_spec n' = "[1,48,0,1 Cr3,3,32 Mp2,2 O1c2]"
      ∧ hyper_params n' = ∅
      ∧ model_type n' = Some "recognition"
      ∧ user_metadata n' !! "seg_type" = Some None
      ∧ rec_nn (self w') = true
      ∧ net (self w') = true
      ∧ ∃ new,
          calls w' = new
          ∧ DatasetEncode 0 (Some 0) ∈ new
          ∧ DatasetEncode 1 (Some 0) ∈ new
          ∧ Forall (λ k, builds_or_changes k = false) new.
Proof.
  intros w.
  assert (load_state None w (loaded_network codec_ab) 0 codec_ab
            (mkSubset 0 [0]) (dataset_of [["a"; "b"]])) as Hl by (split; concrete).
  assert (alphabet (dataset_of [["a"; "b"]]) ⊆ dom (c2l codec_ab)) as Hsub by concrete.
  split_and!; [exact Hl|exact Hsub|vm_compute; reflexivity|].
  exact (setup_load_compatible_returns None w _ _ _ _ _ (mkSubset 1 [0])
           (dataset_of [["a"; "b"]]) Hl eq_refl Hsub eq_refl eq_refl Hsub
           (λ H : false = true, False_ind _ (Bool.diff_false_true H))).
Defined.

Lemma setup_channel_mode_name_error_witness :
  let w := bitonal_network in
  (∃ n, load_state None w n 0 codec_ab (mkSubset 0 [0]) (dataset_of [["a"; "b"]])
        ∧ one_channel_mode n = Some "1")
  ∧ im_mode (dataset_of [["a"; "b"]]) = "L"
  ∧ (setup None w).1 = inl (NameError "nn")
  ∧ self (setup None w).2 = self w
  ∧ logged (setup None w).2 = []
  ∧ calls (setup None w).2 = [DatasetEncode 0 (Some 0); DatasetEncode 1 (Some 0)].
Proof.
  intros w.
  set (n := mkNN (Some 0) "[1,48,0,1 Cr3,3,32 Mp2,2 O1c2]" [Trained 0; Trained 1]
                 (Some "1") None (Some "recognition") ∅ ∅).
  assert (load_state None w n 0 codec_ab (mkSubset 0 [0]) (dataset_of [["a"; "b"]])) as Hl
    by (split; concrete).
  assert (alphabet (dataset_of [["a"; "b"]]) ⊆ dom (c2l codec_ab)) as Hsub by concrete.
  destruct (setup_channel_mode_name_error None w n 0 codec_ab (mkSubset 0 [0])
              (dataset_of [["a"; "b"]]) (mkSubset 1 [0]) (dataset_of [["a"; "b"]])
              Hl eq_refl Hsub eq_refl eq_refl Hsub eq_refl)
    as (Hr & Hs & Hlog & Hc); [discriminate|].
  split_and!; [by exists n|reflexivity|exact Hr|exact Hs|exact Hlog|exact Hc].
Defined.

Lemma setup_given_codec_not_attached_witness :
  let w := given_codec "both" in
  load_state None w (loaded_network codec_ab) 1 codec_abx
    (mkSubset 0 [0]) (dataset_of [["a"; "b"]])
  ∧ nn_codec (loaded_network codec_ab) = Some 0
  ∧ alphabet (dataset_of [["a"; "b"]]) ⊆ dom (c2l codec_abx)
  ∧ ∃ w' n' targets,
      setup None w = (inr tt, w')
      ∧ resize (self w) = "both"
      ∧ codec (self w) = Some 1
      ∧ nn (self w') = Some n'
      ∧ nn_codec n' = Some 0
      ∧ output n' = [Trained 0; Trained 1]
      ∧ codecs w' !! 0 = Some codec_ab
      ∧ codecs w' !! 1 = Some (make_strict codec_abx)
      ∧ datasets w' !! 0 = Some (mkDataset [["a"; "b"]] (Some 1) targets "L" None)
      ∧ datasets w' !! 1 = Some (mkDataset [["a"; "b"]] (Some 0) [[0; 1]] "L" None)
      ∧ calls w' = [DatasetEncode 0 (Some 1); DatasetEncode 1 (Some 0)].
Proof.
  intros w.
  assert (load_state None w (loaded_network codec_ab) 1 codec_abx
            (mkSubset 0 [0]) (dataset_of [["a"; "b"]])) as Hl by (split; concrete).
  assert (alphabet (dataset_of [["a"; "b"]]) ⊆ dom (c2l codec_abx)) as Hsub by concrete.
  split_and!; [exact Hl|reflexivity|exact Hsub|].
  refine (setup_given_codec_not_attached None w _ _ _ _ _ 0 codec_ab (mkSubset 1 [0])
            (dataset_of [["a"; "b"]]) [[0; 1]] Hl eq_refl _ eq_refl Hsub eq_refl _ eq_refl _
            (λ H : false = true, False_ind _ (Bool.diff_false_true H)));
    [discriminate|discriminate|vm_compute; reflexivity].
Defined.

Lemma setup_new_model_witness :
  let w := new_model [["a"; "b"]] [["a"; "c"]] in
  stage_in_None_fit None = true
  ∧ truthy_int (append (self w)) = false
  ∧ truthy_str (model (self w)) = false
  ∧ (setup None w).1 = inr tt
  ∧ ∃ w' n' targets vtargets,
      setup None w = (inr tt, w')
      ∧ codecs w' = [codec_of_alphabet {["a"; "b"]}]
      ∧ spec (self w') = Some "[1,48,0,1 Cr3,3,32 Mp2,2 O1c2]"
      ∧ nn (self w') = Some n'
      ∧ nn_codec n' = Some 0
      ∧ datasets w' !! 0 = Some (mkDataset [["a"; "b"]] (Some 0) targets "L" None)
      ∧ datasets w' !! 1 = Some (mkDataset [["a"; "c"]] (Some 0) vtargets "L" None)
      ∧ vtargets = [[0]].
Proof.
  intros w.
  destruct (setup_new_model None w (mkSubset 0 [0]) (dataset_of [["a"; "b"]])
              (mkSubset 1 [0]) (dataset_of [["a"; "c"]]) "[1,48,0,1 Cr3,3,32 Mp2,2]"
              eq_refl eq_refl eq_refl eq_refl eq_refl eq_refl eq_refl eq_refl eq_refl)
    as (w' & n' & targets & vtargets & Hrun & Hc & _ & _ & Hsp & Hn & _ & Hnc & _ & _
        & Hd & Hv & _ & Hvenc & _).
  split_and!; [reflexivity..|by rewrite Hrun|].
  exists w', n', targets, vtargets.
  split_and!; [exact Hrun| | |exact Hn|exact Hnc|exact Hd|exact Hv|].
  - rewrite Hc. vm_compute. reflexivity.
  - rewrite Hsp. vm_compute. reflexivity.
  - assert (encode_lines (codec_of_alphabet (alphabet (dataset_of [["a"; "b"]])))
              (gt (dataset_of [["a"; "c"]])) = inr [[0]]) as He by (vm_compute; reflexivity).
    rewrite He in Hvenc. by injection Hvenc.
Defined.

(** X24. The constructor hands [setup] the loading state, and always
    with the network's own codec. When the module is constructed around
    a loaded network (a model file, no append point) and the datasets get
    built, the store [setup] starts from has the training set and its
    dataset in place and [self.codec] is [None]: the codec [setup]
    reconciles against is the codec of the network, under policy [both]
    too. *)
Theorem init_datasets_establishes_load_state a w0 w stage n r c :
  init_datasets a w0 = (inr tt, w) →
  stage_in_None_fit stage = true →
  truthy_int (append (self w0)) = false →
  truthy_str (model (self w0)) = true →
  nn (self w0) = Some n →
  nn_codec n = Some r →
  codecs w0 !! r = Some c →
  ∃ ts d,
    load_state stage w n r c ts d
    ∧ codec (self w) = None
    ∧ effective_codec w = nn_codec n
    ∧ resize (self w) = resize (self w0).
Proof.
  intros Hrun Hst Ha Hm Hn Hnc Hc.
  destruct (init_datasets_inv _ _ _ Hrun) as (w1 & td & Hb & Hd1 & Hdict & Hcase).
  destruct Hcase as [(Heval & w2 & vd & Hb2 & Hd2 & Hlt & Hlv & ->)
                    |(Heval & Hlt & Hlv & ->)].
  - eexists _, td.
    assert (effective_codec
              (mkWorld (codecs w0) (datasets w2)
                 (set_codec None
                    (set_val_set (mkSubset (S (length (datasets w0))) (seq 0 (length (gt vd))))
                       (set_train_set (mkSubset (length (datasets w0)) (seq 0 (length (gt td))))
                          (self w0))))
                 (calls w2) (logged w2 ++ mismatch_warnings td vd)) = Some r) as Heff.
    { unfold effective_codec. cbn. by rewrite Hn. }
    split_and!; [|done|by rewrite Heff|done].
    split; cbn; try done.
    cbn. rewrite Hd2. rewrite lookup_app_r by done. by rewrite Nat.sub_diag.
  - eexists _, td.
    set (k := env_partition a (length (gt td))) in *.
    assert (effective_codec
              (mkWorld (codecs w0) (datasets w1)
                 (set_codec None
                    (set_val_set (mkSubset (length (datasets w0)) (drop k (env_permutation a)))
                       (set_train_set (mkSubset (length (datasets w0)) (take k (env_permutation a)))
                          (self w0))))
                 (calls w1)
                 (logged w1 ++ [(INFO, SplittingOff (length (gt td) - k) (length (gt td)))]))
            = Some r) as Heff.
    { unfold effective_codec. cbn. by rewrite Hn. }
    split_and!; [|done|by rewrite Heff|done].
    split; cbn; try done.
    cbn. by rewrite Hd1, lookup_snoc.
Qed.

Lemma init_datasets_establishes_load_state_witness :
  let a := line_image_args ["ab.png"; "ca.png"] ["ab.png"] in
  let w0 := under_construction codec_abx "both" (Some "path") (Some 1%Z) in
  let w := (init_datasets a w0).2 in
  init_datasets a w0 = (inr tt, w)
  ∧ truthy_str (model (self w0)) = true
  ∧ nn (self w0) = Some (loaded_network codec_abx)
  ∧ codecs w0 !! 0 = Some codec_abx
  ∧ resize (self w) = "both"
  ∧ ∃ ts d,
      load_state None w (loaded_network codec_abx) 0 codec_abx ts d
      ∧ codec (self w) = None
      ∧ effective_codec w = Some 0.
Proof.
  intros a w0 w.
  assert (init_datasets a w0 = (inr tt, w)) as Hinit by (vm_compute; reflexivity).
  destruct (init_datasets_establishes_load_state a w0 w None (loaded_network codec_abx) 0
              codec_abx Hinit eq_refl eq_refl eq_refl eq_refl eq_refl eq_refl)
    as (ts & d & Hl & Hc & He & Hr).
  split_and!; [exact Hinit|reflexivity|reflexivity|reflexivity|exact Hr|].
  exists ts, d. split_and!; [exact Hl|exact Hc|exact He].
Defined.

Lemma setup_twice_new_model_witness :
  let w := new_model [["a"; "b"]] [["a"; "c"]] in
  stage_in_None_fit None = true
  ∧ truthy_str (model (self w)) = false
  ∧ spec (self w) = Some "[1,48,0,1 Cr3,3,32 Mp2,2]"
  ∧ ∃ w',
      setup None w = (inr tt, w')
      ∧ spec (self w') = Some "[1,48,0,1 Cr3,3,32 Mp2,2 O1c2]"
      ∧ spec (self (setup None w').2) = Some "[1,48,0,1 Cr3,3,32 Mp2,2 O1c2 O1c2]"
      ∧ length (codecs (setup None w').2) = 2.
Proof.
  intros w.
  destruct (setup_twice_new_model None w (mkSubset 0 [0]) (dataset_of [["a"; "b"]])
              (mkSubset 1 [0]) (dataset_of [["a"; "c"]]) "[1,48,0,1 Cr3,3,32 Mp2,2]"
              eq_refl eq_refl eq_refl eq_refl eq_refl eq_refl eq_refl eq_refl eq_refl)
    as (w' & Hrun & Hsp & Hsp2 & Hlen & _).
  split_and!; [reflexivity..|].
  exists w'. split_and!; [exact Hrun| | |exact Hlen].
  - rewrite Hsp. vm_compute. reflexivity.
  - rewrite Hsp2. vm_compute. reflexivity.
Defined.

(** ** The trainer *)

(** X14. The [callbacks] argument of [KrakenTrainer] is dropped: it is a
    parameter of [__init__], so it is never found in [kwargs], and the
    parameter itself is not read. The base class gets the progress bar
    as its only callback when the progress bar is enabled, and no
    [callbacks] argument at all when it is not, whatever callbacks the
    caller has passed. *)
Theorem trainer_init_drops_callbacks callbacks enable_progress_bar min_epochs max_epochs kwargs :
  (∀ p, p ∈ KrakenTrainer_init_parameters → kwargs !! p = None) →
  ∃ kw,
    KrakenTrainer_init callbacks enable_progress_bar min_epochs max_epochs kwargs = inr kw
    ∧ kw !! "callbacks" = (if enable_progress_bar then Some progress_bar_cb else None).
Proof.
  intros Hbind.
  assert (kwargs !! "callbacks" = None) as Hcb by (apply Hbind; by left).
  unfold KrakenTrainer_init. cbv zeta.
  rewrite !lookup_insert_ne by done. rewrite Hcb.
  destruct enable_progress_bar; eexists; (split; [reflexivity|]).
  - by rewrite lookup_insert_eq.
  - by rewrite !lookup_insert_ne.
Qed.

(** X15. Whatever the caller passes, the base class is constructed with
    [logger] and [enable_checkpointing] switched off and with the values
    of the three named parameters; every other keyword argument is
    handed on unchanged. *)
Theorem trainer_init_overrides callbacks enable_progress_bar min_epochs max_epochs kwargs kw :
  KrakenTrainer_init callbacks enable_progress_bar min_epochs max_epochs kwargs = inr kw →
  kw !! "logger" = Some (KBool false)
  ∧ kw !! "enable_checkpointing" = Some (KBool false)
  ∧ kw !! "enable_progress_bar" = Some (KBool enable_progress_bar)
  ∧ kw !! "min_epochs" = Some min_epochs
  ∧ kw !! "max_epochs" = Some max_epochs
  ∧ ∀ k, k ∉ ["logger"; "enable_checkpointing"; "enable_progress_bar"; "min_epochs";
              "max_epochs"; "callbacks"] →
      kw !! k = kwargs !! k.
Proof.
  unfold KrakenTrainer_init. cbv zeta. intros Hrun.
  assert (∃ cb, kw = cb (<["max_epochs" := max_epochs]>
                          (<["min_epochs" := min_epochs]>
                             (<["enable_progress_bar" := KBool enable_progress_bar]>
                                (<["enable_checkpointing" := KBool false]>
                                   (<["logger" := KBool false]> kwargs)))))
                ∧ ∀ m k, k ≠ "callbacks" → cb m !! k = m !! k) as (cb & -> & Hcb).
  { destruct enable_progress_bar.
    - destruct (_ !! "callbacks") as [[]|] eqn:Hl; try discriminate Hrun;
        injection Hrun as <-.
      + match goal with |- ∃ cb, <[_ := ?v]> _ = _ ∧ _ => exists (insert "callbacks" v) end.
        split; [done|]. intros m k Hk. by rewrite lookup_insert_ne.
      + exists (insert "callbacks" progress_bar_cb).
        split; [done|]. intros m k Hk. by rewrite lookup_insert_ne.
    - injection Hrun as <-. exists id. done. }
  split_and!; try (rewrite Hcb by done; by simplify_map_eq).
  intros k Hk. rewrite Hcb by set_solver.
  rewrite !lookup_insert_ne; [done|set_solver..].
Qed.

Lemma trainer_init_drops_callbacks_witness :
  let kwargs : gmap string kwval := {["accelerator" := KOther "gpu"]} in
  (∀ p, p ∈ KrakenTrainer_init_parameters → kwargs !! p = None)
  ∧ ∃ kw,
      KrakenTrainer_init (Some (KList [KCallback "EarlyStopping"])) true (KInt 5) (KInt 100)
        kwargs = inr kw
      ∧ kw !! "callbacks" = Some progress_bar_cb.
Proof.
  intros kwargs.
  assert (∀ p, p ∈ KrakenTrainer_init_parameters → kwargs !! p = None) as Hbind.
  { intros p Hp. repeat (apply elem_of_cons in Hp as [->|Hp]; [vm_compute; reflexivity|]).
    by apply elem_of_nil in Hp. }
  split; [exact Hbind|].
  exact (trainer_init_drops_callbacks (Some (KList [KCallback "EarlyStopping"])) true
           (KInt 5) (KInt 100) kwargs Hbind).
Defined.

Lemma trainer_init_overrides_witness :
  let kwargs : gmap string kwval :=
    {["logger" := KBool true; "accelerator" := KOther "gpu"]} in
  let kw := <["callbacks" := progress_bar_cb]>
              (<["max_epochs" := KInt 100]>
                 (<["min_epochs" := KInt 5]>
                    (<["enable_progress_bar" := KBool true]>
                       (<["enable_checkpointing" := KBool false]>
                          (<["logger" := KBool false]> kwargs))))) in
  KrakenTrainer_init None true (KInt 5) (KInt 100) kwargs = inr kw
  ∧ kw !! "logger" = Some (KBool false)
  ∧ kw !! "accelerator" = Some (KOther "gpu").
Proof.
  intros kwargs kw.
  assert (KrakenTrainer_init None true (KInt 5) (KInt 100) kwargs = inr kw) as Hrun
    by (vm_compute; reflexivity).
  destruct (trainer_init_overrides None true (KInt 5) (KInt 100) kwargs kw Hrun)
    as (Hl & _ & _ & _ & _ & Hk).
  split_and!; [exact Hrun|exact Hl|].
  rewrite Hk; [vm_compute; reflexivity|].
  intros Hin. repeat (apply elem_of_cons in Hin as [Hin|Hin]; [discriminate Hin|]).
  by apply elem_of_nil in Hin.
Defined.

(** ** The best epoch *)

Lemma validation_epoch_end_mono e a s :
  Qcle (best_metric s) (best_metric (validation_epoch_end e a s))
  ∧ Qcle a (best_metric (validation_epoch_end e a s)).
Proof.
  unfold validation_epoch_end. destruct (decide _) as [Hlt|Hge]; cbn.
  - split; [by apply Qclt_le_weak|apply Qcle_refl].
  - split; [apply Qcle_refl|by apply Qcnot_lt_le].
Qed.

Lemma validation_epochs_spec epochs : ∀ s,
  let s' := validation_epochs epochs s in
  Qcle (best_metric s) (best_metric s')
  ∧ (∀ e a, (e, a) ∈ epochs → Qcle a (best_metric s'))
  ∧ (s' = s ∨ ((best_epoch s', best_metric s') ∈ epochs
               ∧ Qclt (best_metric s) (best_metric s'))).
Proof.
  induction epochs as [|[e a] rest IH]; intros s; cbn.
  - split_and!; [apply Qcle_refl| |by left].
    intros e a H. by apply elem_of_nil in H.
  - destruct (IH (validation_epoch_end e a s)) as (H1 & H2 & H3).
    destruct (validation_epoch_end_mono e a s) as [M1 M2].
    fold (validation_epochs rest (validation_epoch_end e a s)).
    split_and!.
    + by eapply Qcle_trans.
    + intros e' a' Hin. apply elem_of_cons in Hin as [[= -> ->]|Hin].
      * by eapply Qcle_trans.
      * by eapply H2.
    + unfold validation_epoch_end in *. destruct (decide _) as [Hlt|Hge].
      * right. destruct H3 as [->|[Hin Hlt']]; cbn in *.
        -- split; [by left|done].
        -- split; [by right|]. by eapply Qclt_trans.
      * destruct H3 as [->|[Hin Hlt']]; [by left|right].
        split; [by right|done].
Qed.

(** X16. [best_metric] is what its name says. After any sequence of
    validation epochs, started from the values the constructor assigns,
    [best_metric] is at least every accuracy seen, and it is either still
    the initial 0.0 with [best_epoch] 0 (no accuracy was greater) or the
    accuracy of one of the epochs seen, [best_epoch] being that epoch. *)
Theorem validation_epoch_end_tracks_best epochs :
  let s := validation_epochs epochs initial_best in
  (∀ e a, (e, a) ∈ epochs → Qcle a (best_metric s))
  ∧ Qcle (Qc_of_Z 0) (best_metric s)
  ∧ (s = initial_best
     ∨ ((best_epoch s, best_metric s) ∈ epochs
        ∧ Qclt (Qc_of_Z 0) (best_metric s))).
Proof.
  intros s. destruct (validation_epochs_spec epochs initial_best) as (H1 & H2 & H3).
  split_and!; done.
Qed.

Lemma validation_epochs_first epochs : ∀ s pre e a post,
  epochs = pre ++ (e, a) :: post →
  (∀ e' a', (e', a') ∈ pre → Qclt a' a) →
  Qclt (best_metric s) a →
  (∀ e' a', (e', a') ∈ post → Qcle a' a) →
  validation_epochs epochs s = mkBest e a.
Proof.
  intros s pre e a post -> Hpre Hs Hpost.
  unfold validation_epochs. rewrite foldl_app. cbn [foldl].
  assert (Qclt (best_metric (foldl (λ s ea, validation_epoch_end ea.1 ea.2 s) s pre)) a)
    as Hlt.
  { clear Hpost. revert s Hs. induction pre as [|[e' a'] pre IH]; intros s Hs; [done|].
    cbn [foldl]. apply IH.
    - intros e'' a'' Hin. apply (Hpre e''). by right.
    - unfold validation_epoch_end. destruct (decide _); [|done].
      cbn. apply (Hpre e'). by left. }
  set (s1 := foldl _ s pre) in *.
  assert (validation_epoch_end (e, a).1 (e, a).2 s1 = mkBest e a) as ->.
  { unfold validation_epoch_end. cbn. by rewrite decide_True. }
  clear Hlt s1 Hpre Hs.
  induction post as [|[e' a'] post IH]; [done|].
  cbn [foldl]. unfold validation_epoch_end at 2. cbn.
  rewrite decide_False.
  - apply IH. intros e'' a'' Hin. apply (Hpost e''). by right.
  - apply Qcle_not_lt. apply (Hpost e'). by left.
Qed.

(** X17. Ties go to the earlier epoch: the comparison is strict, so when
    some epoch reaches an accuracy above 0.0 that no earlier epoch has
    reached and no later epoch exceeds, [best_epoch] and [best_metric]
    end up being that epoch and its accuracy. *)
Theorem validation_epoch_end_first_best pre e a post :
  (∀ e' a', (e', a') ∈ pre → Qclt a' a) →
  Qclt (Qc_of_Z 0) a →
  (∀ e' a', (e', a') ∈ post → Qcle a' a) →
  validation_epochs (pre ++ (e, a) :: post) initial_best = mkBest e a.
Proof. intros Hpre H0 Hpost. by eapply validation_epochs_first. Qed.

Lemma validation_epoch_end_first_best_witness :
  let half := Q2Qc (QArith_base.Qmake 1 2) in
  let three_quarters := Q2Qc (QArith_base.Qmake 3 4) in
  (∀ e' a', (e', a') ∈ [(0, half)] → Qclt a' three_quarters)
  ∧ Qclt (Qc_of_Z 0) three_quarters
  ∧ (∀ e' a', (e', a') ∈ [(2, three_quarters); (3, half)] → Qcle a' three_quarters)
  ∧ validation_epochs [(0, half); (1, three_quarters); (2, three_quarters); (3, half)]
      initial_best = mkBest 1 three_quarters.
Proof.
  intros half three_quarters.
  assert (∀ e' a', (e', a') ∈ [(0, half)] → Qclt a' three_quarters) as Hpre.
  { intros e' a' Hin. apply list_elem_of_singleton in Hin as [= -> ->]. reflexivity. }
  assert (Qclt (Qc_of_Z 0) three_quarters) as H0 by reflexivity.
  assert (∀ e' a', (e', a') ∈ [(2, three_quarters); (3, half)] → Qcle a' three_quarters)
    as Hpost.
  { intros e' a' Hin. apply elem_of_cons in Hin as [[= -> ->]|Hin]; [discriminate|].
    apply list_elem_of_singleton in Hin as [= -> ->]. discriminate. }
  split_and!; [exact Hpre|exact H0|exact Hpost|].
  exact (validation_epoch_end_first_best [(0, half)] 1 three_quarters
           [(2, three_quarters); (3, half)] Hpre H0 Hpost).
Defined.

(** ** The first part of the constructor *)

Lemma lookup_dict_update {V} (target other : gmap string V) k :
  dict_update target other !! k =
  match other !! k with Some v => Some v | None => target !! k end.
Proof.
  unfold dict_update. rewrite lookup_union.
  destruct (other !! k), (target !! k); done.
Qed.

Lemma init_hyper_params_inv load_model given model load_hyper_parameters G n H G' :
  init_hyper_params load_model given model load_hyper_parameters G = (inr (n, H), G') →
  G' = H
  ∧ H = dict_update
          (dict_update G (if load_hyper_parameters then from_option hyper_params ∅ n else ∅))
          (default ∅ given).
Proof.
  unfold init_hyper_params. cbv zeta.
  assert (∀ m : gmap string string,
            (if truthy_mapping given then dict_update m (default ∅ given) else m)
            = dict_update m (default ∅ given)) as Hgiven.
  { intros m. destruct given as [g|]; cbn [truthy_mapping default from_option id].
    - destruct (Nat.eqb (size g) 0) eqn:Hs; [|done].
      apply Nat.eqb_eq, map_size_empty_inv in Hs. subst g.
      unfold dict_update. by rewrite (left_id_L ∅ (∪)).
    - unfold dict_update. by rewrite (left_id_L ∅ (∪)). }
  destruct (truthy_str model).
  - destruct (load_model (default "" model)) as [e|nn_]; [done|].
    rewrite Hgiven. by intros [= <- <- <-].
  - rewrite Hgiven. intros [= <- <- <-]. split; [done|].
    cbn [from_option]. f_equal. unfold dict_update.
    destruct load_hyper_parameters; by rewrite (left_id_L ∅ (∪)).
Qed.

(** X18. Precedence of the hyper-parameters: a value given in the
    [hyper_params] argument wins over the value stored with the loaded
    model (which counts only with [load_hyper_parameters]), and that one
    over what the dictionary of [default_specs] held. *)
Theorem init_hyper_params_precedence load_model given model load_hyper_parameters G n H G' k :
  init_hyper_params load_model given model load_hyper_parameters G = (inr (n, H), G') →
  H !! k =
  match default ∅ given !! k with
  | Some v => Some v
  | None =>
      match (if load_hyper_parameters then from_option hyper_params ∅ n else ∅) !! k with
      | Some v => Some v
      | None => G !! k
      end
  end.
Proof.
  intros Hrun. destruct (init_hyper_params_inv _ _ _ _ _ _ _ _ Hrun) as [_ ->].
  by rewrite !lookup_dict_update.
Qed.

(** X19. The defaults do not stay the defaults. The constructor updates
    the dictionary of [default_specs] in place: after a construction that
    dictionary holds the hyper-parameters of the module just built, what
    was given in [hyper_params] included, and a module constructed next
    without a model and without hyper-parameters gets exactly those, not
    the values the library started with. *)
Theorem init_hyper_params_changes_defaults load_model given model load_hyper_parameters
    G n H G' flag :
  init_hyper_params load_model given model load_hyper_parameters G = (inr (n, H), G') →
  G' = H
  ∧ (∀ k v, default ∅ given !! k = Some v → G' !! k = Some v)
  ∧ init_hyper_params load_model None None flag G' = (inr (None, H), H).
Proof.
  intros Hrun. destruct (init_hyper_params_inv _ _ _ _ _ _ _ _ Hrun) as [-> HH].
  split_and!; [done| |done].
  intros k v Hk. rewrite HH, lookup_dict_update. by rewrite Hk.
Qed.

Lemma elem_of_warn_if b text : b = true → (WARNING, Text text) ∈ warn_if b text.
Proof. intros ->. by left. Qed.

(** X20. What the dispatch on [format_type] guarantees to the rest of
    the constructor: [valid_norm] is set exactly for
    [GroundTruthDataset]; forced binarization is on only if the caller
    asked for it and never together with [GroundTruthDataset]; when the
    caller asked for it and it has been switched off, a warning says so;
    and the dataset class for binary files is chosen exactly for
    [format_type] ['binary']. *)
Theorem dispatch_format_invariants preparse_xml_data format_type training_data
    evaluation_data repolygonize force_binarization d log :
  dispatch_format preparse_xml_data format_type training_data evaluation_data
    repolygonize force_binarization = (inr d, log) →
  (d_valid_norm d = true ↔ d_DatasetClass d = GroundTruthDataset)
  ∧ (d_force_binarization d = true →
     force_binarization = true ∧ d_DatasetClass d ≠ GroundTruthDataset)
  ∧ (force_binarization = true → d_force_binarization d = false →
     ∃ text, (WARNING, Text text) ∈ log)
  ∧ (d_DatasetClass d = ArrowIPCRecognitionDataset ↔ format_type = Some "binary").
Proof.
  unfold dispatch_format. cbv zeta.
  destruct (bool_decide (default "" format_type ∈ ["xml"; "page"; "alto"])) eqn:Hxml.
  { apply bool_decide_eq_true in Hxml.
    assert (format_type ≠ Some "binary") as Hnb.
    { intros ->. cbn in Hxml. set_solver. }
    destruct training_data as [td|]; [|done].
    destruct (preparse_xml_data td _ _) as [e|td']; [done|].
    destruct (truthy_list evaluation_data);
      [destruct (preparse_xml_data (default [] evaluation_data) _ _) as [e|ed']; [done|]|];
      intros [= <- <-]; cbn; split_and!; try done; try (by intros ->); by intros [? ?]. }
  destruct (String.eqb (default "" format_type) "binary") eqn:Hbin.
  { apply String.eqb_eq in Hbin.
    assert (format_type = Some "binary") as Hfmt by (by destruct format_type; simplify_eq/=).
    destruct training_data as [td|]; [|done].
    intros [= <- <-]; cbn; split_and!; try done; try (by intros ->); by intros [? ?]. }
  apply String.eqb_neq in Hbin.
  assert (format_type ≠ Some "binary") as Hnb by (by intros ->).
  destruct (String.eqb (default "" format_type) "path") eqn:Hpath.
  { destruct training_data as [td|]; [|done].
    intros [= <- <-]; cbn; split_and!; try done.
    intros -> _. eexists. apply elem_of_app. left. by apply elem_of_warn_if. }
  destruct (negb (truthy_str format_type)); [|done].
  destruct training_data as [[|first rest]|]; [done| |done].
  destruct (4 <=? entry_len first)%nat;
    intros [= <- <-]; cbn; split_and!; try done; try (by intros ->); try (by intros [? ?]).
  intros -> _. eexists. apply elem_of_app. left. by apply elem_of_warn_if.
Qed.

(** X21. The errors of the dispatch. A [format_type] that is neither
    empty nor one of the five names is rejected with [ValueError] before
    the data is looked at and before anything is logged. With one of the
    accepted formats the default [training_data=None] ends in
    [TypeError]; with no format and an empty list it ends in
    [IndexError], since the kind of data is read off the first entry. *)
Theorem dispatch_format_errors preparse_xml_data format_type training_data
    evaluation_data repolygonize force_binarization :
  let accepted := default "" format_type ∈ ["xml"; "page"; "alto"; "binary"; "path"; ""] in
  (¬ accepted →
   dispatch_format preparse_xml_data format_type training_data evaluation_data
     repolygonize force_binarization
   = (inl (Raised (ValueError
                     (Text ("format_type " +:+ default "" format_type
                            +:+ " not in [alto, page, xml, path, binary].")))), []))
  ∧ (accepted →
     ∃ what,
       (dispatch_format preparse_xml_data format_type None evaluation_data
          repolygonize force_binarization).1 = inl (TypeError what))
  ∧ (default "" format_type = "" →
     (dispatch_format preparse_xml_data format_type (Some []) evaluation_data
        repolygonize force_binarization).1 = inl IndexError).
Proof.
  intros accepted. unfold accepted, dispatch_format. cbv zeta.
  assert (truthy_str format_type = negb (String.eqb (default "" format_type) "")) as Htruth.
  { destruct format_type; [done|]. done. }
  rewrite Htruth, negb_involutive.
  split_and!.
  - intros Hno.
    rewrite bool_decide_eq_false_2 by set_solver.
    destruct (String.eqb_spec (default "" format_type) "binary") as [Heq|_];
      [rewrite Heq in Hno; set_solver|].
    destruct (String.eqb_spec (default "" format_type) "path") as [Heq|_];
      [rewrite Heq in Hno; set_solver|].
    destruct (String.eqb_spec (default "" format_type) "") as [Heq|_];
      [rewrite Heq in Hno; set_solver|].
    reflexivity.
  - intros Hyes.
    destruct (bool_decide _) eqn:Hxml; [by eexists|].
    apply bool_decide_eq_false in Hxml.
    destruct (String.eqb_spec (default "" format_type) "binary") as [_|Hn1]; [by eexists|].
    destruct (String.eqb_spec (default "" format_type) "path") as [_|Hn2]; [by eexists|].
    destruct (String.eqb_spec (default "" format_type) "") as [_|Hn3]; [by eexists|].
    exfalso. apply Hxml.
    repeat (apply elem_of_cons in Hyes as [Hyes|Hyes];
            [first [by rewrite Hyes; repeat constructor|done]|]).
    by apply elem_of_nil in Hyes.
  - intros ->. reflexivity.
Qed.

Lemma init_hyper_params_precedence_witness :
  let H : gmap string string :=
    {["lrate" := "0.1"; "batch_size" := "4"; "quit" := "early"]} in
  init_hyper_params model_files (Some {["lrate" := "0.1"]}) (Some "model.mlmodel") true
    library_defaults
  = (inr (Some stored_network, H), H)
  ∧ H !! "lrate" = Some "0.1"
  ∧ H !! "batch_size" = Some "4"
  ∧ H !! "quit" = Some "early".
Proof.
  intros H.
  assert (init_hyper_params model_files (Some {["lrate" := "0.1"]}) (Some "model.mlmodel") true
            library_defaults
          = (inr (Some stored_network, H), H)) as Hrun
    by (vm_compute; reflexivity).
  split; [exact Hrun|].
  pose proof (λ k, init_hyper_params_precedence model_files (Some {["lrate" := "0.1"]})
                     (Some "model.mlmodel") true library_defaults _ H H k Hrun) as Hk.
  split_and!; [rewrite (Hk "lrate")|rewrite (Hk "batch_size")|rewrite (Hk "quit")];
    vm_compute; reflexivity.
Defined.

Lemma init_hyper_params_changes_defaults_witness :
  let H : gmap string string :=
    {["lrate" := "0.1"; "batch_size" := "1"; "quit" := "early"]} in
  init_hyper_params model_files (Some {["lrate" := "0.1"]}) None false library_defaults
  = (inr (None, H), H)
  ∧ init_hyper_params model_files None None false H = (inr (None, H), H)
  ∧ H !! "lrate" = Some "0.1"
  ∧ library_defaults !! "lrate" = Some "0.001".
Proof.
  intros H.
  assert (init_hyper_params model_files (Some {["lrate" := "0.1"]}) None false library_defaults
          = (inr (None, H), H)) as Hrun by (vm_compute; reflexivity).
  destruct (init_hyper_params_changes_defaults model_files (Some {["lrate" := "0.1"]}) None
              false library_defaults None H H false Hrun) as (_ & Hgiven & Hnext).
  split_and!; [exact Hrun|exact Hnext| |vm_compute; reflexivity].
  apply Hgiven. vm_compute. reflexivity.
Defined.

Lemma dispatch_format_invariants_witness :
  let td := [Path "a.png"; Path "b.png"] in
  let d := mkDispatch GroundTruthDataset true false
             [Keyword "image" (Path "a.png"); Keyword "image" (Path "b.png")] None in
  let log := [(WARNING, Text "Forced binarization enabled in `path` mode. Will be ignored.")] in
  dispatch_format one_line_each (Some "path") (Some td) None false true = (inr d, log)
  ∧ (d_valid_norm d = true ↔ d_DatasetClass d = GroundTruthDataset)
  ∧ (∃ text, (WARNING, Text text) ∈ log).
Proof.
  intros td d log.
  assert (dispatch_format one_line_each (Some "path") (Some td) None false true = (inr d, log))
    as Hrun by (vm_compute; reflexivity).
  destruct (dispatch_format_invariants one_line_each (Some "path") (Some td) None false true
              d log Hrun) as (Hv & _ & Hw & _).
  split_and!; [exact Hrun|exact Hv|exact (Hw eq_refl eq_refl)].
Defined.

Lemma dispatch_format_errors_witness :
  dispatch_format one_line_each (Some "pdf") None None false false
  = (inl (Raised (ValueError
                    (Text "format_type pdf not in [alto, page, xml, path, binary]."))), [])
  ∧ (∃ what,
       (dispatch_format one_line_each (Some "alto") None None false false).1
       = inl (TypeError what))
  ∧ (dispatch_format one_line_each None (Some []) None false false).1 = inl IndexError.
Proof.
  destruct (dispatch_format_errors one_line_each (Some "pdf") None None false false)
    as (Hbad & _ & _).
  destruct (dispatch_format_errors one_line_each (Some "alto") None None false false)
    as (_ & Hnone & _).
  destruct (dispatch_format_errors one_line_each None (Some []) None false false)
    as (_ & _ & Hempty).
  split_and!.
  - apply Hbad. cbn. intros Hin.
    repeat (apply elem_of_cons in Hin as [Hin|Hin]; [discriminate Hin|]).
    by apply elem_of_nil in Hin.
  - apply Hnone. cbn. by do 2 right; left.
  - by apply Hempty.
Defined.

(** ** The end of a validation run *)

Ltac trainer_simpl :=
  cbn [sanity_checking current_epoch logged_metrics t_model_type t_one_channel_mode
       completed_epochs accuracy t_im_mode train_len t_output save_model saved noted].

Lemma validation_ends_run epochs : ∀ converted t done_ history,
  sanity_checking t = false →
  completed_epochs t = Some done_ →
  accuracy t = Some history →
  Forall2 (converts_and_saves t) epochs converted →
  ∃ t',
    validation_ends epochs t = (inr tt, t')
    ∧ completed_epochs t' = Some (done_ + Z.of_nat (length epochs))%Z
    ∧ accuracy t' =
        Some (history ++ zip_with (λ em qs, ((em.1 + 1) * train_len t, qs)) epochs converted)
    ∧ saved t' = saved t ++ ((λ em, checkpoint_name (t_output t) em.1 +:+ ".mlmodel") <$> epochs)
    ∧ t_one_channel_mode t' =
        (if fills_one_channel_mode epochs t then Some (t_im_mode t) else t_one_channel_mode t)
    ∧ sanity_checking t' = false
    ∧ t_model_type t' = t_model_type t
    ∧ t_im_mode t' = t_im_mode t
    ∧ train_len t' = train_len t
    ∧ t_output t' = t_output t
    ∧ save_model t' = save_model t.
Proof.
  induction epochs as [|[e m] rest IH]; intros converted t done_ history Hs Hc Ha Hok.
  - apply Forall2_nil_inv_l in Hok as ->.
    exists t. cbn. rewrite Z.add_0_r, !app_nil_r. unfold fills_one_channel_mode. cbn.
    split_and!; done.
  - apply Forall2_cons_inv_l in Hok as (qs & converted' & [Hfl Hsave] & Hrest & ->).
    cbn [fst snd] in Hfl, Hsave.
    cbn [validation_ends]. unfold on_validation_end, at_epoch. trainer_simpl.
    rewrite Hs. cbn [negb].
    set (fill := Nat.eqb e 0 && bool_decide (t_model_type t = Some "recognition")).
    set (mode := bool_decide (t_im_mode t ∈ ["1"; "L"])).
    assert (fills_one_channel_mode ((e, m) :: rest) t
            = (fill && mode) || fills_one_channel_mode rest t) as Hfill.
    { unfold fills_one_channel_mode, fill, mode. cbn [existsb fst].
      destruct (Nat.eqb e 0), (existsb _ rest), (bool_decide (t_model_type t = _)),
        (bool_decide (t_im_mode t ∈ _)); done. }
    rewrite Hfill.
    destruct fill; [destruct mode|];
      trainer_simpl; cbn [andb orb];
      rewrite Hc; trainer_simpl;
      rewrite Ha, Hfl; trainer_simpl; rewrite Hsave;
      match goal with
      | |- ∃ t', validation_ends rest ?t1 = _ ∧ _ =>
          destruct (IH converted' t1 (done_ + 1)%Z
                      (history ++ [((e + 1) * train_len t, qs)]) eq_refl eq_refl eq_refl)
            as (t' & Hrun & H1 & H2 & H3 & H4 & H5 & H6 & H7 & H8 & H9 & H10);
          [exact Hrest|];
          exists t'; cbn in H1, H2, H3, H4, H5, H6, H7, H8, H9, H10 |- *
      end;
      (split_and!;
       [exact Hrun
       |rewrite H1; f_equal; lia
       |rewrite H2; by rewrite <- app_assoc
       |rewrite H3; by rewrite <- app_assoc
       |rewrite H4; unfold fills_one_channel_mode; cbn;
        by destruct (existsb _ rest && _ && _)
       |done..]).
Qed.

(** X22. Outside the sanity check, with [completed_epochs] and
    [accuracy] in place, calling [on_validation_end] at the end of each
    of a series of epochs keeps the books as long as every logged metric
    converts to a float and [save_model] writes every checkpoint: then no
    call raises, the counter of completed epochs has advanced by the
    number of calls, the accuracy history has one more entry per call,
    stamped with the number of samples seen up to that epoch and holding
    the converted metrics, and one checkpoint per call has been saved
    under the output name and the epoch number. [one_channel_mode] is set
    to the image mode of the training set if one of the epochs was epoch
    0, the model is a recognition model and the mode is ['1'] or ['L'],
    and is left alone otherwise. *)
Theorem on_validation_end_bookkeeping epochs converted t done_ history :
  sanity_checking t = false →
  completed_epochs t = Some done_ →
  accuracy t = Some history →
  Forall2 (converts_and_saves t) epochs converted →
  ∃ t',
    validation_ends epochs t = (inr tt, t')
    ∧ completed_epochs t' = Some (done_ + Z.of_nat (length epochs))%Z
    ∧ accuracy t' =
        Some (history ++ zip_with (λ em qs, ((em.1 + 1) * train_len t, qs)) epochs converted)
    ∧ saved t' = saved t ++ ((λ em, checkpoint_name (t_output t) em.1 +:+ ".mlmodel") <$> epochs)
    ∧ t_one_channel_mode t' =
        (if fills_one_channel_mode epochs t then Some (t_im_mode t) else t_one_channel_mode t).
Proof.
  intros Hs Hc Ha Hok.
  destruct (validation_ends_run epochs converted t done_ history Hs Hc Ha Hok)
    as (t' & Hrun & H1 & H2 & H3 & H4 & _).
  by exists t'.
Qed.

(** X23. When the metadata of the network has no [accuracy] entry the
    method raises [KeyError], but only after it has counted the epoch:
    the epoch is recorded as completed although no checkpoint has been
    written for it. *)
Theorem on_validation_end_without_history t done_ :
  sanity_checking t = false →
  completed_epochs t = Some done_ →
  accuracy t = None →
  let res := on_validation_end t in
  res.1 = inl (KeyError "accuracy")
  ∧ completed_epochs res.2 = Some (done_ + 1)%Z
  ∧ saved res.2 = saved t.
Proof.
  intros Hs Hc Ha res. unfold res, on_validation_end. rewrite Hs. cbn [negb].
  destruct (Nat.eqb (current_epoch t) 0 && bool_decide (t_model_type t = Some "recognition"));
    [destruct (bool_decide (t_im_mode t ∈ ["1"; "L"]))|]; cbn; rewrite Hc; cbn; rewrite Ha;
    done.
Qed.

(** X26. When the metrics convert but [save_model] raises, the
    exception ends the method after the books were written: the epoch
    counts as completed and the accuracy history has its entry, though
    there is no checkpoint for the epoch. *)
Theorem on_validation_end_save_fails t done_ history qs e :
  sanity_checking t = false →
  completed_epochs t = Some done_ →
  accuracy t = Some history →
  floats (logged_metrics t) = inr qs →
  save_model t (checkpoint_name (t_output t) (current_epoch t) +:+ ".mlmodel") = Some e →
  let res := on_validation_end t in
  res.1 = inl e
  ∧ completed_epochs res.2 = Some (done_ + 1)%Z
  ∧ accuracy res.2 = Some (history ++ [((current_epoch t + 1) * train_len t, qs)])
  ∧ saved res.2 = saved t.
Proof.
  intros Hs Hc Ha Hfl Hsave res. unfold res, on_validation_end. rewrite Hs. cbn [negb].
  destruct (Nat.eqb (current_epoch t) 0 && bool_decide (t_model_type t = Some "recognition"));
    [destruct (bool_decide (t_im_mode t ∈ ["1"; "L"]))|]; trainer_simpl; rewrite Hc;
    trainer_simpl; rewrite Ha, Hfl; trainer_simpl; rewrite Hsave; done.
Qed.

Lemma on_validation_end_bookkeeping_witness :
  let t := resumed_trainer (Some []) in
  let epochs := [(0, [("val_accuracy", inr 1%Qc)]); (1, [])] in
  sanity_checking t = false
  ∧ completed_epochs t = Some 2%Z
  ∧ accuracy t = Some []
  ∧ Forall2 (converts_and_saves t) epochs [[("val_accuracy", 1%Qc)]; []]
  ∧ ∃ t',
      validation_ends epochs t = (inr tt, t')
      ∧ completed_epochs t' = Some 4%Z
      ∧ accuracy t' = Some [(10, [("val_accuracy", 1%Qc)]); (20, [])]
      ∧ saved t' = ["model_0.mlmodel"; "model_1.mlmodel"]
      ∧ t_one_channel_mode t' = Some "L".
Proof.
  intros t epochs.
  assert (Forall2 (converts_and_saves t) epochs [[("val_accuracy", 1%Qc)]; []]) as Hok
    by (repeat constructor).
  destruct (on_validation_end_bookkeeping epochs _ t 2%Z [] eq_refl eq_refl eq_refl Hok)
    as (t' & Hrun & H1 & H2 & H3 & H4).
  split_and!; [reflexivity..|exact Hok|].
  exists t'. split_and!; [exact Hrun|exact H1|exact H2|exact H3|exact H4].
Defined.

Lemma on_validation_end_without_history_witness :
  let t := resumed_trainer None in
  sanity_checking t = false
  ∧ completed_epochs t = Some 2%Z
  ∧ accuracy t = None
  ∧ (on_validation_end t).1 = inl (KeyError "accuracy")
  ∧ completed_epochs (on_validation_end t).2 = Some 3%Z
  ∧ saved (on_validation_end t).2 = [].
Proof.
  intros t.
  destruct (on_validation_end_without_history t 2%Z eq_refl eq_refl eq_refl)
    as (Hr & Hc & Hs).
  split_and!; [reflexivity..|exact Hr|exact Hc|exact Hs].
Defined.

Lemma on_validation_end_save_fails_witness :
  let t := misplaced_trainer (Some []) in
  sanity_checking t = false
  ∧ completed_epochs t = Some 2%Z
  ∧ accuracy t = Some []
  ∧ floats (logged_metrics t) = inr []
  ∧ (on_validation_end t).1
    = inl (Raised (FileNotFoundError "No such file or directory" "gone/model_0.mlmodel"))
  ∧ completed_epochs (on_validation_end t).2 = Some 3%Z
  ∧ accuracy (on_validation_end t).2 = Some [(10, [])]
  ∧ saved (on_validation_end t).2 = [].
Proof.
  intros t.
  destruct (on_validation_end_save_fails t 2%Z [] [] _ eq_refl eq_refl eq_refl eq_refl eq_refl)
    as (Hr & Hc & Ha & Hs).
  split_and!; [reflexivity..|exact Hr|exact Hc|exact Ha|exact Hs].
Defined.
